(** * Vision AI Pro telemetry API: a shallow embedding

    The development follows [api/index.js] (the serverless entry point) and
    [api/server.js] (the long-running server).  The two files share one
    design and differ in a handful of places; the embedding carries a
    [Variant] and branches exactly where the two sources differ: the
    address recorded for a client, the [|| 0] after [parseInt], the
    eviction timer set by [session/end], and the synchronous or queued
    write of the logger.  The repository holds two more server files, in
    [src/unnamed/part_000]: an older draft, whose logger and session routes
    are embedded in the module [Draft], and a cut-down serverless variant,
    whose session middleware is embedded in the module [Lite].

    Conventions.
    - JavaScript strings are byte strings ([string]); this is exact on ASCII
      text and gives file sizes in bytes.  Message texts are written
      without accents.
    - JavaScript numbers that the handlers compute with are integers, or the
      not-a-number value: [JsNum].  Doubles are exact on integers of
      magnitude below 2^53; rounding beyond that range and the infinities
      are not modelled, and a statement about the value of a sum, a
      quotient or a decimal text says in which range it holds.
    - Values taken from a parsed JSON body are primitives ([JsVal]);
      compound values (arrays, objects) and fractional numbers are left
      out, except in [filters_after], which reads the filter step over
      arrays and objects as well.
    - White space is the ASCII white space; a statement about [trim] or
      [parseInt] on a text says when the text has to be free of other
      white space.
    - Dates are milliseconds since the epoch ([Z]); one handler run reads
      the clock once.
    - The file system is a finite map from paths to nodes; symbolic links
      and relative look-ups are left out. *)

From Stdlib Require Import ZArith Lia List Bool Ascii String.
From stdpp Require Import base option list strings gmap.

Open Scope string_scope.
Open Scope Z_scope.

(* ================================================================= *)
(** ** JavaScript values *)

Module Js.

(** A primitive value of a parsed request body. *)
Inductive JsVal : Type :=
| JUndefined
| JNull
| JBool (b : bool)
| JNum (z : Z)
| JStr (s : string).

(** A number a handler computes with: an integer, or [NaN]. *)
Inductive JsNum : Type :=
| Num (z : Z)
| NaN.

Definition JsVal_eqb (a b : JsVal) : bool :=
  match a, b with
  | JUndefined, JUndefined => true
  | JNull, JNull => true
  | JBool x, JBool y => Bool.eqb x y
  | JNum x, JNum y => Z.eqb x y
  | JStr x, JStr y => String.eqb x y
  | _, _ => false
  end.

(** [ToBoolean]: the test made by [if (v)], [!v], [v && ...], [v || ...]. *)
Definition ToBoolean (v : JsVal) : bool :=
  match v with
  | JUndefined | JNull => false
  | JBool b => b
  | JNum z => negb (z =? 0)
  | JStr s => negb (String.eqb s "")
  end.

(** [a + b] on numbers. *)
Definition add (a b : JsNum) : JsNum :=
  match a, b with
  | Num x, Num y => Num (x + y)
  | _, _ => NaN
  end.

(** [n || 0] on a number: [NaN] and [0] are falsy. *)
Definition or_zero (n : JsNum) : JsNum :=
  match n with
  | Num z => Num z
  | NaN => Num 0
  end.

(** A destructuring default [{ x = d }]: used when the field is undefined. *)
Definition default_to (d : JsVal) (v : JsVal) : JsVal :=
  match v with
  | JUndefined => d
  | _ => v
  end.

(** [Math.round (a / b)] for integers [a] and a positive integer [b]:
    rounding to the nearest integer, halves towards plus infinity. *)
Definition round_div (a b : Z) : Z := (2 * a + b) / (2 * b).

(** *** Decimal text of an integer ([Number.prototype.toString]) *)

Definition digit_char (d : N) : ascii := ascii_of_N (48 + d).

Fixpoint decimal_digits (fuel : nat) (n : N) : string :=
  match fuel with
  | O => ""
  | S f =>
      if (n <? 10)%N then String (digit_char n) ""
      else decimal_digits f (n / 10)%N ++ String (digit_char (n mod 10)%N) ""
  end.

Definition N_toString (n : N) : string :=
  decimal_digits (S (N.to_nat (N.size n))) n.

Definition Number_toString (z : Z) : string :=
  if z <? 0 then String "-" (N_toString (Z.abs_N z)) else N_toString (Z.abs_N z).

(** [ToString] on primitives. *)
Definition ToString (v : JsVal) : string :=
  match v with
  | JUndefined => "undefined"
  | JNull => "null"
  | JBool true => "true"
  | JBool false => "false"
  | JNum z => Number_toString z
  | JStr s => s
  end.

(** *** [parseInt] *)

(** White space skipped by [parseInt]: tab, line feed, vertical tab, form
    feed, carriage return and space. *)
Definition is_white_space (c : ascii) : bool :=
  let n := N_of_ascii c in
  ((9 <=? n) && (n <=? 13) || (n =? 32))%N.

Fixpoint skip_white_space (s : string) : string :=
  match s with
  | String c s' => if is_white_space c then skip_white_space s' else s
  | "" => ""
  end.

Definition digit_value (radix : N) (c : ascii) : option N :=
  let n := N_of_ascii c in
  let v :=
    if ((48 <=? n) && (n <=? 57))%N then Some (n - 48)%N
    else if ((97 <=? n) && (n <=? 122))%N then Some (n - 87)%N
    else if ((65 <=? n) && (n <=? 90))%N then Some (n - 55)%N
    else None in
  match v with
  | Some d => if (d <? radix)%N then Some d else None
  | None => None
  end.

(** The longest prefix of digits, read left to right; [None] when the text
    does not start with a digit. *)
Fixpoint parse_digits (radix : N) (s : string) (acc : option N) : option N :=
  match s with
  | "" => acc
  | String c s' =>
      match digit_value radix c with
      | Some d =>
          parse_digits radix s'
            (Some (match acc with Some a => a * radix + d | None => d end)%N)
      | None => acc
      end
  end.

Definition strip_sign (s : string) : Z * string :=
  match s with
  | String "-" s' => (-1, s')
  | String "+" s' => (1, s')
  | _ => (1, s)
  end.

Definition strip_hex_prefix (s : string) : N * string :=
  match s with
  | String "0" (String "x" s') => (16%N, s')
  | String "0" (String "X" s') => (16%N, s')
  | _ => (10%N, s)
  end.

(** [parseInt(text)] with no radix argument. *)
Definition parseInt_string (s : string) : JsNum :=
  let '(sign, s1) := strip_sign (skip_white_space s) in
  let '(radix, s2) := strip_hex_prefix s1 in
  match parse_digits radix s2 None with
  | Some n => Num (sign * Z.of_N n)
  | None => NaN
  end.

(** [parseInt(v)]: the argument is first converted with [ToString]. *)
Definition parseInt (v : JsVal) : JsNum := parseInt_string (ToString v).

End Js.

Import Js.

(* ================================================================= *)
(** ** Strings, dates, paths and URI decoding of the platform *)

(** Length in bytes, as an integer. *)
Fixpoint byte_length (s : string) : Z :=
  match s with
  | "" => 0
  | String _ s' => 1 + byte_length s'
  end.

(** [s.startsWith(p)] *)
Definition startsWith (s p : string) : bool := String.prefix p s.

(** [s.endsWith(suf)] *)
Fixpoint endsWith (s suf : string) : bool :=
  String.eqb s suf ||
  match s with
  | "" => false
  | String _ s' => endsWith s' suf
  end.

(** [s.includes(c)] for a one-character needle. *)
Fixpoint has_char (c : ascii) (s : string) : bool :=
  match s with
  | "" => false
  | String d s' => Ascii.eqb c d || has_char c s'
  end.

(** [s.split(sep)] for a one-character separator. *)
Fixpoint split_on (sep : ascii) (s : string) : list string :=
  match s with
  | "" => [""]
  | String c s' =>
      if Ascii.eqb c sep then "" :: split_on sep s'
      else
        match split_on sep s' with
        | seg :: segs => String c seg :: segs
        | [] => [String c ""]
        end
  end.

Module JsDate.

Definition pad (width : nat) (n : Z) : string :=
  let d := N_toString (Z.abs_N n) in
  String.concat "" (repeat "0" (width - String.length d)) ++ d.

(** Year, month and day of a day count since 1970-01-01 (proleptic
    Gregorian calendar). *)
Definition civil_from_days (days : Z) : Z * Z * Z :=
  let z := days + 719468 in
  let era := z / 146097 in
  let doe := z - era * 146097 in
  let yoe := (doe - doe / 1460 + doe / 36524 - doe / 146096) / 365 in
  let doy := doe - (365 * yoe + yoe / 4 - yoe / 100) in
  let mp := (5 * doy + 2) / 153 in
  let d := doy - (153 * mp + 2) / 5 + 1 in
  let m := if mp <? 10 then mp + 3 else mp - 9 in
  let y := yoe + era * 400 + (if m <=? 2 then 1 else 0) in
  (y, m, d).

Definition year_text (y : Z) : string :=
  if (0 <=? y) && (y <=? 9999) then pad 4 y
  else if y <? 0 then String "-" (pad 6 y)
  else String "+" (pad 6 y).

(** [new Date(ms).toISOString()] *)
Definition toISOString (ms : Z) : string :=
  let '(y, m, d) := civil_from_days (ms / 86400000) in
  let t := ms mod 86400000 in
  year_text y ++ "-" ++ pad 2 m ++ "-" ++ pad 2 d ++ "T" ++
  pad 2 (t / 3600000) ++ ":" ++ pad 2 (t / 60000 mod 60) ++ ":" ++
  pad 2 (t / 1000 mod 60) ++ "." ++ pad 3 (t mod 1000) ++ "Z".

(** [date.toISOString().split('T')[0]] *)
Definition dateString (ms : Z) : string :=
  hd "" (split_on "T" (toISOString ms)).

End JsDate.

(** POSIX [path]. *)
Module Path.

Definition isAbsolute (p : string) : bool :=
  match p with
  | String "/" _ => true
  | _ => false
  end.

(** One step of [normalizeString]; the stack holds the kept segments, the
    last one first. *)
Definition norm_step (allowAboveRoot : bool) (st : list string) (seg : string)
  : list string :=
  if String.eqb seg "" || String.eqb seg "." then st
  else if String.eqb seg ".." then
    match st with
    | top :: rest =>
        if String.eqb top ".." then seg :: st else rest
    | [] => if allowAboveRoot then [seg] else []
    end
  else seg :: st.

Definition normalizeString (p : string) (allowAboveRoot : bool) : string :=
  String.concat "/"
    (rev (fold_left (norm_step allowAboveRoot) (split_on "/" p) [])).

Definition normalize (p : string) : string :=
  if String.eqb p "" then "."
  else
    let isAbs := isAbsolute p in
    let trailingSeparator := endsWith p "/" in
    let path := normalizeString p (negb isAbs) in
    if String.eqb path "" then
      if isAbs then "/" else if trailingSeparator then "./" else "."
    else
      let path := if trailingSeparator then path ++ "/" else path in
      if isAbs then String "/" path else path.

(** [path.join(a, b)] *)
Definition join (a b : string) : string :=
  if String.eqb a "" then
    if String.eqb b "" then "." else normalize b
  else if String.eqb b "" then normalize a
  else normalize (a ++ "/" ++ b).

(** [path.resolve(p)] in working directory [cwd] (an absolute path). *)
Definition resolve (cwd p : string) : string :=
  let full :=
    if String.eqb p "" then cwd
    else if isAbsolute p then p
    else cwd ++ "/" ++ p in
  let path := normalizeString full false in
  if isAbsolute full then String "/" path
  else if String.eqb path "" then "." else path.

End Path.

Module Uri.

Definition hex_value (c : ascii) : option N := digit_value 16 c.

(** Percent-decoding: [(true, b)] is a decoded [%XX] octet, [(false, c)] a
    character taken as written; [None] when a [%] is not followed by two
    hexadecimal digits. *)
Fixpoint percent_decode (s : string) : option (list (bool * ascii)) :=
  match s with
  | "" => Some []
  | String "%" (String h (String l rest)) =>
      match hex_value h, hex_value l, percent_decode rest with
      | Some a, Some b, Some ts => Some ((true, ascii_of_N (16 * a + b)) :: ts)
      | _, _, _ => None
      end
  | String "%" _ => None
  | String c rest =>
      match percent_decode rest with
      | Some ts => Some ((false, c) :: ts)
      | None => None
      end
  end.

Definition in_range (lo hi : N) (c : ascii) : bool :=
  ((lo <=? N_of_ascii c) && (N_of_ascii c <=? hi))%N.

Definition cons3 (a b c : ascii) (s : string) := String a (String b (String c s)).

(** Decoded octets above 127 must spell well-formed UTF-8, each octet of
    the sequence percent-encoded. *)
Fixpoint utf8_check (ts : list (bool * ascii)) : option string :=
  match ts with
  | [] => Some ""
  | (false, c) :: r => String c <$> utf8_check r
  | (true, c) :: r =>
      if in_range 0 127 c then String c <$> utf8_check r
      else if in_range 194 223 c then
        match r with
        | (true, c1) :: r1 =>
            if in_range 128 191 c1 then
              (fun s => String c (String c1 s)) <$> utf8_check r1
            else None
        | _ => None
        end
      else if in_range 224 239 c then
        match r with
        | (true, c1) :: (true, c2) :: r2 =>
            let lo := if in_range 224 224 c then 160%N else 128%N in
            let hi := if in_range 237 237 c then 159%N else 191%N in
            if in_range lo hi c1 && in_range 128 191 c2 then
              (fun s => String c (String c1 (String c2 s))) <$> utf8_check r2
            else None
        | _ => None
        end
      else if in_range 240 244 c then
        match r with
        | (true, c1) :: (true, c2) :: (true, c3) :: r3 =>
            let lo := if in_range 240 240 c then 144%N else 128%N in
            let hi := if in_range 244 244 c then 143%N else 191%N in
            if in_range lo hi c1 && in_range 128 191 c2 && in_range 128 191 c3
            then (fun s => String c (cons3 c1 c2 c3 s)) <$> utf8_check r3
            else None
        | _ => None
        end
      else None
  end.

(** [decodeURIComponent(s)]; [None] stands for the [URIError] it throws. *)
Definition decodeURIComponent (s : string) : option string :=
  percent_decode s ≫= utf8_check.

End Uri.

(** [JSON.stringify] on the values the logger writes. *)
Module Json.

#[local] Unset Elimination Schemes.
Inductive t : Type :=
| Val (v : JsVal)
| Arr (items : list t)
| Obj (fields : list (string * t)).
#[local] Set Elimination Schemes.

Definition hex_digit (n : N) : ascii :=
  if (n <? 10)%N then ascii_of_N (48 + n) else ascii_of_N (87 + n).

Definition escape_char (c : ascii) : string :=
  let n := N_of_ascii c in
  if (n =? 34)%N then String "\" (String c "")
  else if (n =? 92)%N then "\\"
  else if (n =? 8)%N then "\b"
  else if (n =? 9)%N then "\t"
  else if (n =? 10)%N then "\n"
  else if (n =? 12)%N then "\f"
  else if (n =? 13)%N then "\r"
  else if (n <? 32)%N then
    "\u00" ++ String (hex_digit (n / 16)) (String (hex_digit (n mod 16)) "")
  else String c "".

Fixpoint escape (s : string) : string :=
  match s with
  | "" => ""
  | String c s' => escape_char c ++ escape s'
  end.

Definition quote (s : string) : string :=
  String "034"%char (escape s ++ String "034"%char "").

(** [None] is the [undefined] that [JSON.stringify(undefined)] returns. *)
Fixpoint stringify (j : t) : option string :=
  match j with
  | Val JUndefined => None
  | Val (JStr s) => Some (quote s)
  | Val v => Some (ToString v)
  | Arr items =>
      Some ("[" ++
            String.concat ","
              (List.map (fun i => match stringify i with
                                  | Some x => x
                                  | None => "null"
                                  end) items) ++ "]")
  | Obj fields =>
      Some ("{" ++
            String.concat ","
              (List.flat_map
                 (fun kv => match stringify (snd kv) with
                            | Some x => [quote (fst kv) ++ ":" ++ x]
                            | None => []
                            end) fields) ++ "}")
  end.

Definition str (s : string) : t := Val (JStr s).
Definition num (z : Z) : t := Val (JNum z).

Definition of_JsNum (n : JsNum) : t :=
  match n with
  | Num z => Val (JNum z)
  | NaN => Val JNull
  end.

End Json.

(** The file system the logger and the log routes see.  Paths are looked
    up as spelled; a node is a regular file or a directory.  Besides the
    failures that follow from the tree itself, any operation on any path
    can be made to fail ([fault]), standing for permission, quota and
    device errors. *)
Module Fs.

Record Times : Type := { mtime : Z; birthtime : Z }.

Inductive Node : Type :=
| File (data : string) (t : Times)
| Dir (size : Z) (t : Times).

Inductive Op : Type := OpStat | OpRename | OpAppend | OpRead | OpReaddir.

Inductive Error : Type := ENOENT | EISDIR | ENOTDIR | EIO | URIError.

Record t : Type := {
  nodes : gmap string Node;
  fault : Op -> string -> bool;
  (** writes handed to [fs.appendFile] that have not completed yet *)
  pending : list (string * string);
  (** paths whose content was handed out by [readFileSync] *)
  reads : list string
}.

Definition with_nodes (n : gmap string Node) (fs : t) : t :=
  {| nodes := n; fault := fault fs; pending := pending fs; reads := reads fs |}.

Inductive Result (A : Type) : Type :=
| Ok (a : A)
| Throw (e : Error).
Arguments Ok {A} a.
Arguments Throw {A} e.

(** A computation on the file system that can throw. *)
Definition M (A : Type) : Type := t -> Result A * t.

Definition ret {A} (a : A) : M A := fun fs => (Ok a, fs).
Definition throw {A} (e : Error) : M A := fun fs => (Throw e, fs).
Definition bind {A B} (m : M A) (k : A -> M B) : M B :=
  fun fs => match m fs with
            | (Ok a, fs') => k a fs'
            | (Throw e, fs') => (Throw e, fs')
            end.
Definition get : M t := fun fs => (Ok fs, fs).
Definition put (fs' : t) : M unit := fun _ => (Ok tt, fs').

(** [try { m } catch (error) { h }] *)
Definition try_catch {A} (m : M A) (h : Error -> M A) : M A :=
  fun fs => match m fs with
            | (Ok a, fs') => (Ok a, fs')
            | (Throw e, fs') => h e fs'
            end.

Record Stat : Type := { st_size : Z; st_mtime : Z; st_birthtime : Z }.

Definition stat_of (n : Node) : Stat :=
  match n with
  | File d tm => {| st_size := byte_length d; st_mtime := mtime tm;
                    st_birthtime := birthtime tm |}
  | Dir sz tm => {| st_size := sz; st_mtime := mtime tm;
                    st_birthtime := birthtime tm |}
  end.

Definition dirname (p : string) : string :=
  let d := String.concat "/" (removelast (split_on "/" p)) in
  if String.eqb d "" then (if Path.isAbsolute p then "/" else ".") else d.

Definition is_dir (fs : t) (p : string) : bool :=
  match nodes fs !! p with
  | Some (Dir _ _) => true
  | _ => false
  end.

Definition existsSync (p : string) (fs : t) : bool :=
  match nodes fs !! p with
  | Some _ => true
  | None => false
  end.

Definition statSync (p : string) : M Stat :=
  fun fs =>
    if fault fs OpStat p then (Throw EIO, fs)
    else match nodes fs !! p with
         | Some n => (Ok (stat_of n), fs)
         | None => (Throw ENOENT, fs)
         end.

(** Moving a node; a directory takes the paths below it along. *)
Definition rekey (old new k : string) : string :=
  if String.eqb k old then new
  else if startsWith k (old ++ "/")
  then new ++ String.substring (String.length old)
                 (String.length k - String.length old) k
  else k.

Definition renameSync (old new : string) : M unit :=
  fun fs =>
    if fault fs OpRename old then (Throw EIO, fs)
    else match nodes fs !! old with
         | None => (Throw ENOENT, fs)
         | Some (File d tm) =>
             if is_dir fs new then (Throw EISDIR, fs)
             else if negb (is_dir fs (dirname new)) then (Throw ENOENT, fs)
             else (Ok tt, with_nodes (<[new := File d tm]> (delete old (nodes fs))) fs)
         | Some (Dir _ _) =>
             if existsSync new fs then (Throw ENOTDIR, fs)
             else if negb (is_dir fs (dirname new)) then (Throw ENOENT, fs)
             else (Ok tt, with_nodes
                            (list_to_map
                               (List.map (fun kn => (rekey old new (fst kn), snd kn))
                                  (map_to_list (nodes fs)))) fs)
         end.

(** The write that [appendFileSync] makes and [appendFile] makes later. *)
Definition append_now (now : Z) (p data : string) : M unit :=
  fun fs =>
    if fault fs OpAppend p then (Throw EIO, fs)
    else match nodes fs !! p with
         | Some (File d tm) =>
             (Ok tt, with_nodes
                       (<[p := File (d ++ data)
                                 {| mtime := now; birthtime := birthtime tm |}]>
                          (nodes fs)) fs)
         | Some (Dir _ _) => (Throw EISDIR, fs)
         | None =>
             if is_dir fs (dirname p)
             then (Ok tt, with_nodes
                            (<[p := File data {| mtime := now; birthtime := now |}]>
                               (nodes fs)) fs)
             else (Throw ENOENT, fs)
         end.

Definition appendFileSync := append_now.

(** [fs.appendFile(p, data, callback)]: the write is queued; the call
    itself does not throw. *)
Definition appendFile (p data : string) : M unit :=
  fun fs => (Ok tt, {| nodes := nodes fs; fault := fault fs;
                       pending := pending fs ++ [(p, data)];
                       reads := reads fs |}).

(** Completion of the queued writes, in order; an error only reaches the
    callback, which prints it. *)
Definition flush (now : Z) (fs : t) : t :=
  let fs0 := {| nodes := nodes fs; fault := fault fs; pending := [];
                reads := reads fs |} in
  fold_left (fun acc w => snd (append_now now (fst w) (snd w) acc))
    (pending fs) fs0.

Definition readFileSync (p : string) : M string :=
  fun fs =>
    if fault fs OpRead p then (Throw EIO, fs)
    else match nodes fs !! p with
         | Some (File d _) =>
             (Ok d, {| nodes := nodes fs; fault := fault fs;
                       pending := pending fs; reads := reads fs ++ [p] |})
         | Some (Dir _ _) => (Throw EISDIR, fs)
         | None => (Throw ENOENT, fs)
         end.

Definition child_name (dir k : string) : option string :=
  let pre := if String.eqb dir "/" then "/" else dir ++ "/" in
  if startsWith k pre then
    let name := String.substring (String.length pre)
                  (String.length k - String.length pre) k in
    if String.eqb name "" || has_char "/" name then None else Some name
  else None.

Definition readdirSync (dir : string) : M (list string) :=
  fun fs =>
    if fault fs OpReaddir dir then (Throw EIO, fs)
    else match nodes fs !! dir with
         | Some (Dir _ _) =>
             (Ok (omap (fun kn => child_name dir (fst kn))
                    (map_to_list (nodes fs))), fs)
         | Some (File _ _) => (Throw ENOTDIR, fs)
         | None => (Throw ENOENT, fs)
         end.

End Fs.

Notation "'let*' x ':=' m 'in' k" := (Fs.bind m (fun x => k))
  (at level 10, x name, m at level 100, k at level 200).

(* ================================================================= *)
(** ** The telemetry server *)

(** The two sources. *)
Inductive Variant : Type :=
| IndexJs    (** [api/index.js] *)
| ServerJs.  (** [api/server.js] *)

(** What the process reads from its surroundings at start-up. *)
Record Env : Type := {
  env_LOGS_DIR : option string;  (** [process.env.LOGS_DIR] *)
  cwd : string;                  (** [process.cwd()] *)
  pid : Z                        (** [process.pid] *)
}.

Definition LOGS_DIR (v : Variant) (env : Env) : string :=
  let dflt := match v with
              | IndexJs => Path.join "/tmp" "logs"
              | ServerJs => Path.join (cwd env) "logs"
              end in
  match env_LOGS_DIR env with
  | Some d => if String.eqb d "" then dflt else d
  | None => dflt
  end.

Definition MAX_LOG_FILE_SIZE : Z := 10 * 1024 * 1024.

Definition logFileName (eventType : string) (now : Z) : string :=
  eventType ++ "_" ++ JsDate.dateString now ++ ".log".

Definition backupName (eventType : string) (now : Z) : string :=
  eventType ++ "_" ++ JsDate.dateString now ++ "_" ++ Number_toString now ++
  ".log.backup".

Definition logEntry (env : Env) (now : Z) (eventType : string) (data : Json.t)
  : string :=
  match Json.stringify
          (Json.Obj [("timestamp", Json.str (JsDate.toISOString now));
                     ("event", Json.str eventType);
                     ("data", data);
                     ("pid", Json.num (pid env))]) with
  | Some text => text
  | None => "undefined"
  end ++ String "010"%char "".

(** The statements inside the [try] of [logToFile]. *)
Definition logToFile_body (v : Variant) (env : Env) (now : Z)
    (eventType : string) (data : Json.t) : Fs.M bool :=
  let logPath := Path.join (LOGS_DIR v env) (logFileName eventType now) in
  let* fs0 := Fs.get in
  let* _ :=
    if Fs.existsSync logPath fs0 then
      let* st := Fs.statSync logPath in
      if Fs.st_size st >? MAX_LOG_FILE_SIZE then
        Fs.renameSync logPath
          (Path.join (LOGS_DIR v env) (backupName eventType now))
      else Fs.ret tt
    else Fs.ret tt in
  let* _ :=
    match v with
    | IndexJs => Fs.appendFileSync now logPath (logEntry env now eventType data)
    | ServerJs => Fs.appendFile logPath (logEntry env now eventType data)
    end in
  Fs.ret true.

Definition logToFile (v : Variant) (env : Env) (now : Z)
    (eventType : string) (data : Json.t) : Fs.M bool :=
  Fs.try_catch (logToFile_body v env now eventType data)
    (fun _ => Fs.ret false).

(** *** Sessions and statistics *)

Record Session : Type := {
  sessionId : string;
  startTime : Z;
  userAgent : string;
  ip : string;
  faceDetections : JsNum;
  objectDetections : JsNum;
  interactions : Z;
  filters : list JsVal;
  lastActivity : Z;
  endTime : option Z;
  duration : option Z
}.

(** The [Map] of sessions: string keys, in insertion order. *)
Definition SessionMap : Type := list (string * Session).

Fixpoint smap_get (k : string) (m : SessionMap) : option Session :=
  match m with
  | [] => None
  | (k', s) :: r => if String.eqb k' k then Some s else smap_get k r
  end.

Fixpoint smap_set (k : string) (s : Session) (m : SessionMap) : SessionMap :=
  match m with
  | [] => [(k, s)]
  | (k', s') :: r =>
      if String.eqb k' k then (k, s) :: r else (k', s') :: smap_set k s r
  end.

Definition smap_delete (k : string) (m : SessionMap) : SessionMap :=
  List.filter (fun e => negb (String.eqb (fst e) k)) m.

(** [Map.prototype.has] and [get] at a key that came out of a request body:
    only a string can be equal to a key. *)
Definition Map_get (key : JsVal) (m : SessionMap) : option Session :=
  match key with
  | JStr k => smap_get k m
  | _ => None
  end.

Definition Map_has (key : JsVal) (m : SessionMap) : bool :=
  match Map_get key m with
  | Some _ => true
  | None => false
  end.

Definition Map_values (m : SessionMap) : list Session := List.map snd m.

Record Stats : Type := {
  totalSessions : Z;
  totalDetections : JsNum;
  totalFaceDetections : JsNum;
  totalInteractions : Z;
  sessions : SessionMap;
  serverStartTime : Z;
  lastUpdated : Z
}.

(** The process: statistics, file system and the pending [setTimeout]
    callbacks (due time and the session they delete). *)
Record World : Type := {
  stats : Stats;
  fs : Fs.t;
  timers : list (Z * string)
}.

Definition initial_stats (t0 : Z) : Stats :=
  {| totalSessions := 0; totalDetections := Num 0;
     totalFaceDetections := Num 0; totalInteractions := 0;
     sessions := []; serverStartTime := t0; lastUpdated := t0 |}.

Definition initial_world (t0 : Z) (disk : Fs.t) : World :=
  {| stats := initial_stats t0; fs := disk; timers := [] |}.

(** *** Requests and responses *)

Record Client : Type := {
  userAgentHeader : option string;
  forwardedFor : option string;
  reqIp : option string;
  remoteAddress : option string;
  (** [Math.random().toString(36).substr(2, 9)] *)
  randomSuffix : string
}.

Record Body : Type := {
  b_sessionId : JsVal;
  b_faceCount : JsVal;
  b_objectCount : JsVal;
  b_confidenceLevel : JsVal;
  b_detectionType : JsVal;
  b_metadata : JsVal;
  b_widgetName : JsVal;
  b_action : JsVal;
  b_value : JsVal;
  b_coordinates : JsVal
}.

Record ActiveInfo : Type := {
  a_sessionId : string;
  a_startTime : Z;
  a_duration : Z;
  a_faceDetections : JsNum;
  a_objectDetections : JsNum;
  a_interactions : Z;
  a_filters : list JsVal;
  a_lastActivity : Z
}.

Record Snapshot : Type := {
  s_totalSessions : Z;
  s_activeSessions : Z;
  s_totalDetections : JsNum;
  s_totalFaceDetections : JsNum;
  s_totalInteractions : Z;
  s_avgDetectionsPerSession : JsNum;
  s_avgDuration : string;
  s_active : list ActiveInfo
}.

Record LogInfo : Type := {
  l_name : string;
  l_sizeBytes : Z;
  l_lastModified : Z;
  l_created : Z
}.

(** The data of a response.  The [message] and [timestamp] fields, which
    no route reads back, are left out. *)
Inductive Payload : Type :=
| PError (error : string)
| PSessionStart (id : string)
| PDetection (face object total globalFace globalTotal : JsNum)
| PInteraction (total : Z) (flt : list JsVal) (globalTotal : Z)
| PSessionEnd (face object : JsNum) (inter : Z) (dur : option Z)
    (flt : list JsVal)
| PStats (snap : Snapshot)
| PLogs (logs : list LogInfo) (totalSize : Z)
| PLogContent (fileName : string) (lines : list string) (size : Z)
    (lastModified : Z).

Record Response : Type := {
  status : Z;
  success : bool;
  payload : Payload
}.

Definition respond_error (code : Z) (msg : string) : Response :=
  {| status := code; success := false; payload := PError msg |}.

Definition respond_ok (p : Payload) : Response :=
  {| status := 200; success := true; payload := p |}.

(** *** Route handlers

    Every handler runs at one clock reading [now].  The [catch] of the
    session routes answers 500; with primitive body values nothing inside
    their [try] throws, the logger included, so that branch does not show
    in the embedding except where a statement dereferences a missing
    session. *)

Definition or_else (o : option string) (d : string) : string :=
  match o with
  | Some x => if String.eqb x "" then d else x
  | None => d
  end.

Definition with_stats (st : Stats) (w : World) : World :=
  {| stats := st; fs := fs w; timers := timers w |}.

Definition with_fs (f : Fs.t) (w : World) : World :=
  {| stats := stats w; fs := f; timers := timers w |}.

(** Calling the logger and dropping what it returns. *)
Definition log (v : Variant) (env : Env) (now : Z) (eventType : string)
    (data : Json.t) (w : World) : World :=
  with_fs (snd (logToFile v env now eventType data (fs w))) w.

Definition newSessionId (now : Z) (c : Client) : string :=
  "session_" ++ Number_toString now ++ "_" ++ randomSuffix c.

(** [POST /api/session/start] *)
Definition startSession (v : Variant) (env : Env) (now : Z) (c : Client)
    (w : World) : Response * World :=
  let id := newSessionId now c in
  let ua := or_else (userAgentHeader c) "Desconocido" in
  let addr :=
    match v with
    | IndexJs => or_else (forwardedFor c)
                   (or_else (reqIp c) (or_else (remoteAddress c) "0.0.0.0"))
    | ServerJs => or_else (reqIp c) (or_else (remoteAddress c) "0.0.0.0")
    end in
  let sessionData :=
    {| sessionId := id; startTime := now; userAgent := ua; ip := addr;
       faceDetections := Num 0; objectDetections := Num 0; interactions := 0;
       filters := []; lastActivity := now; endTime := None;
       duration := None |} in
  let st := stats w in
  let st' :=
    {| totalSessions := totalSessions st + 1;
       totalDetections := totalDetections st;
       totalFaceDetections := totalFaceDetections st;
       totalInteractions := totalInteractions st;
       sessions := smap_set id sessionData (sessions st);
       serverStartTime := serverStartTime st;
       lastUpdated := now |} in
  let w' :=
    log v env now "SESSION_START"
      (Json.Obj [("sessionId", Json.str id); ("ip", Json.str addr);
                 ("userAgent", Json.str (String.substring 0 200 ua));
                 ("timestamp", Json.str (JsDate.toISOString now))])
      (with_stats st' w) in
  (respond_ok (PSessionStart id), w').

(** The two checks every session route makes first: inline in
    [api/index.js], the [validateSession] middleware in [api/server.js]. *)
Definition validateSession (v : Variant) (b : Body) (w : World)
  : option Response :=
  if negb (ToBoolean (b_sessionId b)) then
    Some (respond_error 400 "sessionId es requerido")
  else if negb (Map_has (b_sessionId b) (sessions (stats w))) then
    Some (respond_error 404
            match v with
            | IndexJs => "Sesion no encontrada"
            | ServerJs => "Sesion no encontrada o ya finalizada"
            end)
  else None.

(** [stats.sessions.get(sessionId)] after validation: [api/server.js]
    answers 404 when it is undefined, [api/index.js] would dereference it
    and land in its [catch]. *)
Definition missing_session (v : Variant) (what : string) : Response :=
  match v with
  | IndexJs => respond_error 500 what
  | ServerJs => respond_error 404 "Sesion no encontrada"
  end.

Definition key_text (key : JsVal) : string :=
  match key with
  | JStr k => k
  | _ => ToString key
  end.

(** The number added to the counters for one count of the body. *)
Definition detection_delta (v : Variant) (count : JsVal) : JsNum :=
  match v with
  | IndexJs => or_zero (parseInt (default_to (JNum 0) count))
  | ServerJs => parseInt (default_to (JNum 0) count)
  end.

(** [POST /api/detection/record] *)
Definition recordDetection (v : Variant) (env : Env) (now : Z) (b : Body)
    (w : World) : Response * World :=
  match validateSession v b w with
  | Some r => (r, w)
  | None =>
      match Map_get (b_sessionId b) (sessions (stats w)) with
      | None => (missing_session v "Error procesando deteccion", w)
      | Some session =>
          let faceNum := detection_delta v (b_faceCount b) in
          let objectNum := detection_delta v (b_objectCount b) in
          let session' :=
            {| sessionId := sessionId session; startTime := startTime session;
               userAgent := userAgent session; ip := ip session;
               faceDetections := add (faceDetections session) faceNum;
               objectDetections := add (objectDetections session) objectNum;
               interactions := interactions session;
               filters := filters session; lastActivity := now;
               endTime := endTime session; duration := duration session |} in
          let st := stats w in
          let st' :=
            {| totalSessions := totalSessions st;
               totalDetections :=
                 add (totalDetections st) (add faceNum objectNum);
               totalFaceDetections := add (totalFaceDetections st) faceNum;
               totalInteractions := totalInteractions st;
               sessions :=
                 smap_set (key_text (b_sessionId b)) session' (sessions st);
               serverStartTime := serverStartTime st;
               lastUpdated := now |} in
          let w' :=
            log v env now "DETECTION_RECORD"
              (Json.Obj
                 ([("sessionId", Json.Val (b_sessionId b));
                   ("timestamp", Json.str (JsDate.toISOString now));
                   ("faceCount", Json.of_JsNum faceNum);
                   ("objectCount", Json.of_JsNum objectNum);
                   ("confidenceLevel", Json.Val (b_confidenceLevel b));
                   ("detectionType", Json.Val (b_detectionType b))] ++
                  match v with
                  | IndexJs => []
                  | ServerJs => [("metadata", Json.Val (b_metadata b))]
                  end))
              (with_stats st' w) in
          (respond_ok
             (PDetection (faceDetections session') (objectDetections session')
                (add (faceDetections session') (objectDetections session'))
                (totalFaceDetections st') (totalDetections st')),
           w')
      end
  end.

(** [Array.prototype.includes] on primitives. *)
Definition includes (l : list JsVal) (x : JsVal) : bool :=
  existsb (JsVal_eqb x) l.

(** The condition under which a filter value is pushed. *)
Definition pushes_filter (b : Body) (session : Session) : bool :=
  JsVal_eqb (b_widgetName b) (JStr "filterSelect") &&
  ToBoolean (b_value b) &&
  negb (includes (filters session) (b_value b)).

(** [POST /api/interaction/record] *)
Definition recordInteraction (v : Variant) (env : Env) (now : Z) (b : Body)
    (w : World) : Response * World :=
  match validateSession v b w with
  | Some r => (r, w)
  | None =>
      match Map_get (b_sessionId b) (sessions (stats w)) with
      | None => (missing_session v "Error procesando interaccion", w)
      | Some session =>
          let session' :=
            {| sessionId := sessionId session; startTime := startTime session;
               userAgent := userAgent session; ip := ip session;
               faceDetections := faceDetections session;
               objectDetections := objectDetections session;
               interactions := interactions session + 1;
               filters :=
                 if pushes_filter b session
                 then filters session ++ [b_value b]
                 else filters session;
               lastActivity := now;
               endTime := endTime session; duration := duration session |} in
          let st := stats w in
          let st' :=
            {| totalSessions := totalSessions st;
               totalDetections := totalDetections st;
               totalFaceDetections := totalFaceDetections st;
               totalInteractions := totalInteractions st + 1;
               sessions :=
                 smap_set (key_text (b_sessionId b)) session' (sessions st);
               serverStartTime := serverStartTime st;
               lastUpdated := now |} in
          let w' :=
            log v env now "INTERACTION_RECORD"
              (Json.Obj
                 ([("sessionId", Json.Val (b_sessionId b));
                   ("timestamp", Json.str (JsDate.toISOString now));
                   ("widgetName", Json.Val (b_widgetName b));
                   ("action", Json.Val (b_action b));
                   ("value", Json.Val (b_value b))] ++
                  match v with
                  | IndexJs => []
                  | ServerJs => [("coordinates", Json.Val (b_coordinates b))]
                  end))
              (with_stats st' w) in
          (respond_ok
             (PInteraction (interactions session') (filters session')
                (totalInteractions st')),
           w')
      end
  end.

(** Delay of the eviction timer of [api/server.js], in milliseconds. *)
Definition EVICTION_DELAY : Z := 60000.

(** [POST /api/session/end] *)
Definition endSession (v : Variant) (env : Env) (now : Z) (b : Body)
    (w : World) : Response * World :=
  match validateSession v b w with
  | Some r => (r, w)
  | None =>
      match Map_get (b_sessionId b) (sessions (stats w)) with
      | None => (missing_session v "Error finalizando sesion", w)
      | Some session =>
          let dur := round_div (now - startTime session) 1000 in
          let session' :=
            {| sessionId := sessionId session; startTime := startTime session;
               userAgent := userAgent session; ip := ip session;
               faceDetections := faceDetections session;
               objectDetections := objectDetections session;
               interactions := interactions session;
               filters := filters session; lastActivity := now;
               endTime := Some now; duration := Some dur |} in
          let st := stats w in
          let st' :=
            {| totalSessions := totalSessions st;
               totalDetections := totalDetections st;
               totalFaceDetections := totalFaceDetections st;
               totalInteractions := totalInteractions st;
               sessions :=
                 smap_set (key_text (b_sessionId b)) session' (sessions st);
               serverStartTime := serverStartTime st;
               lastUpdated := now |} in
          let w1 :=
            log v env now "SESSION_END"
              (Json.Obj
                 [("sessionId", Json.Val (b_sessionId b));
                  ("timestamp", Json.str (JsDate.toISOString now));
                  ("duration", Json.num dur);
                  ("stats",
                   Json.Obj
                     [("faceDetections", Json.of_JsNum (faceDetections session'));
                      ("objectDetections",
                       Json.of_JsNum (objectDetections session'));
                      ("interactions", Json.num (interactions session'));
                      ("filters",
                       Json.Arr (List.map Json.Val (filters session')))])])
              (with_stats st' w) in
          let w2 :=
            match v with
            | IndexJs => w1
            | ServerJs =>
                {| stats := stats w1; fs := fs w1;
                   timers := timers w1 ++
                             [(now + EVICTION_DELAY, key_text (b_sessionId b))] |}
            end in
          (respond_ok
             (PSessionEnd (faceDetections session') (objectDetections session')
                (interactions session') (duration session') (filters session')),
           w2)
      end
  end.

(** [s.duration || 0] *)
Definition duration_or_zero (s : Session) : Z :=
  match duration s with
  | Some d => d
  | None => 0
  end.

(** [!s.endTime]: a [Date], once set, is truthy. *)
Definition is_active (s : Session) : bool :=
  match endTime s with
  | Some _ => false
  | None => true
  end.

Definition active_info (now : Z) (s : Session) : ActiveInfo :=
  {| a_sessionId := sessionId s; a_startTime := startTime s;
     a_duration := round_div (now - startTime s) 1000;
     a_faceDetections := faceDetections s;
     a_objectDetections := objectDetections s;
     a_interactions := interactions s; a_filters := filters s;
     a_lastActivity := lastActivity s |}.

(** The number behind the [avgDuration] text of [GET /api/stats]. *)
Definition avgDuration (st : Stats) : Z :=
  let activeSessions := List.filter is_active (Map_values (sessions st)) in
  if totalSessions st >? 0 then
    round_div
      (fold_left (fun acc s => acc + duration_or_zero s) activeSessions 0)
      (totalSessions st)
  else 0.

Definition avgDetectionsPerSession (st : Stats) : JsNum :=
  if totalSessions st >? 0 then
    match totalDetections st with
    | Num d => Num (round_div d (totalSessions st))
    | NaN => NaN
    end
  else Num 0.

(** [GET /api/stats].  [api/server.js] sends no [success] field with this
    answer; the record shows [true] for both sources. *)
Definition getStats (now : Z) (w : World) : Response * World :=
  let st := stats w in
  let activeSessions := List.filter is_active (Map_values (sessions st)) in
  (respond_ok
     (PStats
        {| s_totalSessions := totalSessions st;
           s_activeSessions := Z.of_nat (List.length activeSessions);
           s_totalDetections := totalDetections st;
           s_totalFaceDetections := totalFaceDetections st;
           s_totalInteractions := totalInteractions st;
           s_avgDetectionsPerSession := avgDetectionsPerSession st;
           s_avgDuration := Number_toString (avgDuration st) ++ "s";
           s_active := List.map (active_info now) activeSessions |}),
   w).

(** *** Log routes *)

Fixpoint mapM {A B} (f : A -> Fs.M B) (l : list A) : Fs.M (list B) :=
  match l with
  | [] => Fs.ret []
  | x :: r =>
      let* y := f x in
      let* ys := mapM f r in
      Fs.ret (y :: ys)
  end.

(** [sort((a, b) => b.lastModified - a.lastModified)]: newest first, and
    stable. *)
Fixpoint insert_desc (x : LogInfo) (l : list LogInfo) : list LogInfo :=
  match l with
  | [] => [x]
  | y :: r =>
      if l_lastModified y <? l_lastModified x then x :: l
      else y :: insert_desc x r
  end.

Definition sort_desc (l : list LogInfo) : list LogInfo :=
  fold_left (fun acc x => insert_desc x acc) l [].

Definition log_info (v : Variant) (env : Env) (file : string) : Fs.M LogInfo :=
  let* st := Fs.statSync (Path.join (LOGS_DIR v env) file) in
  Fs.ret {| l_name := file; l_sizeBytes := Fs.st_size st;
            l_lastModified := Fs.st_mtime st;
            l_created := Fs.st_birthtime st |}.

(** [GET /api/logs].  [api/index.js] describes the files and sorts the
    descriptions; [api/server.js] sorts the names by modification time and
    then describes them: the same list. *)
Definition listLogs (v : Variant) (env : Env) : Fs.M Response :=
  Fs.try_catch
    (let* fs0 := Fs.get in
     if negb (Fs.existsSync (LOGS_DIR v env) fs0) then
       Fs.ret (respond_ok (PLogs [] 0))
     else
       let* names := Fs.readdirSync (LOGS_DIR v env) in
       let logFiles := List.filter (fun file => endsWith file ".log") names in
       let* infos := mapM (log_info v env) logFiles in
       let logs := sort_desc infos in
       Fs.ret (respond_ok
                 (PLogs logs
                    (fold_left (fun sum l => sum + l_sizeBytes l) logs 0))))
    (fun _ => Fs.ret (respond_error 500 "Error accediendo a los logs")).

Fixpoint reverse_string (s acc : string) : string :=
  match s with
  | "" => acc
  | String c s' => reverse_string s' (String c acc)
  end.

(** [s.trim()] *)
Definition trim (s : string) : string :=
  reverse_string
    (skip_white_space (reverse_string (skip_white_space s) "")) "".

Definition decode (s : string) : Fs.M string :=
  match Uri.decodeURIComponent s with
  | Some d => Fs.ret d
  | None => Fs.throw Fs.URIError
  end.

(** [GET /api/logs/:logFile]; [logFile] is the route parameter.  The
    payload holds the array [lines] of the source: the answer sends its
    length as [totalLines] and, as [content], each of the lines as
    [JSON.parse] reads it, or the line itself when it does not parse. *)
Definition readLog (v : Variant) (env : Env) (logFile : string)
  : Fs.M Response :=
  Fs.try_catch
    (let* decodedFileName := decode logFile in
     let logPath := Path.join (LOGS_DIR v env) decodedFileName in
     if negb (startsWith logPath (Path.resolve (cwd env) (LOGS_DIR v env)))
     then Fs.ret (respond_error 403 "Acceso denegado")
     else
       let* fs0 := Fs.get in
       if negb (Fs.existsSync logPath fs0) || negb (endsWith logFile ".log")
       then Fs.ret (respond_error 404 "Archivo de log no encontrado")
       else
         let* content := Fs.readFileSync logPath in
         let lines :=
           List.filter (fun line => negb (String.eqb (trim line) ""))
             (split_on "010"%char (trim content)) in
         let* st := Fs.statSync logPath in
         let* st' := Fs.statSync logPath in
         Fs.ret (respond_ok
                   (PLogContent decodedFileName lines (Fs.st_size st)
                      (Fs.st_mtime st'))))
    (fun _ => Fs.ret (respond_error 500 "Error leyendo el archivo de log")).

(** Running a log route in the process. *)
Definition on_fs (m : Fs.M Response) (w : World) : Response * World :=
  match m (fs w) with
  | (Fs.Ok r, f) => (r, with_fs f w)
  | (Fs.Throw _, f) => (respond_error 500 "Error interno del servidor", with_fs f w)
  end.

(** *** The event loop *)

(** The callback of the eviction timer: [stats.sessions.delete(sessionId)]. *)
Definition evict (id : string) (w : World) : World :=
  let st := stats w in
  with_stats
    {| totalSessions := totalSessions st;
       totalDetections := totalDetections st;
       totalFaceDetections := totalFaceDetections st;
       totalInteractions := totalInteractions st;
       sessions := smap_delete id (sessions st);
       serverStartTime := serverStartTime st;
       lastUpdated := lastUpdated st |} w.

(** The timers that are due at [t] run, in the order they were set. *)
Definition run_timers (t : Z) (w : World) : World :=
  fold_left (fun acc tm => evict (snd tm) acc)
    (List.filter (fun tm => fst tm <=? t) (timers w))
    {| stats := stats w; fs := fs w;
       timers := List.filter (fun tm => negb (fst tm <=? t)) (timers w) |}.

(** What the loop does before it takes a request at time [t]: due timers
    run and queued writes complete. *)
Definition settle (t : Z) (w : World) : World :=
  let w' := run_timers t w in
  with_fs (Fs.flush t (fs w')) w'.

Inductive Request : Type :=
| ReqStart (c : Client)
| ReqDetection (b : Body)
| ReqInteraction (b : Body)
| ReqEnd (b : Body)
| ReqStats
| ReqLogs
| ReqLogRead (logFile : string).

Definition handle (v : Variant) (env : Env) (now : Z) (r : Request)
    (w : World) : Response * World :=
  match r with
  | ReqStart c => startSession v env now c w
  | ReqDetection b => recordDetection v env now b w
  | ReqInteraction b => recordInteraction v env now b w
  | ReqEnd b => endSession v env now b w
  | ReqStats => getStats now w
  | ReqLogs => on_fs (listLogs v env) w
  | ReqLogRead f => on_fs (readLog v env f) w
  end.

(** A request arriving at time [t]. *)
Definition step (v : Variant) (env : Env) (ev : Z * Request) (w : World)
  : Response * World :=
  handle v env (fst ev) (snd ev) (settle (fst ev) w).

Definition run (v : Variant) (env : Env) (evs : list (Z * Request))
    (w : World) : World :=
  fold_left (fun acc ev => snd (step v env ev acc)) evs w.

(** [get] and [isValid] of the session store. *)
Definition isValid (id : string) (w : World) : bool :=
  Map_has (JStr id) (sessions (stats w)).


(* ================================================================= *)
(** ** Notions used in the statements *)

(** Texts made of decimal digits only. *)
Fixpoint all_digits (s : string) : bool :=
  match s with
  | "" => true
  | String c s' =>
      match digit_value 10 c with
      | Some _ => all_digits s'
      | None => false
      end
  end.

(** The three routes that name a session in their body. *)
Inductive SessionRoute : Type := Detection | Interaction | End.

Definition route (k : SessionRoute)
  : Variant -> Env -> Z -> Body -> World -> Response * World :=
  match k with
  | Detection => recordDetection
  | Interaction => recordInteraction
  | End => endSession
  end.

(** The requests that record telemetry, and so call the logger. *)
Inductive Telemetry : Type :=
| TStart (c : Client)
| TRecord (k : SessionRoute) (b : Body).

Definition telemetry (v : Variant) (env : Env) (now : Z) (t : Telemetry)
    (w : World) : Response * World :=
  match t with
  | TStart c => startSession v env now c w
  | TRecord k b => route k v env now b w
  end.

(** A path segment that [normalize] keeps as it is. *)
Definition plain (seg : string) : bool :=
  negb (String.eqb seg "") && negb (String.eqb seg ".") &&
  negb (String.eqb seg "..") && negb (has_char "/" seg).

(** An absolute path in normal form, other than the root. *)
Definition canonical (p : string) : bool :=
  match split_on "/" p with
  | "" :: seg :: segs => forallb plain (seg :: segs)
  | _ => false
  end.

(** [p] is [root] or lies below it. *)
Definition inside (root p : string) : bool :=
  String.eqb p root || startsWith p (root ++ "/").

(** The session of a key, and the counters of the process. *)
Definition session_of (key : JsVal) (w : World) : option Session :=
  Map_get key (sessions (stats w)).

Definition counters (st : Stats) : Z * JsNum * JsNum * Z :=
  (totalSessions st, totalDetections st, totalFaceDetections st,
   totalInteractions st).

(** The average the specification describes: over the sessions that have
    an [endTime], the mean of their durations, rounded. *)
Definition spec_avgDurationOfClosedSessions (st : Stats) : Z :=
  let closed :=
    List.filter (fun s => negb (is_active s)) (Map_values (sessions st)) in
  match closed with
  | [] => 0
  | _ => round_div (fold_left (fun acc s => acc + duration_or_zero s) closed 0)
           (Z.of_nat (List.length closed))
  end.

(** *** Sample data *)

Definition sample_env : Env :=
  {| env_LOGS_DIR := None; cwd := "/srv/app"; pid := 4242 |}.

Definition sample_times : Fs.Times := {| Fs.mtime := 0; Fs.birthtime := 0 |}.

Definition no_fault : Fs.Op -> string -> bool := fun _ _ => false.

Definition disk_of (n : gmap string Fs.Node) : Fs.t :=
  {| Fs.nodes := n; Fs.fault := no_fault; Fs.pending := []; Fs.reads := [] |}.

Definition sample_disk : Fs.t :=
  disk_of {[ "/tmp/logs" := Fs.Dir 4096 sample_times ]}.

Definition sample_client : Client :=
  {| userAgentHeader := Some "curl/8.5"; forwardedFor := None;
     reqIp := Some "203.0.113.7"; remoteAddress := None;
     randomSuffix := "k3x9q0abc" |}.

Definition empty_body : Body :=
  {| b_sessionId := JUndefined; b_faceCount := JUndefined;
     b_objectCount := JUndefined; b_confidenceLevel := JUndefined;
     b_detectionType := JUndefined; b_metadata := JUndefined;
     b_widgetName := JUndefined; b_action := JUndefined;
     b_value := JUndefined; b_coordinates := JUndefined |}.

Definition body_for (id : JsVal) : Body :=
  {| b_sessionId := id; b_faceCount := JUndefined;
     b_objectCount := JUndefined; b_confidenceLevel := JUndefined;
     b_detectionType := JUndefined; b_metadata := JUndefined;
     b_widgetName := JUndefined; b_action := JUndefined;
     b_value := JUndefined; b_coordinates := JUndefined |}.

Definition detection_body (id face object : JsVal) : Body :=
  {| b_sessionId := id; b_faceCount := face;
     b_objectCount := object; b_confidenceLevel := JUndefined;
     b_detectionType := JUndefined; b_metadata := JUndefined;
     b_widgetName := JUndefined; b_action := JUndefined;
     b_value := JUndefined; b_coordinates := JUndefined |}.

Definition interaction_body (id widget value : JsVal) : Body :=
  {| b_sessionId := id; b_faceCount := JUndefined;
     b_objectCount := JUndefined; b_confidenceLevel := JUndefined;
     b_detectionType := JUndefined; b_metadata := JUndefined;
     b_widgetName := widget; b_action := JStr "change";
     b_value := value; b_coordinates := JUndefined |}.

(** A process started at the epoch, one session opened one second later. *)
Definition sample_id : string := "session_1000_k3x9q0abc".

Definition world_open (v : Variant) : World :=
  run v sample_env [(1000, ReqStart sample_client)]
    (initial_world 0 sample_disk).

(** The same session closed eleven seconds after it was opened. *)
Definition world_closed (v : Variant) : World :=
  run v sample_env [(12000, ReqEnd (body_for (JStr sample_id)))]
    (world_open v).

Definition sample_session (w : World) : Session :=
  match session_of (JStr sample_id) w with
  | Some s => s
  | None =>
      {| sessionId := ""; startTime := 0; userAgent := ""; ip := "";
         faceDetections := NaN; objectDetections := NaN; interactions := 0;
         filters := []; lastActivity := 0; endTime := None;
         duration := None |}
  end.

(** *** The claims that the sources do not bear out, as they are worded *)

(** "A closed session is read-only": recordDetection and recordInteraction
    leave the counters and the filter list of a session with [endTime] set
    as they are. *)
Definition claim_closed_sessions_read_only : Prop :=
  forall (k : SessionRoute) v env now b w s,
    k <> End ->
    session_of (b_sessionId b) w = Some s ->
    endTime s <> None ->
    exists s',
      session_of (b_sessionId b) (snd (route k v env now b w)) = Some s' /\
      faceDetections s' = faceDetections s /\
      objectDetections s' = objectDetections s /\
      interactions s' = interactions s /\
      filters s' = filters s.

(** "The deltas added by recordDetection are non-negative integers." *)
Definition claim_detection_deltas_nonnegative : Prop :=
  forall v env now b w s,
    validateSession v b w = None ->
    session_of (b_sessionId b) w = Some s ->
    exists (df dobj : Z) s',
      0 <= df /\ 0 <= dobj /\
      session_of (b_sessionId b) (snd (recordDetection v env now b w)) = Some s' /\
      faceDetections s' = add (faceDetections s) (Num df) /\
      objectDetections s' = add (objectDetections s) (Num dobj) /\
      totalFaceDetections (stats (snd (recordDetection v env now b w))) =
        add (totalFaceDetections (stats w)) (Num df) /\
      totalDetections (stats (snd (recordDetection v env now b w))) =
        add (totalDetections (stats w)) (Num (df + dobj)).

(** *** Invariants of the session store *)

(** What holds of every session the routes build: the filter list has no
    repetition, and a session without [endTime] has no [duration]. *)
Definition session_ok (s : Session) : Prop :=
  List.NoDup (filters s) /\ (endTime s = None -> duration s = None).

Definition sessions_ok (w : World) : Prop :=
  Forall (fun e => session_ok (snd e)) (sessions (stats w)).

(** Characters that occur in no time stamp: anything but digits and the
    punctuation of the ISO format. *)
Definition not_in_timestamps (c : ascii) : Prop :=
  digit_value 10 c = None /\
  has_char c "-+T:.Z" = false.

(** A file system on which nothing fails for an outside reason. *)
Definition sound (disk : Fs.t) : Prop :=
  forall op p, Fs.fault disk op p = false.

(** "Rotation happens when the file is at or above the threshold": after
    such an append the file under the log name holds the new entry only. *)
Definition claim_rotation_at_or_above_threshold : Prop :=
  forall env now e d disk old tm,
    canonical (LOGS_DIR IndexJs env) = true ->
    has_char "/" e = false ->
    Fs.nodes disk !! Path.join (LOGS_DIR IndexJs env) (logFileName e now)
    = Some (Fs.File old tm) ->
    MAX_LOG_FILE_SIZE <= byte_length old ->
    Fs.is_dir disk (LOGS_DIR IndexJs env) = true ->
    Fs.is_dir disk (Path.join (LOGS_DIR IndexJs env) (backupName e now)) = false ->
    sound disk ->
    Fs.pending disk = [] ->
    exists disk' st,
      logToFile IndexJs env now e d disk = (Fs.Ok true, disk') /\
      Fs.statSync (Path.join (LOGS_DIR IndexJs env) (logFileName e now)) disk'
      = (Fs.Ok st, disk') /\
      Fs.st_size st = byte_length (logEntry env now e d).

(** A log file of exactly 10 MiB. *)
Definition ten_MiB_of_x : string := N.iter 10485760 (String "x") "".

(** A log directory that holds the session-start log of time 1000. *)
Definition disk_with_log (content : string) : Fs.t :=
  disk_of (<[ Path.join "/tmp/logs" (logFileName "SESSION_START" 1000)
              := Fs.File content sample_times ]>
             {[ "/tmp/logs" := Fs.Dir 4096 sample_times ]}).

Definition disk_at_threshold : Fs.t := disk_with_log ten_MiB_of_x.

Definition disk_above_threshold : Fs.t :=
  disk_with_log (String "y" ten_MiB_of_x).

(** "A file name that is an absolute path is answered 403." *)
Definition claim_absolute_name_denied : Prop :=
  forall v env disk logFile,
    canonical (LOGS_DIR v env) = true ->
    Path.isAbsolute logFile = true ->
    exists r disk',
      readLog v env logFile disk = (Fs.Ok r, disk') /\ status r = 403.

(** A disk with a directory next to the log directory whose name starts
    with the name of the log directory. *)
Definition disk_with_sibling : Fs.t :=
  disk_of (<[ "/tmp/logs-old/a.log" := Fs.File "secret" sample_times ]>
             (<[ "/tmp/logs-old" := Fs.Dir 4096 sample_times ]>
                {[ "/tmp/logs" := Fs.Dir 4096 sample_times ]})).

(** A log directory after a rotation. *)
Definition disk_with_backup : Fs.t :=
  disk_of (<[ "/tmp/logs/SESSION_START_1970-01-01_1000.log.backup"
              := Fs.File "old entries" sample_times ]>
             (<[ "/tmp/logs/SESSION_START_1970-01-01.log"
                 := Fs.File "new entry" sample_times ]>
                {[ "/tmp/logs" := Fs.Dir 4096 sample_times ]})).

(** "A session closed at [T] cannot be looked up from [T] plus the
    retention delay on." *)
Definition claim_closed_session_is_evicted : Prop :=
  forall v env T b w,
    status (fst (endSession v env T b w)) = 200 ->
    forall t,
      T + EVICTION_DELAY <= t ->
      isValid (key_text (b_sessionId b))
        (settle t (snd (endSession v env T b w))) = false.

(** No request of the list opens a session under the identifier [id]. *)
Definition never_reissued (id : string) (evs : list (Z * Request)) : Prop :=
  forall t c, In (t, ReqStart c) evs -> newSessionId t c <> id.

(** The session [id] is gone, or a timer that deletes it is due by [limit]. *)
Definition eviction_pending (limit : Z) (id : string) (w : World) : Prop :=
  smap_get id (sessions (stats w)) = None \/
  exists due, due <= limit /\ In (due, id) (timers w).

(* ================================================================= *)
(** ** [DELETE /api/logs/cleanup] of [api/index.js] *)

(** [fs.unlinkSync(p)] removes a regular file.  Taking a name out of its
    directory needs what renaming it needs, so an outside failure of
    [unlinkSync] is the one injected for a rename of the same path. *)
Definition unlinkSync (p : string) : Fs.M unit :=
  fun fs =>
    if Fs.fault fs Fs.OpRename p then (Fs.Throw Fs.EIO, fs)
    else match Fs.nodes fs !! p with
         | Some (Fs.File _ _) =>
             (Fs.Ok tt, Fs.with_nodes (delete p (Fs.nodes fs)) fs)
         | Some (Fs.Dir _ _) => (Fs.Throw Fs.EISDIR, fs)
         | None => (Fs.Throw Fs.ENOENT, fs)
         end.

(** The largest time value a [Date] holds. *)
Definition MAX_TIME : Z := 8640000000000000.

(** The time value of [cutoffDate] after
    [cutoffDate.setDate(cutoffDate.getDate() - parseInt(days))], where
    [days] is the query parameter with its default 7; [None] is an
    invalid date.  The process runs in UTC, where a day of the calendar is
    86400000 ms. *)
Definition cutoff (now : Z) (days : JsVal) : option Z :=
  match parseInt (default_to (JNum 7) days) with
  | Num n =>
      let t := now - n * 86400000 in
      if Z.abs t <=? MAX_TIME then Some t else None
  | NaN => None
  end.

(** [fileStats.mtime < cutoffDate]; a comparison with an invalid date is
    false. *)
Definition older (mtime : Z) (cutoffDate : option Z) : bool :=
  match cutoffDate with
  | Some c => mtime <? c
  | None => false
  end.

(** The [forEach] over the directory entries, with [deletedCount]. *)
Fixpoint cleanup_each (env : Env) (cutoffDate : option Z)
    (logFiles : list string) (deletedCount : Z) : Fs.M Z :=
  match logFiles with
  | [] => Fs.ret deletedCount
  | file :: rest =>
      let filePath := Path.join (LOGS_DIR IndexJs env) file in
      let* fileStats := Fs.statSync filePath in
      if older (Fs.st_mtime fileStats) cutoffDate then
        let* _ := unlinkSync filePath in
        cleanup_each env cutoffDate rest (deletedCount + 1)
      else cleanup_each env cutoffDate rest deletedCount
  end.

Record CleanupResponse : Type := {
  c_status : Z;
  c_success : bool;
  c_deleted : option Z;
  c_cutoffDate : option string
}.

(** The handler.  [toISOString] of an invalid date throws (a RangeError;
    the [catch] does not look at what it caught). *)
Definition cleanupLogs (env : Env) (now : Z) (days : JsVal)
  : Fs.M CleanupResponse :=
  Fs.try_catch
    (let cutoffDate := cutoff now days in
     let* fs0 := Fs.get in
     if negb (Fs.existsSync (LOGS_DIR IndexJs env) fs0) then
       Fs.ret {| c_status := 200; c_success := true; c_deleted := Some 0;
                 c_cutoffDate := None |}
     else
       let* logFiles := Fs.readdirSync (LOGS_DIR IndexJs env) in
       let* deletedCount := cleanup_each env cutoffDate logFiles 0 in
       match cutoffDate with
       | Some t =>
           Fs.ret {| c_status := 200; c_success := true;
                     c_deleted := Some deletedCount;
                     c_cutoffDate := Some (JsDate.toISOString t) |}
       | None => Fs.throw Fs.EIO
       end)
    (fun _ => Fs.ret {| c_status := 500; c_success := false;
                        c_deleted := None; c_cutoffDate := None |}).


(* ================================================================= *)
(** ** Further notions *)

(** *** Counting along a run *)

(** The identifiers that the session/start requests of a list produce, in
    order. *)
Definition started_ids (evs : list (Z * Request)) : list string :=
  flat_map (fun ev => match snd ev with
                      | ReqStart c => [newSessionId (fst ev) c]
                      | _ => []
                      end) evs.

(** Sum of numbers the way [+] adds them. *)
Definition sum_num (l : list JsNum) : JsNum := fold_right add (Num 0) l.

Definition sum_Z (l : list Z) : Z := fold_right Z.add 0 l.

(** [faceDetections + objectDetections] of a session. *)
Definition session_total (s : Session) : JsNum :=
  add (faceDetections s) (objectDetections s).

(** The global counters are the sums of what the stored sessions hold. *)
Definition totals_match (st : Stats) : Prop :=
  totalFaceDetections st =
    sum_num (List.map faceDetections (Map_values (sessions st))) /\
  totalDetections st =
    sum_num (List.map session_total (Map_values (sessions st))) /\
  totalInteractions st =
    sum_Z (List.map interactions (Map_values (sessions st))) /\
  totalSessions st = Z.of_nat (List.length (sessions st)).

Definition is_Num (n : JsNum) : Prop :=
  match n with
  | Num _ => True
  | NaN => False
  end.

(** No counter of the process is [NaN]. *)
Definition all_numeric (st : Stats) : Prop :=
  is_Num (totalFaceDetections st) /\ is_Num (totalDetections st) /\
  List.Forall (fun e => is_Num (faceDetections (snd e)) /\
                        is_Num (objectDetections (snd e))) (sessions st).

(** The session/start requests among a list of requests. *)
Definition count_starts (evs : list (Z * Request)) : Z :=
  Z.of_nat (List.length (started_ids evs)).

(** *** The lines of a log file *)

(** The lines [GET /api/logs/:logFile] hands over for a file content. *)
Definition content_lines (content : string) : list string :=
  List.filter (fun line => negb (String.eqb (trim line) ""))
    (split_on "010"%char (trim content)).

(** A text that starts with a visible ASCII character, from [!] to [~]:
    not with white space of any kind, which [trim] strips, nor with a
    byte of a longer character. *)
Definition starts_solid (s : string) : bool :=
  match s with
  | String c _ =>
      let n := N_of_ascii c in ((33 <=? n) && (n <=? 126))%N
  | "" => false
  end.

(** One line of text that starts and ends with a visible ASCII character;
    [trim] leaves it as it is. *)
Definition solid (b : string) : Prop :=
  has_char "010"%char b = false /\
  starts_solid b = true /\
  starts_solid (reverse_string b "") = true.

(** A file content made of the given lines, each ended by a line feed. *)
Definition entries (bs : list string) : string :=
  String.concat "" (List.map (fun b => b ++ String "010"%char "") bs).

(** A log directory with one file of two records. *)
Definition disk_with_records : Fs.t :=
  disk_of (<[ "/tmp/logs/a.log" :=
                Fs.File (entries ["{1}"; "{22}"]) sample_times ]>
             {[ "/tmp/logs" := Fs.Dir 4096 sample_times ]}).

(** *** The routes that only read, and the logger without its directory *)

Definition is_get (r : Request) : bool :=
  match r with
  | ReqStats | ReqLogs | ReqLogRead _ => true
  | _ => false
  end.

(** What [logToFile] returns when the log directory is not there. *)
Definition reported_without_directory (v : Variant) : bool :=
  match v with
  | IndexJs => false
  | ServerJs => true
  end.

(** *** The list of logs *)

(** Newest first. *)
Fixpoint sorted_desc (l : list LogInfo) : Prop :=
  match l with
  | [] => True
  | x :: r =>
      (forall y, In y r -> l_lastModified y <= l_lastModified x) /\
      sorted_desc r
  end.

(** The description of a directory entry. *)
Definition info_of (name : string) (n : Fs.Node) : LogInfo :=
  {| l_name := name;
     l_sizeBytes := Fs.st_size (Fs.stat_of n);
     l_lastModified := Fs.st_mtime (Fs.stat_of n);
     l_created := Fs.st_birthtime (Fs.stat_of n) |}.

(** A log directory with two logs, a backup and a file that is no log. *)
Definition disk_with_two_logs : Fs.t :=
  disk_of (<[ "/tmp/logs/DETECTION_1970-01-01.log" :=
                Fs.File "12345" {| Fs.mtime := 500; Fs.birthtime := 100 |} ]>
          (<[ "/tmp/logs/SESSION_START_1970-01-02.log" :=
                Fs.File "123" {| Fs.mtime := 86400900; Fs.birthtime := 86400100 |} ]>
          (<[ "/tmp/logs/SESSION_START_1970-01-01_1000.log.backup" :=
                Fs.File "1" {| Fs.mtime := 700; Fs.birthtime := 100 |} ]>
          (<[ "/tmp/logs/notes.txt" :=
                Fs.File "12" {| Fs.mtime := 800; Fs.birthtime := 100 |} ]>
             {[ "/tmp/logs" := Fs.Dir 4096 sample_times ]})))).

(** *** What the clean-up removes *)

(** An entry that the clean-up removes: a regular file last modified
    before the cut-off. *)
Definition purgeable (c : Z) (n : Fs.Node) : bool :=
  match n with
  | Fs.File _ tm => Fs.mtime tm <? c
  | Fs.Dir _ _ => false
  end.

(** Whether a path names an entry directly below a directory. *)
Definition is_child (dir p : string) : bool :=
  match Fs.child_name dir p with
  | Some _ => true
  | None => false
  end.

(** The entries a clean-up with cut-off [c] removes from a tree. *)
Definition purged (dir : string) (c : Z) (kn : string * Fs.Node) : bool :=
  is_child dir (fst kn) && purgeable c (snd kn).

(** *** Counts sent as text *)

(** Whether a text goes on with a character that [parseInt] would read as
    part of a number after decimal digits: a digit, or the [x] of a hex
    prefix. *)
Definition continues_number (s : string) : bool :=
  match s with
  | String c _ =>
      match digit_value 10 c with
      | Some _ => true
      | None => Ascii.eqb c "x" || Ascii.eqb c "X"
      end
  | "" => false
  end.

(** *** Numbers in the exact range *)

(** [Number.isSafeInteger]: the integers that a JavaScript number holds
    exactly, with exact sums and exact decimal text. *)
Definition safe_integer (z : Z) : Prop := Z.abs z < 2 ^ 53.

(** A number that is an integer of magnitude at most [B]. *)
Definition bounded (B : Z) (n : JsNum) : Prop :=
  match n with
  | Num z => Z.abs z <= B
  | NaN => False
  end.

Definition COUNT_LIMIT : Z := 2 ^ 30.

(** A count that is no text, or a text that goes on with an ASCII
    character after its leading ASCII white space, or holds nothing else:
    [parseInt] skips the white space of every script, [skip_white_space]
    the ASCII ones, and on these texts the two agree. *)
Definition ascii_led (c : JsVal) : bool :=
  match c with
  | JStr s =>
      match skip_white_space s with
      | String ch _ => (N_of_ascii ch <? 128)%N
      | "" => true
      end
  | _ => true
  end.

(** A count that [parseInt] does not read, or reads as an integer of
    magnitude at most 2^30. *)
Definition small_count (c : JsVal) : Prop :=
  ascii_led c = true /\
  forall n, parseInt (default_to (JNum 0) c) = Num n -> Z.abs n <= COUNT_LIMIT.

Definition small_request (r : Request) : Prop :=
  match r with
  | ReqDetection b => small_count (b_faceCount b) /\ small_count (b_objectCount b)
  | _ => True
  end.

(** Every detection counter is an integer of magnitude at most [B]
    ([totalDetections], which takes two counts per report: at most
    [2 * B]). *)
Definition within (B : Z) (st : Stats) : Prop :=
  bounded B (totalFaceDetections st) /\
  bounded (2 * B) (totalDetections st) /\
  List.Forall (fun e => bounded B (faceDetections (snd e)) /\
                        bounded B (objectDetections (snd e))) (sessions st).

(** *** Paths next to the log root *)

(** A path outside [root] whose text begins with the text of [root], as
    [/tmp/logs-old/a.log] for the root [/tmp/logs]. *)
Definition prefix_sibling (root p : string) : bool :=
  startsWith p root && negb (inside root p).

(* ================================================================= *)
(** ** The older server draft (first file of [src/unnamed/part_000])

    The draft keeps its sessions in an array, looks a session up with
    [find], goes on when there is none, adds the counts of a body as they
    come, without [parseInt], and writes its log lines in a form of its
    own.  Its logger and its three session routes are embedded. *)
Module Draft.

(** The primitive values of the draft's arithmetic: those of a body, and
    the not-a-number value among the numbers. *)
Inductive Value : Type :=
| VUndefined
| VNull
| VBool (b : bool)
| VNumber (n : JsNum)
| VString (s : string).

Definition of_body (v : JsVal) : Value :=
  match v with
  | JUndefined => VUndefined
  | JNull => VNull
  | JBool b => VBool b
  | JNum z => VNumber (Num z)
  | JStr s => VString s
  end.

Definition truthy (v : Value) : bool :=
  match v with
  | VUndefined | VNull => false
  | VBool b => b
  | VNumber (Num z) => negb (z =? 0)
  | VNumber NaN => false
  | VString s => negb (String.eqb s "")
  end.

(** [a || b] *)
Definition js_or (a b : Value) : Value := if truthy a then a else b.

Definition zero : Value := VNumber (Num 0).

(** [ToString] *)
Definition text (v : Value) : string :=
  match v with
  | VUndefined => "undefined"
  | VNull => "null"
  | VBool true => "true"
  | VBool false => "false"
  | VNumber (Num z) => Number_toString z
  | VNumber NaN => "NaN"
  | VString s => s
  end.

(** [ToNumber] of a value that is not a text. *)
Definition numeric (v : Value) : option JsNum :=
  match v with
  | VUndefined => Some NaN
  | VNull => Some (Num 0)
  | VBool true => Some (Num 1)
  | VBool false => Some (Num 0)
  | VNumber n => Some n
  | VString _ => None
  end.

(** [a + b]: a sum of numbers, or, when either side is a text, the two
    texts one after the other. *)
Definition plus (a b : Value) : Value :=
  match numeric a, numeric b with
  | Some x, Some y => VNumber (add x y)
  | _, _ => VString (text a ++ text b)
  end.

Definition to_json (v : Value) : Json.t :=
  match v with
  | VUndefined => Json.Val JUndefined
  | VNull => Json.Val JNull
  | VBool b => Json.Val (JBool b)
  | VNumber n => Json.of_JsNum n
  | VString s => Json.str s
  end.

Record Session : Type := {
  sessionId : string;
  startTime : Z;
  userAgent : option string;
  ip : option string;
  faceDetections : Value;
  objectDetections : Value;
  interactions : Z;
  filters : list JsVal;
  endTime : option Z;
  duration : option Z
}.

Record Stats : Type := {
  totalSessions : Z;
  totalDetections : Value;
  totalFaceDetections : Value;
  totalInteractions : Z;
  (** the array of sessions, in the order they were pushed *)
  sessions : list Session;
  lastUpdated : Z
}.

Record World : Type := {
  stats : Stats;
  fs : Fs.t
}.

(** The data of an answer; [message] and [timestamp] are left out. *)
Inductive Payload : Type :=
| PError (error : string)
| PSessionStart (sessionId : string)
| PDetection (totalDetectionsInSession : Value)
| PInteraction (totalInteractionsInSession : Z)
| PSessionEnd (face object : Value) (inter dur : Z).

(** [success] tells whether the answer carries [success: true]; the 400
    of the draft has no such field. *)
Record Response : Type := {
  status : Z;
  success : bool;
  payload : Payload
}.

Definition logsDir (env : Env) : string := Path.join (cwd env) "logs".

Definition logEntry (now : Z) (data : Json.t) : string :=
  "[" ++ JsDate.toISOString now ++ "] " ++
  match Json.stringify data with
  | Some t => t
  | None => "undefined"
  end ++ String "010"%char "".

Definition logToFile (env : Env) (now : Z) (eventType : string)
    (data : Json.t) : Fs.M unit :=
  Fs.try_catch
    (Fs.appendFileSync now
       (Path.join (logsDir env) (logFileName eventType now))
       (logEntry now data))
    (fun _ => Fs.ret tt).

Definition log (env : Env) (now : Z) (eventType : string) (data : Json.t)
    (w : World) : World :=
  {| stats := stats w; fs := snd (logToFile env now eventType data (fs w)) |}.

(** [stats.sessions.find(s => s.sessionId === sessionId)] *)
Definition find_session (key : JsVal) (l : list Session) : option Session :=
  match key with
  | JStr k => List.find (fun s => String.eqb (sessionId s) k) l
  | _ => None
  end.

(** The array after the session that [find] returns has been changed in
    place. *)
Fixpoint update_first (k : string) (f : Session -> Session)
    (l : list Session) : list Session :=
  match l with
  | [] => []
  | s :: r =>
      if String.eqb (sessionId s) k then f s :: r
      else s :: update_first k f r
  end.

Definition update (key : JsVal) (f : Session -> Session)
    (l : list Session) : list Session :=
  match key with
  | JStr k => update_first k f l
  | _ => l
  end.

Definition bad_request : Response :=
  {| status := 400; success := false;
     payload := PError "sessionId es requerido" |}.

Definition ok (p : Payload) : Response :=
  {| status := 200; success := true; payload := p |}.

(** [POST /api/detection/record] *)
Definition recordDetection (env : Env) (now : Z) (b : Body) (w : World)
  : Response * World :=
  if negb (ToBoolean (b_sessionId b)) then (bad_request, w)
  else
    let st := stats w in
    let face := js_or (of_body (b_faceCount b)) zero in
    let object := js_or (of_body (b_objectCount b)) zero in
    let change s :=
      {| sessionId := sessionId s; startTime := startTime s;
         userAgent := userAgent s; ip := ip s;
         faceDetections := plus (faceDetections s) face;
         objectDetections := plus (objectDetections s) object;
         interactions := interactions s; filters := filters s;
         endTime := endTime s; duration := duration s |} in
    let session := find_session (b_sessionId b) (sessions st) in
    let st' :=
      match session with
      | Some _ =>
          {| totalSessions := totalSessions st;
             totalDetections := plus (totalDetections st) (plus face object);
             totalFaceDetections := plus (totalFaceDetections st) face;
             totalInteractions := totalInteractions st;
             sessions := update (b_sessionId b) change (sessions st);
             lastUpdated := now |}
      | None => st
      end in
    let w' :=
      log env now "DETECTION_RECORD"
        (Json.Obj
           [("sessionId", Json.Val (b_sessionId b));
            ("timestamp", Json.str (JsDate.toISOString now));
            ("faceCount", Json.Val (b_faceCount b));
            ("objectCount", Json.Val (b_objectCount b));
            ("confidenceLevel", Json.Val (b_confidenceLevel b));
            ("detectionType", Json.Val (b_detectionType b))])
        {| stats := st'; fs := fs w |} in
    (ok (PDetection
           match session with
           | Some s => js_or (objectDetections (change s)) zero
           | None => zero
           end),
     w').

(** [POST /api/interaction/record] *)
Definition recordInteraction (env : Env) (now : Z) (b : Body) (w : World)
  : Response * World :=
  if negb (ToBoolean (b_sessionId b)) then (bad_request, w)
  else
    let st := stats w in
    let change s :=
      {| sessionId := sessionId s; startTime := startTime s;
         userAgent := userAgent s; ip := ip s;
         faceDetections := faceDetections s;
         objectDetections := objectDetections s;
         interactions := interactions s + 1;
         filters :=
           if JsVal_eqb (b_widgetName b) (JStr "filterSelect") &&
              negb (includes (filters s) (b_value b))
           then filters s ++ [b_value b]
           else filters s;
         endTime := endTime s; duration := duration s |} in
    let session := find_session (b_sessionId b) (sessions st) in
    let st' :=
      match session with
      | Some _ =>
          {| totalSessions := totalSessions st;
             totalDetections := totalDetections st;
             totalFaceDetections := totalFaceDetections st;
             totalInteractions := totalInteractions st + 1;
             sessions := update (b_sessionId b) change (sessions st);
             lastUpdated := now |}
      | None => st
      end in
    let w' :=
      log env now "INTERACTION_RECORD"
        (Json.Obj
           [("sessionId", Json.Val (b_sessionId b));
            ("timestamp", Json.str (JsDate.toISOString now));
            ("widgetName", Json.Val (b_widgetName b));
            ("action", Json.Val (b_action b));
            ("value", Json.Val (b_value b))])
        {| stats := st'; fs := fs w |} in
    (ok (PInteraction
           match session with
           | Some s => interactions (change s)
           | None => 0
           end),
     w').

(** [POST /api/session/end] *)
Definition endSession (env : Env) (now : Z) (b : Body) (w : World)
  : Response * World :=
  if negb (ToBoolean (b_sessionId b)) then (bad_request, w)
  else
    let st := stats w in
    let change s :=
      {| sessionId := sessionId s; startTime := startTime s;
         userAgent := userAgent s; ip := ip s;
         faceDetections := faceDetections s;
         objectDetections := objectDetections s;
         interactions := interactions s; filters := filters s;
         endTime := Some now;
         duration := Some (round_div (now - startTime s) 1000) |} in
    let session := find_session (b_sessionId b) (sessions st) in
    let st' :=
      match session with
      | Some _ =>
          {| totalSessions := totalSessions st;
             totalDetections := totalDetections st;
             totalFaceDetections := totalFaceDetections st;
             totalInteractions := totalInteractions st;
             sessions := update (b_sessionId b) change (sessions st);
             lastUpdated := now |}
      | None => st
      end in
    let dur :=
      match session with
      | Some s => round_div (now - startTime s) 1000
      | None => 0
      end in
    let face :=
      match session with
      | Some s => js_or (faceDetections s) zero
      | None => zero
      end in
    let object :=
      match session with
      | Some s => js_or (objectDetections s) zero
      | None => zero
      end in
    let inter :=
      match session with
      | Some s => interactions s
      | None => 0
      end in
    let w' :=
      log env now "SESSION_END"
        (Json.Obj
           [("sessionId", Json.Val (b_sessionId b));
            ("timestamp", Json.str (JsDate.toISOString now));
            ("duration", Json.num dur);
            ("stats",
             Json.Obj
               [("faceDetections", to_json face);
                ("objectDetections", to_json object);
                ("interactions", Json.num inter)])])
        {| stats := st'; fs := fs w |} in
    (ok (PSessionEnd face object inter dur), w').

Definition route (k : SessionRoute)
  : Env -> Z -> Body -> World -> Response * World :=
  match k with
  | Detection => recordDetection
  | Interaction => recordInteraction
  | End => endSession
  end.

(** A header or property that may be absent, as a JSON value. *)
Definition optional (o : option string) : Json.t :=
  match o with
  | Some x => Json.str x
  | None => Json.Val JUndefined
  end.

(** [POST /api/session/start] *)
Definition startSession (env : Env) (now : Z) (c : Client) (w : World)
  : Response * World :=
  let id := newSessionId now c in
  let sessionData :=
    {| sessionId := id; startTime := now;
       userAgent := userAgentHeader c;
       ip := match reqIp c with
             | Some x => if String.eqb x "" then remoteAddress c else Some x
             | None => remoteAddress c
             end;
       faceDetections := zero; objectDetections := zero; interactions := 0;
       filters := []; endTime := None; duration := None |} in
  let st := stats w in
  let st' :=
    {| totalSessions := totalSessions st + 1;
       totalDetections := totalDetections st;
       totalFaceDetections := totalFaceDetections st;
       totalInteractions := totalInteractions st;
       sessions := (sessions st ++ [sessionData])%list;
       lastUpdated := now |} in
  let w' :=
    log env now "SESSION_START"
      (Json.Obj [("sessionId", Json.str id);
                 ("timestamp", Json.str (JsDate.toISOString now));
                 ("ip", optional (reqIp c));
                 ("userAgent", optional (userAgentHeader c))])
      {| stats := st'; fs := fs w |} in
  (ok (PSessionStart id), w').

Inductive Request : Type :=
| ReqStart (c : Client)
| ReqSession (k : SessionRoute) (b : Body).

Definition handle (env : Env) (now : Z) (r : Request) (w : World)
  : Response * World :=
  match r with
  | ReqStart c => startSession env now c w
  | ReqSession k b => route k env now b w
  end.

(** The process after a list of requests, each with the clock reading at
    which it is served. *)
Definition run (env : Env) (evs : list (Z * Request)) (w : World) : World :=
  fold_left (fun w ev => snd (handle env (fst ev) (snd ev) w)) evs w.

Definition initial_world (t0 : Z) (disk : Fs.t) : World :=
  {| stats :=
       {| totalSessions := 0; totalDetections := zero;
          totalFaceDetections := zero; totalInteractions := 0;
          sessions := []; lastUpdated := t0 |};
     fs := disk |}.

End Draft.

(* ================================================================= *)
(** ** The cut-down serverless variant (second file of
    [src/unnamed/part_000])

    Its three session routes are registered behind one middleware,
    [validateSession], which answers for them when the body names no
    session of the store.  The middleware is embedded, for a request that
    the rate limiter in front of it lets through; what the routes do behind
    it does not matter to it, so the handler, the state of the process and
    the session objects are left open. *)
Module Lite.

Section Routes.

Variables State Session : Type.

(** [stats.sessions], a [Map] with text keys. *)
Variable sessions : State -> list (string * Session).

(** [stats.sessions.has(sessionId)] *)
Definition has (key : JsVal) (st : State) : bool :=
  match key with
  | JStr k => existsb (fun e => String.eqb (fst e) k) (sessions st)
  | _ => false
  end.

Definition validateSession (b : Body) (st : State) : option Response :=
  if negb (ToBoolean (b_sessionId b)) || negb (has (b_sessionId b) st)
  then Some (respond_error 400 "Sesion invalida")
  else None.

(** [app.post(path, validateSession, handler)] *)
Definition guarded (handler : Body -> State -> Response * State)
    (b : Body) (st : State) : Response * State :=
  match validateSession b st with
  | Some r => (r, st)
  | None => handler b st
  end.

End Routes.

End Lite.

(* ================================================================= *)
(** ** A [value] that is an array or an object

    [express.json()] builds the body of every request anew, so a [value]
    that is an array or an object is a new object each time, and
    [includes], which compares objects by identity, finds it in no list.
    The statement of the interaction routes of [api/index.js] and
    [api/server.js] that keeps the filter list is read here over such
    values as well. *)

(** [session.filters.includes(value)], [value] fresh from the parser. *)
Definition includes_parsed (l : list Json.t) (value : Json.t) : bool :=
  match value with
  | Json.Val p =>
      existsb (fun y => match y with
                        | Json.Val q => JsVal_eqb p q
                        | _ => false
                        end) l
  | _ => false
  end.

Definition truthy_parsed (value : Json.t) : bool :=
  match value with
  | Json.Val p => ToBoolean p
  | _ => true
  end.

(** [if (widgetName === 'filterSelect' && value &&
         !session.filters.includes(value)) session.filters.push(value)] *)
Definition filters_after (l : list Json.t) (widgetName value : Json.t)
  : list Json.t :=
  if match widgetName with
     | Json.Val w => JsVal_eqb w (JStr "filterSelect")
     | _ => false
     end && truthy_parsed value && negb (includes_parsed l value)
  then (l ++ [value])%list
  else l.

(* ================================================================= *)
(** ** Sample data and claims for the draft and the variant *)

(** The draft started at the epoch, one session opened one second later. *)
Definition draft_open : Draft.World :=
  Draft.run sample_env [(1000, Draft.ReqStart sample_client)]
    (Draft.initial_world 0 sample_disk).

(** A disk with the log directory of the draft. *)
Definition draft_disk : Fs.t :=
  disk_of {[ "/srv/app/logs" := Fs.Dir 4096 sample_times ]}.

(** The content of a file, or the empty text. *)
Definition content_of (disk : Fs.t) (p : string) : string :=
  match Fs.nodes disk !! p with
  | Some (Fs.File c _) => c
  | _ => ""
  end.

(** C2 as it is worded, read on the draft: a [sessionId] that the store
    does not hold is answered 404, and not with a success. *)
Definition claim_draft_unknown_session_is_error : Prop :=
  forall k env now b w,
    ToBoolean (b_sessionId b) = true ->
    Draft.find_session (b_sessionId b) (Draft.sessions (Draft.stats w))
    = None ->
    Draft.status (fst (Draft.route k env now b w)) = 404 /\
    Draft.success (fst (Draft.route k env now b w)) = false.

(** C2 as it is worded, read on the variant: a [sessionId] that the store
    does not hold is answered 404. *)
Definition claim_lite_unknown_session_is_404 : Prop :=
  forall (State Session : Type) (sessions : State -> list (string * Session))
         (handler : Body -> State -> Response * State) b st,
    ToBoolean (b_sessionId b) = true ->
    Lite.has State Session sessions (b_sessionId b) st = false ->
    status (fst (Lite.guarded State Session sessions handler b st)) = 404.

(** C5 as it is worded, read on the draft: when an interaction appends
    [value] to the filter list, [widgetName] is ["filterSelect"], [value] is
    not empty and [value] was not in the list. *)
Definition claim_draft_appends_nonempty_only : Prop :=
  forall env now b w s s',
    Draft.find_session (b_sessionId b) (Draft.sessions (Draft.stats w))
    = Some s ->
    Draft.find_session (b_sessionId b)
      (Draft.sessions (Draft.stats (snd (Draft.recordInteraction env now b w))))
    = Some s' ->
    Draft.filters s' = (Draft.filters s ++ [b_value b])%list ->
    b_widgetName b = JStr "filterSelect" /\
    ToBoolean (b_value b) = true /\
    ~ In (b_value b) (Draft.filters s).

(** The filter lists of the draft's sessions hold no value twice. *)
Definition draft_ok (w : Draft.World) : Prop :=
  List.Forall (fun s => List.NoDup (Draft.filters s))
    (Draft.sessions (Draft.stats w)).
(* ================================================================= *)
(** * Properties *)

(** ** Numbers and their decimal text *)

Lemma digit_value_digit_char (d : N) :
  (d < 10)%N -> digit_value 10 (digit_char d) = Some d.
Proof.
  intros H.
  assert (Hd : In d [0; 1; 2; 3; 4; 5; 6; 7; 8; 9]%N).
  { destruct d as [|p]; [now left|].
    do 10 (destruct p as [p|p|]; try lia; simpl; auto 12). }
  simpl in Hd.
  repeat (destruct Hd as [<- | Hd]; [reflexivity|]).
  contradiction.
Qed.

Lemma all_digits_app (a b : string) :
  all_digits (a ++ b) = all_digits a && all_digits b.
Proof.
  induction a as [|c a IH]; simpl; [reflexivity|].
  destruct (digit_value 10 c); [exact IH | reflexivity].
Qed.

Lemma parse_digits_app (a b : string) (acc : option N) :
  all_digits a = true ->
  parse_digits 10 (a ++ b) acc = parse_digits 10 b (parse_digits 10 a acc).
Proof.
  revert acc.
  induction a as [|c a IH]; simpl; intros acc Ha; [reflexivity|].
  destruct (digit_value 10 c); [now apply IH | discriminate].
Qed.

Lemma decimal_digits_S (f : nat) (n : N) :
  decimal_digits (S f) n =
  if (n <? 10)%N then String (digit_char n) ""
  else decimal_digits f (n / 10)%N ++ String (digit_char (n mod 10)%N) "".
Proof. reflexivity. Qed.

Lemma decimal_digits_spec (fuel : nat) (n : N) :
  (n < 2 ^ N.of_nat fuel)%N ->
  all_digits (decimal_digits (S fuel) n) = true /\
  parse_digits 10 (decimal_digits (S fuel) n) None = Some n.
Proof.
  revert n.
  induction fuel as [|f IH]; intros n Hn.
  - assert (n = 0%N) by (simpl in Hn; lia). subst n. split; reflexivity.
  - rewrite decimal_digits_S.
    destruct (N.ltb_spec n 10) as [Hlt | Hge].
    + cbn [all_digits parse_digits].
      rewrite (digit_value_digit_char n Hlt). split; reflexivity.
    + assert (Hq : (n / 10 < 2 ^ N.of_nat f)%N).
      { rewrite Nat2N.inj_succ, N.pow_succ_r' in Hn.
        apply N.Div0.div_lt_upper_bound. lia. }
      destruct (IH _ Hq) as [Hd Hp].
      assert (Hm : (n mod 10 < 10)%N) by (apply N.mod_lt; lia).
      split.
      * rewrite all_digits_app, Hd. cbn [all_digits].
        now rewrite (digit_value_digit_char _ Hm).
      * rewrite parse_digits_app by exact Hd. rewrite Hp.
        cbn [parse_digits]. rewrite (digit_value_digit_char _ Hm).
        f_equal. rewrite (N.div_mod' n 10) at 3. lia.
Qed.

Lemma N_toString_spec (n : N) :
  all_digits (N_toString n) = true /\
  parse_digits 10 (N_toString n) None = Some n.
Proof.
  apply decimal_digits_spec. rewrite N2Nat.id. apply N.size_gt.
Qed.

Lemma digit_not_special (c : ascii) (d : N) :
  digit_value 10 c = Some d ->
  is_white_space c = false /\
  (forall s, strip_sign (String c s) = (1, String c s)) /\
  c <> "x"%char /\ c <> "X"%char.
Proof.
  destruct c as [[] [] [] [] [] [] [] []]; vm_compute; intros H;
    try discriminate H; repeat split; intros; discriminate.
Qed.

Lemma strip_hex_prefix_digits (s : string) :
  all_digits s = true -> strip_hex_prefix s = (10%N, s).
Proof.
  destruct s as [|c [|c2 s]]; [reflexivity| |].
  - intros _. destruct c as [[] [] [] [] [] [] [] []]; reflexivity.
  - cbn [all_digits]. destruct (digit_value 10 c) eqn:Hc; [|discriminate].
    destruct (digit_value 10 c2) eqn:Hc2; [|discriminate]. intros _.
    destruct (digit_not_special _ _ Hc2) as (_ & _ & Hx & HX).
    destruct c as [[] [] [] [] [] [] [] []]; try reflexivity.
    destruct c2 as [[] [] [] [] [] [] [] []]; try reflexivity; congruence.
Qed.

Lemma parseInt_digits (s : string) (n : N) :
  all_digits s = true ->
  parse_digits 10 s None = Some n ->
  parseInt_string s = Num (Z.of_N n) /\
  parseInt_string (String "-" s) = Num (- Z.of_N n).
Proof.
  intros Hd Hp.
  destruct s as [|c s]; [discriminate Hp|].
  pose proof Hd as Hd'. cbn [all_digits] in Hd'.
  destruct (digit_value 10 c) eqn:Hc; [|discriminate].
  destruct (digit_not_special _ _ Hc) as (Hw & Hs & _).
  unfold parseInt_string. split.
  - cbn [skip_white_space]. rewrite Hw, Hs, (strip_hex_prefix_digits _ Hd), Hp.
    f_equal; lia.
  - change (skip_white_space (String "-" (String c s))) with (String "-" (String c s)).
    change (strip_sign (String "-" (String c s))) with (-1, String c s).
    cbv iota beta. rewrite (strip_hex_prefix_digits _ Hd), Hp. f_equal; lia.
Qed.

(** [parseInt] gives an integer-valued number back. *)
Lemma parseInt_JNum (z : Z) : parseInt (JNum z) = Num z.
Proof.
  unfold parseInt, ToString, Number_toString.
  destruct (N_toString_spec (Z.abs_N z)) as [Hd Hp].
  destruct (parseInt_digits _ _ Hd Hp) as [Hpos Hneg].
  destruct (Z.ltb_spec z 0).
  - rewrite Hneg. f_equal. rewrite N2Z.inj_abs_N. lia.
  - rewrite Hpos. f_equal. rewrite N2Z.inj_abs_N. lia.
Qed.

(** ** The session map *)

Lemma smap_get_set_eq (k : string) (s : Session) (m : SessionMap) :
  smap_get k (smap_set k s m) = Some s.
Proof.
  induction m as [|[k' s'] m IH]; simpl.
  - now rewrite String.eqb_refl.
  - destruct (String.eqb k' k) eqn:E; simpl.
    + now rewrite String.eqb_refl.
    + now rewrite E.
Qed.

Lemma smap_get_set_ne (k k' : string) (s : Session) (m : SessionMap) :
  k <> k' -> smap_get k (smap_set k' s m) = smap_get k m.
Proof.
  intros Hne.
  induction m as [|[k0 s0] m IH]; simpl.
  - destruct (String.eqb_spec k' k); [congruence | reflexivity].
  - destruct (String.eqb_spec k0 k'); simpl.
    + subst k0. destruct (String.eqb_spec k' k); [congruence|].
      destruct (String.eqb_spec k' k); [congruence | reflexivity].
    + destruct (String.eqb_spec k0 k); [reflexivity | exact IH].
Qed.

Lemma smap_get_delete_eq (k : string) (m : SessionMap) :
  smap_get k (smap_delete k m) = None.
Proof.
  induction m as [|[k' s'] m IH]; simpl; [reflexivity|].
  destruct (String.eqb k' k) eqn:E; simpl; [exact IH | now rewrite E].
Qed.

Lemma smap_get_delete_ne (k k' : string) (m : SessionMap) :
  k <> k' -> smap_get k (smap_delete k' m) = smap_get k m.
Proof.
  intros Hne.
  induction m as [|[k0 s0] m IH]; simpl; [reflexivity|].
  destruct (String.eqb_spec k0 k'); simpl.
  - subst k0. destruct (String.eqb_spec k' k); [congruence | exact IH].
  - destruct (String.eqb_spec k0 k); [reflexivity | exact IH].
Qed.

Lemma smap_get_In (k : string) (s : Session) (m : SessionMap) :
  smap_get k m = Some s -> In (k, s) m.
Proof.
  induction m as [|[k' s'] m IH]; simpl; [discriminate|].
  destruct (String.eqb_spec k' k).
  - intros [= ->]. subst. now left.
  - intros H. right. now apply IH.
Qed.

(** ** What validation establishes *)

Lemma validateSession_pass (v : Variant) (b : Body) (w : World) :
  validateSession v b w = None ->
  exists k s, b_sessionId b = JStr k /\
              smap_get k (sessions (stats w)) = Some s.
Proof.
  unfold validateSession, Map_has, Map_get.
  destruct (ToBoolean (b_sessionId b)); simpl; [|discriminate].
  destruct (b_sessionId b) as [| | |z|k]; simpl; try discriminate.
  destruct (smap_get k (sessions (stats w))) as [s|] eqn:E; simpl;
    [|discriminate].
  intros _. now exists k, s.
Qed.

Lemma validateSession_present (v : Variant) (b : Body) (w : World) (s : Session) :
  ToBoolean (b_sessionId b) = true ->
  session_of (b_sessionId b) w = Some s ->
  validateSession v b w = None.
Proof.
  unfold validateSession, session_of, Map_has. intros -> ->. reflexivity.
Qed.

(** ** Requests that name no session, in [api/index.js] and [api/server.js] *)

(** For recordDetection, recordInteraction and endSession alike: a body
    without a usable [sessionId] (absent, or any other falsy value) is
    answered 400, a [sessionId] that the store does not hold is answered
    404; either answer has [success = false], and the process is left
    exactly as it was: sessions, global counters, timers and log files. *)
Lemma api_session_errors
    (k : SessionRoute) (v : Variant) (env : Env) (now : Z) (b : Body)
    (w : World) :
  (ToBoolean (b_sessionId b) = false ->
   status (fst (route k v env now b w)) = 400 /\
   success (fst (route k v env now b w)) = false /\
   snd (route k v env now b w) = w) /\
  (ToBoolean (b_sessionId b) = true ->
   session_of (b_sessionId b) w = None ->
   status (fst (route k v env now b w)) = 404 /\
   success (fst (route k v env now b w)) = false /\
   snd (route k v env now b w) = w).
Proof.
  split.
  - intros Hf.
    destruct k; cbn [route];
      unfold recordDetection, recordInteraction, endSession, validateSession;
      rewrite Hf; cbn; auto.
  - intros Ht Hn. unfold session_of in Hn.
    destruct k; cbn [route];
      unfold recordDetection, recordInteraction, endSession, validateSession,
        Map_has;
      rewrite Ht, Hn; cbn; auto.
Qed.

(** ** Effect of the session routes on a session that is present *)

Ltac open_route Hv Hs :=
  let k := fresh "k" in
  let s0 := fresh "s0" in
  let Hk := fresh "Hk" in
  let Hg := fresh "Hg" in
  destruct (validateSession_pass _ _ _ Hv) as (k & s0 & Hk & Hg);
  unfold session_of in *;
  unfold recordDetection, recordInteraction, endSession;
  rewrite Hv, Hs; rewrite Hk in *; cbn [Map_get key_text] in *;
  cbn [fst snd].

Lemma recordDetection_effect (v : Variant) (env : Env) (now : Z) (b : Body)
    (w : World) (s : Session) :
  validateSession v b w = None ->
  session_of (b_sessionId b) w = Some s ->
  let df := detection_delta v (b_faceCount b) in
  let dobj := detection_delta v (b_objectCount b) in
  let w' := snd (recordDetection v env now b w) in
  status (fst (recordDetection v env now b w)) = 200 /\
  (exists s',
     session_of (b_sessionId b) w' = Some s' /\
     faceDetections s' = add (faceDetections s) df /\
     objectDetections s' = add (objectDetections s) dobj /\
     interactions s' = interactions s /\
     filters s' = filters s /\
     endTime s' = endTime s /\
     duration s' = duration s) /\
  totalFaceDetections (stats w') = add (totalFaceDetections (stats w)) df /\
  totalDetections (stats w') = add (totalDetections (stats w)) (add df dobj) /\
  totalSessions (stats w') = totalSessions (stats w) /\
  totalInteractions (stats w') = totalInteractions (stats w).
Proof.
  intros Hv Hs. open_route Hv Hs.
  split; [reflexivity|]. split; [|now cbn].
  eexists. split; [apply smap_get_set_eq | now cbn].
Qed.

Lemma recordInteraction_effect (v : Variant) (env : Env) (now : Z) (b : Body)
    (w : World) (s : Session) :
  validateSession v b w = None ->
  session_of (b_sessionId b) w = Some s ->
  let w' := snd (recordInteraction v env now b w) in
  status (fst (recordInteraction v env now b w)) = 200 /\
  (exists s',
     session_of (b_sessionId b) w' = Some s' /\
     faceDetections s' = faceDetections s /\
     objectDetections s' = objectDetections s /\
     interactions s' = interactions s + 1 /\
     filters s' = (if pushes_filter b s then (filters s ++ [b_value b])%list
                   else filters s) /\
     endTime s' = endTime s /\
     duration s' = duration s) /\
  counters (stats w') =
  (totalSessions (stats w), totalDetections (stats w),
   totalFaceDetections (stats w), totalInteractions (stats w) + 1).
Proof.
  intros Hv Hs. open_route Hv Hs.
  split; [reflexivity|]. split; [|now cbn].
  eexists. split; [apply smap_get_set_eq | now cbn].
Qed.

(** *** C1 *)

(** C1, as amended.  recordDetection and recordInteraction are accepted for
    every session found in the store, whether or not its [endTime] is set:
    the counters and the filter list of a closed session that has not been
    evicted are updated exactly as those of an open one.  The two calls
    leave [endTime] and [duration] as they are. *)
Theorem closed_session_still_mutable
    (v : Variant) (env : Env) (now : Z) (b : Body) (w : World) (s : Session) :
  validateSession v b w = None ->
  session_of (b_sessionId b) w = Some s ->
  (status (fst (recordDetection v env now b w)) = 200 /\
   exists s',
     session_of (b_sessionId b) (snd (recordDetection v env now b w)) = Some s' /\
     faceDetections s' =
       add (faceDetections s) (detection_delta v (b_faceCount b)) /\
     objectDetections s' =
       add (objectDetections s) (detection_delta v (b_objectCount b)) /\
     endTime s' = endTime s /\ duration s' = duration s) /\
  (status (fst (recordInteraction v env now b w)) = 200 /\
   exists s',
     session_of (b_sessionId b) (snd (recordInteraction v env now b w)) = Some s' /\
     interactions s' = interactions s + 1 /\
     filters s' = (if pushes_filter b s then (filters s ++ [b_value b])%list
                   else filters s) /\
     endTime s' = endTime s /\ duration s' = duration s).
Proof.
  intros Hv Hs. split.
  - destruct (recordDetection_effect v env now b w s Hv Hs)
      as (H200 & (s' & H1 & H2 & H3 & _ & _ & H6 & H7) & _).
    split; [exact H200|]. exists s'. auto.
  - destruct (recordInteraction_effect v env now b w s Hv Hs)
      as (H200 & (s' & H1 & _ & _ & H4 & H5 & H6 & H7) & _).
    split; [exact H200|]. exists s'. auto.
Qed.

Lemma closed_session_still_mutable_witness :
  exists s',
    session_of (JStr sample_id)
      (snd (recordDetection IndexJs sample_env 13000
              (detection_body (JStr sample_id) (JNum 2) (JNum 1))
              (world_closed IndexJs))) = Some s' /\
    faceDetections s' = Num 2 /\ objectDetections s' = Num 1 /\
    endTime s' = Some 12000.
Proof.
  destruct (closed_session_still_mutable IndexJs sample_env 13000
              (detection_body (JStr sample_id) (JNum 2) (JNum 1))
              (world_closed IndexJs)
              (sample_session (world_closed IndexJs)))
    as [[_ (s' & H1 & H2 & H3 & H4 & _)] _].
  - vm_compute. reflexivity.
  - vm_compute. reflexivity.
  - exists s'. repeat split; [exact H1 | exact H2 | exact H3 | exact H4].
Defined.

(** C1, as worded, fails: a session closed at 12 s still takes a detection
    report at 13 s. *)
Lemma closed_session_read_only_fails : ~ claim_closed_sessions_read_only.
Proof.
  intros H.
  destruct (H Detection IndexJs sample_env 13000
              (detection_body (JStr sample_id) (JNum 2) (JNum 1))
              (world_closed IndexJs)
              (sample_session (world_closed IndexJs)))
    as (s' & H1 & H2 & _).
  - discriminate.
  - vm_compute. reflexivity.
  - vm_compute. discriminate.
  - vm_compute in H1. injection H1 as <-. vm_compute in H2. discriminate H2.
Qed.

(** *** C3 *)

Lemma detection_delta_JNum (v : Variant) (n : Z) :
  detection_delta v (JNum n) = Num n.
Proof.
  unfold detection_delta. cbn [default_to]. rewrite parseInt_JNum.
  destruct v; reflexivity.
Qed.

(** C3, as amended.  For a recordDetection call on a session that is
    present, the numbers added to the session's [faceDetections] and
    [objectDetections] and to the global [totalFaceDetections] and
    [totalDetections] are what [parseInt] reads from [faceCount] and
    [objectCount]: 0 for an absent field and, for an integer in the range
    that JavaScript numbers hold exactly (magnitude below 2^53), the
    integer itself, negative ones included; so a counter that is and
    stays in that range decreases by a negative input and does not
    decrease by a non-negative one.  In [api/index.js] an input that
    [parseInt] cannot read counts as 0, and the number added is never
    [NaN]. *)
Theorem detection_adds_parsed_counts
    (v : Variant) (env : Env) (now : Z) (b : Body) (w : World) (s : Session) :
  validateSession v b w = None ->
  session_of (b_sessionId b) w = Some s ->
  let df := detection_delta v (b_faceCount b) in
  let dobj := detection_delta v (b_objectCount b) in
  let w' := snd (recordDetection v env now b w) in
  (exists s',
     session_of (b_sessionId b) w' = Some s' /\
     faceDetections s' = add (faceDetections s) df /\
     objectDetections s' = add (objectDetections s) dobj) /\
  totalFaceDetections (stats w') = add (totalFaceDetections (stats w)) df /\
  totalDetections (stats w') = add (totalDetections (stats w)) (add df dobj) /\
  (forall c,
     (c = JUndefined -> detection_delta v c = Num 0) /\
     (forall n, safe_integer n -> c = JNum n -> detection_delta v c = Num n) /\
     (forall n a,
        safe_integer n -> safe_integer a -> safe_integer (a + n) ->
        c = JNum n ->
        add (Num a) (detection_delta v c) = Num (a + n) /\
        (n < 0 -> a + n < a) /\ (0 <= n -> a <= a + n)) /\
     (forall z, parseInt (default_to (JNum 0) c) = Num z ->
        detection_delta v c = Num z) /\
     (v = IndexJs -> parseInt c = NaN -> detection_delta v c = Num 0) /\
     (v = IndexJs -> detection_delta v c <> NaN)).
Proof.
  intros Hv Hs df dobj w'.
  destruct (recordDetection_effect v env now b w s Hv Hs)
    as (_ & (s' & H1 & H2 & H3 & _) & H4 & H5 & _).
  split; [exists s'; auto|]. split; [exact H4|]. split; [exact H5|].
  intros c. split; [|split; [|split; [|split; [|split]]]].
  - intros ->. destruct v; reflexivity.
  - intros n _ ->. apply detection_delta_JNum.
  - intros n a _ _ _ ->. rewrite detection_delta_JNum.
    split; [reflexivity | lia].
  - intros z Hz. unfold detection_delta. rewrite Hz. destruct v; reflexivity.
  - intros -> Hn. unfold detection_delta.
    destruct c; cbn [default_to] in *; try (rewrite Hn; reflexivity).
    reflexivity.
  - intros ->. unfold detection_delta.
    destruct (parseInt (default_to (JNum 0) c)) as [z|]; cbn; discriminate.
Qed.

Lemma detection_adds_parsed_counts_witness :
  exists s',
    session_of (JStr sample_id)
      (snd (recordDetection IndexJs sample_env 2000
              (detection_body (JStr sample_id) (JNum 2) (JStr "3 cats"))
              (world_open IndexJs))) = Some s' /\
    faceDetections s' = Num 2 /\ objectDetections s' = Num 3.
Proof.
  destruct (detection_adds_parsed_counts IndexJs sample_env 2000
              (detection_body (JStr sample_id) (JNum 2) (JStr "3 cats"))
              (world_open IndexJs)
              (sample_session (world_open IndexJs)))
    as [(s' & H1 & H2 & H3) _].
  - vm_compute. reflexivity.
  - vm_compute. reflexivity.
  - exists s'. repeat split; [exact H1 | exact H2 | exact H3].
Defined.

(** C3, as worded, fails: a [faceCount] of -5 is added as -5. *)
Lemma detection_deltas_nonnegative_fails :
  ~ claim_detection_deltas_nonnegative.
Proof.
  intros H.
  destruct (H IndexJs sample_env 2000
              (detection_body (JStr sample_id) (JNum (-5)) (JNum 0))
              (world_open IndexJs)
              (sample_session (world_open IndexJs)))
    as (df & dobj & s' & Hdf & _ & H1 & H2 & _).
  - vm_compute. reflexivity.
  - vm_compute. reflexivity.
  - vm_compute in H1. injection H1 as <-.
    cbn in H2. injection H2 as H2. lia.
Qed.

(** ** Invariants along a run *)

Lemma JsVal_eqb_eq (a b : JsVal) : JsVal_eqb a b = true <-> a = b.
Proof.
  destruct a, b; simpl; split; try congruence; try discriminate.
  - intros H. apply Bool.eqb_prop in H. now subst.
  - intros [= ->]. apply Bool.eqb_reflx.
  - intros H. apply Z.eqb_eq in H. now subst.
  - intros [= ->]. apply Z.eqb_refl.
  - intros H. apply String.eqb_eq in H. now subst.
  - intros [= ->]. apply String.eqb_refl.
Qed.

Lemma includes_In (l : list JsVal) (x : JsVal) :
  includes l x = true <-> In x l.
Proof.
  unfold includes. rewrite existsb_exists. split.
  - intros (y & Hy & E). apply JsVal_eqb_eq in E. now subst.
  - intros H. exists x. split; [exact H | now apply JsVal_eqb_eq].
Qed.

Lemma NoDup_snoc {A} (l : list A) (x : A) :
  List.NoDup l -> ~ In x l -> List.NoDup (l ++ [x])%list.
Proof.
  induction 1 as [|y l Hy Hl IH]; simpl; intros Hx.
  - constructor; [intros [] | constructor].
  - constructor.
    + rewrite in_app_iff. simpl. intros [H | [H | []]]; [tauto | subst; tauto].
    + apply IH. tauto.
Qed.

Lemma pushes_filter_spec (b : Body) (s : Session) :
  pushes_filter b s = true <->
  b_widgetName b = JStr "filterSelect" /\
  ToBoolean (b_value b) = true /\
  ~ In (b_value b) (filters s).
Proof.
  unfold pushes_filter.
  rewrite !andb_true_iff, negb_true_iff, JsVal_eqb_eq.
  rewrite <- includes_In, not_true_iff_false. tauto.
Qed.

Lemma Forall_smap_set (P : string * Session -> Prop) k s m :
  P (k, s) -> Forall P m -> Forall P (smap_set k s m).
Proof.
  intros Hs. induction 1 as [|[k' s'] m Hx Hm IH]; simpl.
  - constructor; [exact Hs | constructor].
  - destruct (String.eqb k' k); constructor; auto.
Qed.

Lemma Forall_smap_delete (P : string * Session -> Prop) k m :
  Forall P m -> Forall P (smap_delete k m).
Proof.
  unfold smap_delete. induction 1 as [|e m Hx Hm IH]; simpl; [constructor|].
  destruct (negb (String.eqb (fst e) k)); [constructor|]; auto.
Qed.

Lemma sessions_ok_get (w : World) (key : JsVal) (s : Session) :
  sessions_ok w -> session_of key w = Some s -> session_ok s.
Proof.
  unfold sessions_ok, session_of, Map_get. intros Hok Hg.
  destruct key; try discriminate.
  apply smap_get_In in Hg. rewrite List.Forall_forall in Hok.
  exact (Hok _ Hg).
Qed.

Lemma sessions_ok_fs (w : World) (f : Fs.t) :
  sessions_ok (with_fs f w) <-> sessions_ok w.
Proof. reflexivity. Qed.

Lemma route_preserves_ok (k : SessionRoute) v env now b w :
  sessions_ok w -> sessions_ok (snd (route k v env now b w)).
Proof.
  intros Hok.
  destruct k; cbn [route];
    unfold recordDetection, recordInteraction, endSession;
    (destruct (validateSession v b w) eqn:Hv; [exact Hok|]);
    (destruct (Map_get (b_sessionId b) (sessions (stats w))) as [s|] eqn:Hs;
     [|exact Hok]);
    pose proof (sessions_ok_get w _ s Hok Hs) as [Hnd Hdur].
  - apply Forall_smap_set; [split; assumption | exact Hok].
  - apply Forall_smap_set; [|exact Hok]. split; cbn; [|assumption].
    destruct (pushes_filter b s) eqn:Hp; [|assumption].
    apply NoDup_snoc; [assumption|]. now apply pushes_filter_spec in Hp.
  - assert (Hgoal : Forall (fun e => session_ok (snd e))
              (smap_set (key_text (b_sessionId b))
                 {| sessionId := sessionId s; startTime := startTime s;
                    userAgent := userAgent s; ip := ip s;
                    faceDetections := faceDetections s;
                    objectDetections := objectDetections s;
                    interactions := interactions s; filters := filters s;
                    lastActivity := now; endTime := Some now;
                    duration := Some (round_div (now - startTime s) 1000) |}
                 (sessions (stats w)))).
    { apply Forall_smap_set; [|exact Hok].
      split; cbn; [assumption | discriminate]. }
    destruct v; exact Hgoal.
Qed.

Lemma startSession_preserves_ok v env now c w :
  sessions_ok w -> sessions_ok (snd (startSession v env now c w)).
Proof.
  intros Hok. unfold startSession. cbn [snd].
  apply Forall_smap_set; [|exact Hok].
  split; cbn; [constructor | reflexivity].
Qed.

Lemma run_timers_preserves_ok t w :
  sessions_ok w -> sessions_ok (run_timers t w).
Proof.
  unfold run_timers.
  generalize (List.filter (fun tm => fst tm <=? t) (timers w)).
  generalize (List.filter (fun tm => negb (fst tm <=? t)) (timers w)).
  intros rest due. 
  change (sessions_ok w) with
    (sessions_ok {| stats := stats w; fs := fs w; timers := rest |}).
  generalize {| stats := stats w; fs := fs w; timers := rest |}.
  induction due as [|tm due IH]; intros w0 Hok; simpl; [exact Hok|].
  apply IH. unfold evict, sessions_ok. cbn.
  now apply Forall_smap_delete.
Qed.

Lemma step_preserves_ok v env ev w :
  sessions_ok w -> sessions_ok (snd (step v env ev w)).
Proof.
  intros Hok. unfold step, settle.
  pose proof (run_timers_preserves_ok (fst ev) w Hok) as Hok'.
  set (w1 := with_fs _ _).
  assert (H1 : sessions_ok w1) by exact Hok'.
  clearbody w1. clear Hok Hok'.
  destruct ev as [t [c|b|b|b| | |f]]; cbn [fst snd handle].
  - now apply startSession_preserves_ok.
  - now apply (route_preserves_ok Detection).
  - now apply (route_preserves_ok Interaction).
  - now apply (route_preserves_ok End).
  - exact H1.
  - unfold on_fs. destruct (listLogs v env (fs w1)) as [[r|e] f]; exact H1.
  - unfold on_fs. destruct (readLog v env f (fs w1)) as [[r|e] f']; exact H1.
Qed.

Lemma run_preserves_ok v env evs w :
  sessions_ok w -> sessions_ok (run v env evs w).
Proof.
  revert w. induction evs as [|ev evs IH]; intros w Hok; [exact Hok|].
  apply IH. now apply step_preserves_ok.
Qed.

Lemma initial_world_ok t0 disk : sessions_ok (initial_world t0 disk).
Proof. constructor. Qed.

(** ** Filter lists in [api/index.js] and [api/server.js] *)

(** Along every sequence of requests from process start, the filter
    list of a session never holds the same value twice; and a
    recordInteraction call on a session that is present appends [value] to
    that list exactly when [widgetName] is ["filterSelect"], [value] is not
    empty (it is truthy: for a text, not the empty text) and [value] is not
    in the list yet.  Otherwise the list stays as it is. *)
Lemma api_filters_distinct (v : Variant) (env : Env) :
  (forall t0 disk evs key s,
     session_of key (run v env evs (initial_world t0 disk)) = Some s ->
     List.NoDup (filters s)) /\
  (forall now b w s,
     validateSession v b w = None ->
     session_of (b_sessionId b) w = Some s ->
     exists s',
       session_of (b_sessionId b) (snd (recordInteraction v env now b w))
       = Some s' /\
       (b_widgetName b = JStr "filterSelect" /\
        ToBoolean (b_value b) = true /\
        ~ In (b_value b) (filters s) ->
        filters s' = (filters s ++ [b_value b])%list) /\
       (~ (b_widgetName b = JStr "filterSelect" /\
           ToBoolean (b_value b) = true /\
           ~ In (b_value b) (filters s)) ->
        filters s' = filters s)) /\
  (forall x : string, ToBoolean (JStr x) = true <-> x <> "").
Proof.
  split; [|split].
  - intros t0 disk evs key s Hs.
    apply (sessions_ok_get _ key s
             (run_preserves_ok v env evs _ (initial_world_ok t0 disk)) Hs).
  - intros now b w s Hv Hs.
    destruct (recordInteraction_effect v env now b w s Hv Hs)
      as (_ & (s' & H1 & _ & _ & _ & H5 & _) & _).
    exists s'. split; [exact H1|].
    rewrite <- pushes_filter_spec.
    destruct (pushes_filter b s); split; intros H; congruence.
  - intros x. cbn. rewrite negb_true_iff. apply String.eqb_neq.
Qed.

(** *** C6 *)

Lemma sum_active_durations (l : list Session) (acc : Z) :
  List.Forall (fun s => duration s = None) l ->
  fold_left (fun a s => a + duration_or_zero s) l acc = acc.
Proof.
  intros H. revert acc.
  induction H as [|s l Hs Hl IH]; intros acc; simpl; [reflexivity|].
  rewrite IH. unfold duration_or_zero. rewrite Hs. lia.
Qed.

Lemma active_have_no_duration (w : World) :
  sessions_ok w ->
  List.Forall (fun s => duration s = None)
    (List.filter is_active (Map_values (sessions (stats w)))).
Proof.
  unfold sessions_ok, Map_values.
  induction 1 as [|[k s] m [_ Hs] Hm IH]; simpl; [constructor|].
  unfold is_active at 1.
  destruct (endTime s) eqn:E; [exact IH|].
  constructor; [now apply Hs | exact IH].
Qed.

(** The number behind [avgDuration] is 0 in every state the routes can
    reach: the sum runs over the sessions without [endTime], and those have
    no [duration]. *)
Lemma avgDuration_always_zero (v : Variant) (env : Env) (t0 : Z)
    (disk : Fs.t) (evs : list (Z * Request)) :
  avgDuration (stats (run v env evs (initial_world t0 disk))) = 0.
Proof.
  pose proof (run_preserves_ok v env evs _ (initial_world_ok t0 disk)) as Hok.
  set (w := run v env evs (initial_world t0 disk)) in *.
  unfold avgDuration.
  rewrite (sum_active_durations _ 0 (active_have_no_duration w Hok)).
  destruct (Z.gtb_spec (totalSessions (stats w)) 0) as [Hpos|]; [|reflexivity].
  unfold round_div. apply Z.div_small. lia.
Qed.

(** C6 at a failing input.  One session, opened at 1 s and closed at 12 s:
    the only closed session lasted 11 s, so the average duration of the
    closed sessions is 11; the statistics answer says ["0s"], in either
    source. *)
Theorem avgDuration_is_not_closed_average (v : Variant) :
  spec_avgDurationOfClosedSessions (stats (world_closed v)) = 11 /\
  exists snap,
    payload (fst (getStats 13000 (world_closed v))) = PStats snap /\
    s_avgDuration snap = "0s".
Proof.
  destruct v; (split; [vm_compute; reflexivity|]);
    eexists; split; vm_compute; reflexivity.
Qed.

(** *** C9 *)

Lemma logToFile_total (v : Variant) (env : Env) (now : Z) (e : string)
    (d : Json.t) (disk : Fs.t) :
  exists written disk', logToFile v env now e d disk = (Fs.Ok written, disk').
Proof.
  unfold logToFile, Fs.try_catch.
  destruct (logToFile_body v env now e d disk) as [[written|err] disk'];
    eauto.
Qed.

Lemma telemetry_ignores_disk (v : Variant) (env : Env) (now : Z)
    (t : Telemetry) (w : World) (disk' : Fs.t) :
  fst (telemetry v env now t w) = fst (telemetry v env now t (with_fs disk' w)) /\
  stats (snd (telemetry v env now t w)) =
    stats (snd (telemetry v env now t (with_fs disk' w))) /\
  timers (snd (telemetry v env now t w)) =
    timers (snd (telemetry v env now t (with_fs disk' w))).
Proof.
  destruct t as [c|k b]; cbn [telemetry].
  - repeat split.
  - destruct k; cbn [route];
      unfold recordDetection, recordInteraction, endSession;
      change (validateSession v b (with_fs disk' w))
        with (validateSession v b w);
      change (stats (with_fs disk' w)) with (stats w);
      (destruct (validateSession v b w); [repeat split|]);
      (destruct (Map_get (b_sessionId b) (sessions (stats w)));
       [|repeat split]);
      try (destruct v); repeat split.
Qed.

(** C9.  The logger never throws: whatever the file system does (a
    failing size check, a failing rename, a failing write, a missing
    directory), [logToFile] returns, with [false] when something failed.
    The answer of a telemetry request and the state it leaves (sessions,
    global counters, eviction timers) are the same on every file system,
    so the same whether or not the log write succeeds; and the later
    completion of a queued write changes neither. *)
Theorem logging_failures_are_swallowed (v : Variant) (env : Env) (now : Z) :
  (forall e d disk,
     exists written disk', logToFile v env now e d disk = (Fs.Ok written, disk')) /\
  (forall e d disk,
     (exists err disk', logToFile_body v env now e d disk = (Fs.Throw err, disk')) ->
     exists disk', logToFile v env now e d disk = (Fs.Ok false, disk')) /\
  (forall t w disk',
     fst (telemetry v env now t w) = fst (telemetry v env now t (with_fs disk' w)) /\
     stats (snd (telemetry v env now t w)) =
       stats (snd (telemetry v env now t (with_fs disk' w))) /\
     timers (snd (telemetry v env now t w)) =
       timers (snd (telemetry v env now t (with_fs disk' w)))) /\
  (forall t w, stats (with_fs (Fs.flush t (fs w)) w) = stats w).
Proof.
  split; [|split; [|split]].
  - intros e d disk. apply logToFile_total.
  - intros e d disk (err & disk' & H). exists disk'.
    unfold logToFile, Fs.try_catch. now rewrite H.
  - intros t w disk'. apply telemetry_ignores_disk.
  - reflexivity.
Qed.

Lemma logging_failures_are_swallowed_witness :
  exists disk',
    logToFile IndexJs sample_env 1000 "SESSION_START" (Json.str "x")
      (disk_of ∅) = (Fs.Ok false, disk').
Proof.
  destruct (logging_failures_are_swallowed IndexJs sample_env 1000)
    as (_ & H & _).
  apply H. eexists. eexists. vm_compute. reflexivity.
Defined.

(** ** Texts *)

Lemma byte_length_app (a b : string) :
  byte_length (a ++ b) = byte_length a + byte_length b.
Proof. induction a as [|c a IH]; simpl byte_length; [reflexivity | rewrite IH; lia]. Qed.

Lemma byte_length_nonneg (a : string) : 0 <= byte_length a.
Proof. induction a as [|c a IH]; simpl byte_length; lia. Qed.

Lemma has_char_app (c : ascii) (a b : string) :
  has_char c (a ++ b) = has_char c a || has_char c b.
Proof.
  induction a as [|d a IH]; simpl; [reflexivity|].
  now rewrite IH, orb_assoc.
Qed.

Lemma split_on_plain (sep : ascii) (s : string) :
  has_char sep s = false -> split_on sep s = [s].
Proof.
  induction s as [|c s IH]; simpl; [reflexivity|].
  rewrite Ascii.eqb_sym. destruct (Ascii.eqb c sep); simpl; [discriminate|].
  intros H. now rewrite (IH H).
Qed.

Lemma split_on_cons (sep : ascii) (s : string) :
  exists seg segs, split_on sep s = seg :: segs.
Proof.
  destruct s as [|c s]; simpl; [eauto|].
  destruct (Ascii.eqb c sep); [eauto|].
  destruct (split_on sep s); eauto.
Qed.

Lemma split_on_app (sep : ascii) (a b : string) :
  split_on sep (a ++ String sep b) = (split_on sep a ++ split_on sep b)%list.
Proof.
  induction a as [|c a IH]; simpl.
  - now rewrite Ascii.eqb_refl.
  - destruct (Ascii.eqb c sep); [now rewrite IH|].
    rewrite IH. destruct (split_on_cons sep a) as (seg & segs & ->).
    reflexivity.
Qed.

Lemma concat_split_on (sep : ascii) (s : string) :
  String.concat (String sep "") (split_on sep s) = s.
Proof.
  induction s as [|c s IH]; [reflexivity|].
  cbn [split_on].
  destruct (split_on_cons sep s) as (seg & segs & E). rewrite E in *.
  destruct (Ascii.eqb_spec c sep) as [->|Hne].
  - change (String.concat (String sep "") ("" :: seg :: segs))
      with (String sep (String.concat (String sep "") (seg :: segs))).
    now rewrite IH.
  - destruct segs as [|seg2 segs].
    + cbn in *. now rewrite IH.
    + change (String.concat (String sep "") (String c seg :: seg2 :: segs))
        with (String c (String.concat (String sep "") (seg :: seg2 :: segs))).
      now rewrite IH.
Qed.

Lemma app_String (c : ascii) (a b : string) :
  String c a ++ b = String c (a ++ b).
Proof. reflexivity. Qed.

Lemma string_app_assoc (a b c : string) : (a ++ b) ++ c = a ++ (b ++ c).
Proof.
  induction a as [|x a IH]; [reflexivity|].
  rewrite !app_String. now f_equal.
Qed.

Lemma string_app_nil_r (a : string) : a ++ "" = a.
Proof.
  induction a as [|x a IH]; [reflexivity|].
  rewrite app_String. now f_equal.
Qed.

Lemma string_app_inv_head (a b c : string) : a ++ b = a ++ c -> b = c.
Proof.
  induction a as [|x a IH]; [auto|].
  rewrite !app_String. intros [= H]. auto.
Qed.

Lemma prefix_app (a b : string) : String.prefix a (a ++ b) = true.
Proof.
  induction a as [|c a IH]; simpl; [now destruct b|].
  destruct (ascii_dec c c) as [_|Hne]; [exact IH | congruence].
Qed.

Lemma prefix_trans (a b c : string) :
  String.prefix a b = true -> String.prefix b c = true ->
  String.prefix a c = true.
Proof.
  revert b c. induction a as [|x a IH]; intros b c H1 H2.
  - destruct c; reflexivity.
  - destruct b as [|y b]; [discriminate H1|].
    simpl in H1. destruct (ascii_dec x y) as [->|]; [|discriminate].
    destruct c as [|z c]; [discriminate H2|].
    simpl in H2. simpl.
    destruct (ascii_dec y z) as [->|]; [|discriminate].
    eapply IH; eauto.
Qed.

Lemma string_app_eq_nil (a b : string) : a ++ b = "" -> b = "".
Proof. destruct a; [exact id | rewrite app_String; discriminate]. Qed.

Lemma endsWith_slash_app (a b : string) :
  b <> "" -> endsWith (a ++ b) "/" = endsWith b "/".
Proof.
  intros Hb. induction a as [|c a IH]; [reflexivity|].
  rewrite app_String. cbn [endsWith]. rewrite IH.
  destruct (a ++ b) eqn:E.
  - apply string_app_eq_nil in E. contradiction.
  - simpl. destruct (Ascii.eqb c "/"); reflexivity.
Qed.

Lemma endsWith_slash_plain (b : string) :
  has_char "/" b = false -> endsWith b "/" = false.
Proof.
  induction b as [|c b IH]; [reflexivity|].
  cbn [has_char endsWith]. rewrite orb_false_iff. intros [Hc Hb].
  rewrite (IH Hb), orb_false_r.
  apply String.eqb_neq. intros [= -> _]. discriminate Hc.
Qed.

(** A backup name does not end in [.log]. *)
Lemma backup_not_log (s : string) :
  endsWith s ".log.backup" = true -> endsWith s ".log" = false.
Proof.
  induction s as [|c s IH]; [discriminate|].
  cbn [endsWith]. rewrite orb_true_iff. intros [H | H].
  - apply String.eqb_eq in H. injection H as -> ->. reflexivity.
  - rewrite (IH H), orb_false_r.
    apply String.eqb_neq. intros E. inversion E; subst. discriminate H.
Qed.

Lemma endsWith_nonempty (s suf : string) :
  endsWith s suf = true -> suf <> "" -> s <> "".
Proof. intros H Hs ->. simpl in H. destruct suf; [congruence | discriminate]. Qed.

(** ** Paths *)

Lemma plain_spec (seg : string) :
  plain seg = true ->
  seg <> "" /\ seg <> "." /\ seg <> ".." /\ has_char "/" seg = false.
Proof.
  unfold plain. rewrite !andb_true_iff, !negb_true_iff.
  intros [[[H1 H2] H3] H4].
  repeat split; try (now apply String.eqb_neq). exact H4.
Qed.

Lemma norm_step_plain (a : bool) (st : list string) (seg : string) :
  plain seg = true -> Path.norm_step a st seg = seg :: st.
Proof.
  intros H. destruct (plain_spec _ H) as (H1 & H2 & H3 & _).
  unfold Path.norm_step.
  apply String.eqb_neq in H1, H2, H3. now rewrite H1, H2, H3.
Qed.

Lemma fold_norm_plain (a : bool) (l st : list string) :
  forallb plain l = true ->
  fold_left (Path.norm_step a) l st = (rev l ++ st)%list.
Proof.
  revert st. induction l as [|seg l IH]; intros st; [reflexivity|].
  cbn [forallb fold_left]. rewrite andb_true_iff. intros [Hs Hl].
  rewrite (norm_step_plain _ _ _ Hs), (IH _ Hl). cbn [rev].
  now rewrite <- List.app_assoc.
Qed.

Lemma normalizeString_rooted (p : string) (a : bool) (segs : list string) :
  split_on "/" p = "" :: segs ->
  forallb plain segs = true ->
  Path.normalizeString p a = String.concat "/" segs.
Proof.
  intros E Hp. unfold Path.normalizeString. rewrite E.
  cbn [fold_left]. change (Path.norm_step a [] "") with (@nil string).
  rewrite (fold_norm_plain _ _ _ Hp), List.app_nil_r. now rewrite rev_involutive.
Qed.

Lemma canonical_split (L : string) :
  canonical L = true ->
  exists seg segs,
    split_on "/" L = "" :: seg :: segs /\
    forallb plain (seg :: segs) = true /\
    L = String "/" (String.concat "/" (seg :: segs)).
Proof.
  unfold canonical. intros H.
  pose proof (concat_split_on "/" L) as Hc.
  destruct (split_on "/" L) as [|[|c s] [|seg segs]]; try discriminate.
  exists seg, segs. repeat split; [exact H|].
  rewrite <- Hc at 1. reflexivity.
Qed.

Lemma concat_snoc (seg : string) (segs : list string) (name : string) :
  String.concat "/" ((seg :: segs) ++ [name]) =
  String.concat "/" (seg :: segs) ++ "/" ++ name.
Proof.
  revert seg. induction segs as [|s2 segs IH]; intros seg; [reflexivity|].
  change (String.concat "/" ((seg :: s2 :: segs) ++ [name]))
    with (seg ++ "/" ++ String.concat "/" ((s2 :: segs) ++ [name])).
  rewrite IH.
  change (String.concat "/" (seg :: s2 :: segs))
    with (seg ++ "/" ++ String.concat "/" (s2 :: segs)).
  now rewrite !string_app_assoc.
Qed.

Lemma forallb_snoc {A} (f : A -> bool) (l : list A) (x : A) :
  forallb f l = true -> f x = true -> forallb f (l ++ [x]) = true.
Proof. intros Hl Hx. rewrite forallb_app, Hl. simpl. now rewrite Hx. Qed.

(** Below a canonical directory, [path.join] only appends the name. *)
Lemma join_canonical (L name : string) :
  canonical L = true -> plain name = true ->
  Path.join L name = L ++ "/" ++ name.
Proof.
  intros HL Hn.
  destruct (canonical_split _ HL) as (seg & segs & Hsplit & Hplain & HLeq).
  destruct (plain_spec _ Hn) as (Hne & _ & _ & Hslash).
  assert (Hsp : split_on "/" (L ++ "/" ++ name) = "" :: (seg :: segs) ++ [name]).
  { change (L ++ "/" ++ name) with (L ++ String "/" name).
    rewrite split_on_app, Hsplit, (split_on_plain _ _ Hslash). reflexivity. }
  assert (Hns : Path.normalizeString (L ++ "/" ++ name) false =
                String.concat "/" (seg :: segs) ++ "/" ++ name).
  { rewrite (normalizeString_rooted _ _ _ Hsp (forallb_snoc _ _ _ Hplain Hn)).
    apply concat_snoc. }
  unfold Path.join.
  assert (HLne : String.eqb L "" = false) by (rewrite HLeq; reflexivity).
  assert (Hnne : String.eqb name "" = false) by now apply String.eqb_neq.
  rewrite HLne, Hnne. unfold Path.normalize.
  assert (Habs : Path.isAbsolute (L ++ "/" ++ name) = true)
    by (rewrite HLeq; reflexivity).
  assert (Hpne : String.eqb (L ++ "/" ++ name) "" = false)
    by (rewrite HLeq; reflexivity).
  rewrite Hpne, Habs. cbn [negb]. rewrite Hns.
  assert (Htr : endsWith (L ++ "/" ++ name) "/" = false).
  { rewrite <- string_app_assoc, (endsWith_slash_app _ _ Hne).
    now apply endsWith_slash_plain. }
  rewrite Htr.
  assert (Hq : String.eqb (String.concat "/" (seg :: segs) ++ "/" ++ name) ""
               = false).
  { apply String.eqb_neq. intros E. apply string_app_eq_nil in E.
    discriminate E. }
  rewrite Hq. rewrite HLeq at 1. reflexivity.
Qed.


Lemma dirname_child (L name : string) :
  canonical L = true -> plain name = true ->
  Fs.dirname (L ++ "/" ++ name) = L.
Proof.
  intros HL Hn.
  destruct (canonical_split _ HL) as (seg & segs & Hsplit & Hplain & HLeq).
  destruct (plain_spec _ Hn) as (_ & _ & _ & Hslash).
  unfold Fs.dirname.
  change (L ++ "/" ++ name) with (L ++ String "/" name).
  rewrite split_on_app, Hsplit, (split_on_plain _ _ Hslash).
  rewrite removelast_last.
  change (String.concat "/" ("" :: seg :: segs))
    with (String "/" (String.concat "/" (seg :: segs))).
  rewrite <- HLeq.
  assert (HLne : String.eqb L "" = false) by (rewrite HLeq; reflexivity).
  now rewrite HLne.
Qed.

(** The default directories are canonical. *)
Lemma default_LOGS_DIR_IndexJs (env : Env) :
  env_LOGS_DIR env = None -> LOGS_DIR IndexJs env = "/tmp/logs".
Proof. unfold LOGS_DIR. intros ->. reflexivity. Qed.

Lemma default_LOGS_DIR_ServerJs (env : Env) :
  env_LOGS_DIR env = None -> canonical (cwd env) = true ->
  LOGS_DIR ServerJs env = cwd env ++ "/logs" /\
  canonical (LOGS_DIR ServerJs env) = true.
Proof.
  unfold LOGS_DIR. intros -> Hc.
  rewrite (join_canonical _ "logs" Hc eq_refl). split; [reflexivity|].
  destruct (canonical_split _ Hc) as (seg & segs & Hsplit & Hplain & _).
  unfold canonical.
  change (cwd env ++ "/" ++ "logs") with (cwd env ++ String "/" "logs").
  rewrite split_on_app, Hsplit.
  change (split_on "/" "logs") with ["logs"].
  change (("" :: seg :: segs) ++ ["logs"])%list
    with ("" :: seg :: (segs ++ ["logs"]))%list.
  cbn [forallb] in *. apply andb_true_iff in Hplain as [H1 H2].
  rewrite H1. cbn [andb]. apply forallb_snoc; [exact H2 | reflexivity].
Qed.

(** ** Characters of generated names *)

Lemma all_digits_no_char (c : ascii) (s : string) :
  all_digits s = true -> digit_value 10 c = None -> has_char c s = false.
Proof.
  intros Hs Hc. induction s as [|d s IH]; [reflexivity|].
  cbn [all_digits has_char] in *.
  destruct (digit_value 10 d) eqn:Hd; [|discriminate].
  rewrite (IH Hs), orb_false_r.
  destruct (Ascii.eqb_spec c d) as [->|]; [congruence | reflexivity].
Qed.

Lemma N_toString_no_char (c : ascii) (n : N) :
  digit_value 10 c = None -> has_char c (N_toString n) = false.
Proof. apply all_digits_no_char, N_toString_spec. Qed.

Lemma Number_toString_no_char (c : ascii) (z : Z) :
  digit_value 10 c = None -> c <> "-"%char ->
  has_char c (Number_toString z) = false.
Proof.
  intros Hc Hm. unfold Number_toString.
  destruct (z <? 0); [|now apply N_toString_no_char].
  cbn [has_char]. rewrite (N_toString_no_char _ _ Hc), orb_false_r.
  now apply Ascii.eqb_neq.
Qed.

Lemma concat_no_char (c : ascii) (l : list string) :
  List.Forall (fun x => has_char c x = false) l ->
  has_char c (String.concat "" l) = false.
Proof.
  induction 1 as [|x l Hx Hl IH]; [reflexivity|].
  destruct l as [|y l]; [exact Hx|].
  change (String.concat "" (x :: y :: l))
    with (x ++ "" ++ String.concat "" (y :: l)).
  now rewrite !has_char_app, Hx, IH.
Qed.

Lemma pad_no_char (c : ascii) (w : nat) (n : Z) :
  digit_value 10 c = None -> has_char c (JsDate.pad w n) = false.
Proof.
  intros Hc. unfold JsDate.pad.
  rewrite has_char_app, (N_toString_no_char _ _ Hc), orb_false_r.
  apply concat_no_char.
  apply List.Forall_forall. intros x Hx. apply repeat_spec in Hx. subst x.
  cbn [has_char]. rewrite orb_false_r.
  apply Ascii.eqb_neq. intros ->. discriminate Hc.
Qed.

Lemma toISOString_no_char (c : ascii) (ms : Z) :
  not_in_timestamps c -> has_char c (JsDate.toISOString ms) = false.
Proof.
  intros [Hd Hp]. unfold JsDate.toISOString.
  destruct (JsDate.civil_from_days (ms / 86400000)) as [[y m] d].
  assert (Hy : has_char c (JsDate.year_text y) = false).
  { unfold JsDate.year_text.
    cbn [has_char] in Hp. rewrite !orb_false_iff in Hp.
    destruct Hp as (H1 & H2 & _).
    destruct ((0 <=? y) && (y <=? 9999)); [now apply pad_no_char|].
    destruct (y <? 0); cbn [has_char]; rewrite (pad_no_char _ _ _ Hd);
      [now rewrite H1 | now rewrite H2]. }
  cbn [has_char] in Hp. rewrite !orb_false_iff in Hp.
  destruct Hp as (H1 & H2 & H3 & H4 & H5 & H6 & _).
  rewrite !has_char_app, Hy, !(pad_no_char _ _ _ Hd).
  cbn [has_char]. now rewrite H1, H3, H4, H5, H6.
Qed.

Lemma hd_split_no_char (c sep : ascii) (s : string) :
  has_char c s = false -> has_char c (hd "" (split_on sep s)) = false.
Proof.
  induction s as [|x s IH]; [reflexivity|].
  cbn [has_char split_on]. rewrite orb_false_iff. intros [Hx Hs].
  destruct (Ascii.eqb x sep); [reflexivity|].
  specialize (IH Hs).
  destruct (split_on sep s) as [|seg segs]; cbn [hd has_char] in *.
  - now rewrite Hx.
  - now rewrite Hx, IH.
Qed.

Lemma dateString_no_char (c : ascii) (ms : Z) :
  not_in_timestamps c -> has_char c (JsDate.dateString ms) = false.
Proof.
  intros Hc. apply hd_split_no_char. now apply toISOString_no_char.
Qed.

Lemma slash_not_in_timestamps : not_in_timestamps "/".
Proof. split; reflexivity. Qed.


Lemma has_char_neq (c : ascii) (a b : string) :
  has_char c a = true -> has_char c b = false -> a <> b.
Proof. intros Ha Hb ->. congruence. Qed.

Lemma logFileName_no_char (c : ascii) (e : string) (now : Z) :
  not_in_timestamps c -> has_char c "_log" = false ->
  has_char c e = false ->
  has_char c (logFileName e now) = false.
Proof.
  intros Hc Hl He. unfold logFileName.
  cbn [has_char] in Hl. rewrite !orb_false_iff in Hl.
  destruct Hl as (H1 & H2 & H3 & H4 & _). destruct Hc as [Hd Hp].
  pose proof Hp as Hp'. cbn [has_char] in Hp'. rewrite !orb_false_iff in Hp'.
  destruct Hp' as (_ & _ & _ & _ & Hdot & _).
  rewrite !has_char_app, He, (dateString_no_char c now (conj Hd Hp)).
  cbn [has_char]. now rewrite H1, H2, H3, H4, Hdot.
Qed.

Lemma backupName_no_char (c : ascii) (e : string) (now : Z) :
  not_in_timestamps c -> has_char c "_logbackup" = false ->
  has_char c e = false ->
  has_char c (backupName e now) = false.
Proof.
  intros Hc Hl He. unfold backupName.
  cbn [has_char] in Hl. rewrite !orb_false_iff in Hl.
  destruct Hl as (H1 & H2 & H3 & H4 & H5 & H6 & H7 & H8 & H9 & H10 & _).
  destruct Hc as [Hd Hp].
  pose proof Hp as Hp'. cbn [has_char] in Hp'. rewrite !orb_false_iff in Hp'.
  destruct Hp' as (Hminus & _ & _ & _ & Hdot & _).
  rewrite !has_char_app, He, (dateString_no_char c now (conj Hd Hp)).
  rewrite Number_toString_no_char;
    [|exact Hd | intros ->; discriminate Hminus].
  cbn [has_char]. now rewrite H1, H2, H3, H4, H5, H6, H7, H8, H9, H10, Hdot.
Qed.

Lemma plain_of_underscore (s : string) :
  has_char "_" s = true -> has_char "/" s = false -> plain s = true.
Proof.
  intros Hu Hs. unfold plain. rewrite Hs. cbn [negb andb].
  rewrite !andb_true_iff, !negb_true_iff.
  repeat split; apply String.eqb_neq;
    apply (has_char_neq "_" _ _ Hu); reflexivity.
Qed.

Lemma logFileName_plain (e : string) (now : Z) :
  has_char "/" e = false -> plain (logFileName e now) = true.
Proof.
  intros He. apply plain_of_underscore.
  - unfold logFileName. rewrite !has_char_app. cbn [has_char].
    now rewrite !orb_true_r.
  - now apply logFileName_no_char; [apply slash_not_in_timestamps| |].
Qed.

Lemma backupName_plain (e : string) (now : Z) :
  has_char "/" e = false -> plain (backupName e now) = true.
Proof.
  intros He. apply plain_of_underscore.
  - unfold backupName. rewrite !has_char_app. cbn [has_char].
    now rewrite !orb_true_r.
  - now apply backupName_no_char; [apply slash_not_in_timestamps| |].
Qed.

Lemma backupName_is_backup (e : string) (now : Z) :
  endsWith (backupName e now) ".log.backup" = true.
Proof.
  unfold backupName.
  generalize (e ++ "_" ++ JsDate.dateString now ++ "_" ++ Number_toString now).
  intros p.
  replace (e ++ "_" ++ JsDate.dateString now ++ "_" ++
           Number_toString now ++ ".log.backup")
    with ((e ++ "_" ++ JsDate.dateString now ++ "_" ++ Number_toString now)
          ++ ".log.backup")
    by now rewrite !string_app_assoc.
  generalize (e ++ "_" ++ JsDate.dateString now ++ "_" ++ Number_toString now).
  clear. intros q. induction q as [|c q IH]; [reflexivity|].
  rewrite app_String. cbn [endsWith]. now rewrite IH, orb_true_r.
Qed.

Lemma logFileName_is_log (e : string) (now : Z) :
  endsWith (logFileName e now) ".log" = true.
Proof.
  unfold logFileName.
  replace (e ++ "_" ++ JsDate.dateString now ++ ".log")
    with ((e ++ "_" ++ JsDate.dateString now) ++ ".log")
    by now rewrite !string_app_assoc.
  generalize (e ++ "_" ++ JsDate.dateString now).
  intros q. induction q as [|c q IH]; [reflexivity|].
  rewrite app_String. cbn [endsWith]. now rewrite IH, orb_true_r.
Qed.

Lemma log_and_backup_differ (e : string) (now : Z) :
  logFileName e now <> backupName e now.
Proof.
  intros E. pose proof (backupName_is_backup e now) as Hb.
  rewrite <- E in Hb. apply backup_not_log in Hb.
  now rewrite logFileName_is_log in Hb.
Qed.

(** ** File-system steps of the logger *)

Lemma statSync_file disk p d tm :
  sound disk -> Fs.nodes disk !! p = Some (Fs.File d tm) ->
  Fs.statSync p disk = (Fs.Ok (Fs.stat_of (Fs.File d tm)), disk).
Proof. intros Hs Hp. unfold Fs.statSync. now rewrite Hs, Hp. Qed.

Lemma renameSync_file disk a b d tm :
  sound disk -> Fs.nodes disk !! a = Some (Fs.File d tm) ->
  Fs.is_dir disk b = false -> Fs.is_dir disk (Fs.dirname b) = true ->
  Fs.renameSync a b disk =
  (Fs.Ok tt, Fs.with_nodes (<[b := Fs.File d tm]> (delete a (Fs.nodes disk))) disk).
Proof.
  intros Hs Ha Hb Hd. unfold Fs.renameSync. now rewrite Hs, Ha, Hb, Hd.
Qed.

Lemma append_now_new disk p data now :
  sound disk -> Fs.nodes disk !! p = None ->
  Fs.is_dir disk (Fs.dirname p) = true ->
  Fs.append_now now p data disk =
  (Fs.Ok tt,
   Fs.with_nodes
     (<[p := Fs.File data {| Fs.mtime := now; Fs.birthtime := now |}]>
        (Fs.nodes disk)) disk).
Proof. intros Hs Hp Hd. unfold Fs.append_now. now rewrite Hs, Hp, Hd. Qed.

Lemma append_now_existing disk p d tm data now :
  sound disk -> Fs.nodes disk !! p = Some (Fs.File d tm) ->
  Fs.append_now now p data disk =
  (Fs.Ok tt,
   Fs.with_nodes
     (<[p := Fs.File (d ++ data)
               {| Fs.mtime := now; Fs.birthtime := Fs.birthtime tm |}]>
        (Fs.nodes disk)) disk).
Proof. intros Hs Hp. unfold Fs.append_now. now rewrite Hs, Hp. Qed.

Lemma is_dir_lookup disk p :
  Fs.is_dir disk p = true -> exists sz tm, Fs.nodes disk !! p = Some (Fs.Dir sz tm).
Proof.
  unfold Fs.is_dir. destruct (Fs.nodes disk !! p) as [[d tm|sz tm]|];
    try discriminate. eauto.
Qed.

Lemma child_not_parent (L name : string) : L <> L ++ "/" ++ name.
Proof.
  intros E. rewrite <- (string_app_nil_r L) in E at 1.
  apply string_app_inv_head in E. discriminate E.
Qed.

Lemma children_differ (L a b : string) :
  a <> b -> L ++ "/" ++ a <> L ++ "/" ++ b.
Proof.
  intros Hne E. apply string_app_inv_head in E. injection E as E. auto.
Qed.

(** Up to the threshold no file is renamed: the entry goes to the end of
    the file that is there. *)
Lemma no_rotation_up_to_threshold env now e d disk old tm :
  canonical (LOGS_DIR IndexJs env) = true ->
  has_char "/" e = false ->
  Fs.nodes disk !! Path.join (LOGS_DIR IndexJs env) (logFileName e now)
  = Some (Fs.File old tm) ->
  byte_length old <= MAX_LOG_FILE_SIZE ->
  sound disk ->
  logToFile IndexJs env now e d disk =
  (Fs.Ok true,
   Fs.with_nodes
     (<[Path.join (LOGS_DIR IndexJs env) (logFileName e now) :=
          Fs.File (old ++ logEntry env now e d)
            {| Fs.mtime := now; Fs.birthtime := Fs.birthtime tm |}]>
        (Fs.nodes disk)) disk).
Proof.
  intros HL He Hlog Hsz Hs.
  unfold logToFile, logToFile_body, Fs.try_catch, Fs.bind, Fs.get,
    Fs.existsSync, Fs.appendFileSync.
  rewrite Hlog, (statSync_file _ _ _ _ Hs Hlog).
  cbn [Fs.stat_of Fs.st_size].
  destruct (Z.gtb_spec (byte_length old) MAX_LOG_FILE_SIZE) as [Hgt|_]; [lia|].
  cbn [Fs.ret]. now rewrite (append_now_existing _ _ _ _ _ _ Hs Hlog).
Qed.

(** *** C7 *)

(** C7, as amended.  When the log file is larger than 10 MiB (strictly:
    more than 10485760 bytes) at the time of an append, the logger first
    renames it to the time-stamped backup name, which then holds the old
    content, and writes to a fresh file: once the write has completed the
    file under the log name holds the appended entry and nothing else, so
    its size is the size of that entry. *)
Theorem rotation_above_threshold
    (v : Variant) (env : Env) (now : Z) (e : string) (d : Json.t)
    (disk : Fs.t) (old : string) (tm : Fs.Times) :
  canonical (LOGS_DIR v env) = true ->
  has_char "/" e = false ->
  Fs.nodes disk !! Path.join (LOGS_DIR v env) (logFileName e now)
  = Some (Fs.File old tm) ->
  MAX_LOG_FILE_SIZE < byte_length old ->
  Fs.is_dir disk (LOGS_DIR v env) = true ->
  Fs.is_dir disk (Path.join (LOGS_DIR v env) (backupName e now)) = false ->
  sound disk ->
  Fs.pending disk = [] ->
  exists disk',
    logToFile v env now e d disk = (Fs.Ok true, disk') /\
    Fs.nodes (Fs.flush now disk')
      !! Path.join (LOGS_DIR v env) (backupName e now)
    = Some (Fs.File old tm) /\
    Fs.nodes (Fs.flush now disk')
      !! Path.join (LOGS_DIR v env) (logFileName e now)
    = Some (Fs.File (logEntry env now e d)
              {| Fs.mtime := now; Fs.birthtime := now |}) /\
    exists st,
      Fs.statSync (Path.join (LOGS_DIR v env) (logFileName e now))
        (Fs.flush now disk') = (Fs.Ok st, Fs.flush now disk') /\
      Fs.st_size st = byte_length (logEntry env now e d).
Proof.
  intros HL He Hlog Hsz Hdir Hbak Hs Hpend.
  rewrite (join_canonical _ _ HL (logFileName_plain e now He)) in *.
  rewrite (join_canonical _ _ HL (backupName_plain e now He)) in *.
  set (L := LOGS_DIR v env) in *.
  set (lp := L ++ "/" ++ logFileName e now) in *.
  set (bp := L ++ "/" ++ backupName e now) in *.
  set (entry := logEntry env now e d).
  assert (Hne : lp <> bp) by apply children_differ, log_and_backup_differ.
  assert (HLl : L <> lp) by apply child_not_parent.
  assert (HLb : L <> bp) by apply child_not_parent.
  assert (Hdl : Fs.dirname lp = L)
    by apply (dirname_child _ _ HL (logFileName_plain e now He)).
  assert (Hdb : Fs.dirname bp = L)
    by apply (dirname_child _ _ HL (backupName_plain e now He)).
  destruct (is_dir_lookup _ _ Hdir) as (sz & tmd & HLd).
  set (nodes1 := <[bp := Fs.File old tm]> (delete lp (Fs.nodes disk))).
  set (disk1 := Fs.with_nodes nodes1 disk).
  assert (Hs1 : sound disk1) by exact Hs.
  assert (Hren : Fs.renameSync lp bp disk = (Fs.Ok tt, disk1)).
  { apply renameSync_file; try assumption. now rewrite Hdb. }
  assert (Hl1 : Fs.nodes disk1 !! lp = None).
  { unfold disk1, nodes1. cbn [Fs.nodes Fs.with_nodes].
    rewrite lookup_insert_ne by congruence. apply lookup_delete_eq. }
  assert (Hd1 : Fs.is_dir disk1 (Fs.dirname lp) = true).
  { rewrite Hdl. unfold Fs.is_dir, disk1, nodes1.
    cbn [Fs.nodes Fs.with_nodes].
    rewrite lookup_insert_ne by congruence.
    rewrite lookup_delete_ne by congruence. now rewrite HLd. }
  set (nodes2 := <[lp := Fs.File entry {| Fs.mtime := now; Fs.birthtime := now |}]>
                   nodes1).
  assert (Happ : Fs.append_now now lp entry disk1 =
                 (Fs.Ok tt, Fs.with_nodes nodes2 disk1))
    by now apply append_now_new.
  assert (Hb2 : nodes2 !! bp = Some (Fs.File old tm)).
  { unfold nodes2, nodes1. rewrite lookup_insert_ne by congruence.
    apply lookup_insert_eq. }
  assert (Hl2 : nodes2 !! lp =
                Some (Fs.File entry {| Fs.mtime := now; Fs.birthtime := now |}))
    by apply lookup_insert_eq.
  assert (Hrun : exists disk',
             logToFile v env now e d disk = (Fs.Ok true, disk') /\
             Fs.nodes (Fs.flush now disk') = nodes2 /\
             sound (Fs.flush now disk')).
  { unfold logToFile, logToFile_body, Fs.try_catch, Fs.bind, Fs.get,
      Fs.existsSync, Fs.appendFileSync.
    cbv zeta. fold L.
    rewrite (join_canonical _ _ HL (logFileName_plain e now He)).
    rewrite (join_canonical _ _ HL (backupName_plain e now He)).
    fold lp. fold bp. fold entry.
    rewrite Hlog, (statSync_file _ _ _ _ Hs Hlog).
    cbn [Fs.stat_of Fs.st_size].
    destruct (Z.gtb_spec (byte_length old) MAX_LOG_FILE_SIZE) as [_|Hle];
      [|lia].
    rewrite Hren. destruct v.
    - rewrite Happ. cbn [Fs.ret]. eexists. split; [reflexivity|].
      unfold Fs.flush, disk1.
      cbn [Fs.pending Fs.with_nodes Fs.nodes Fs.fault].
      rewrite Hpend. cbn [fold_left Fs.nodes]. split; [reflexivity | exact Hs].
    - unfold Fs.appendFile. cbn [Fs.ret]. eexists. split; [reflexivity|].
      unfold Fs.flush, disk1.
      cbn [Fs.pending Fs.with_nodes Fs.nodes Fs.fault Fs.reads].
      rewrite Hpend. cbn [app fold_left fst snd].
      change {| Fs.nodes := nodes1; Fs.fault := Fs.fault disk;
                Fs.pending := []; Fs.reads := Fs.reads disk |}
        with (Fs.with_nodes nodes1
                {| Fs.nodes := Fs.nodes disk; Fs.fault := Fs.fault disk;
                   Fs.pending := []; Fs.reads := Fs.reads disk |}).
      rewrite append_now_new; [split; [reflexivity | exact Hs] | exact Hs | |].
      + exact Hl1.
      + exact Hd1. }
  destruct Hrun as (disk' & Hrun & Hn & Hs').
  exists disk'. split; [exact Hrun|]. rewrite Hn.
  split; [exact Hb2|]. split; [exact Hl2|].
  eexists. split.
  - apply statSync_file; [exact Hs' | rewrite Hn; exact Hl2].
  - reflexivity.
Qed.

Lemma byte_length_iter (n : N) (c : ascii) (s : string) :
  byte_length (N.iter n (String c) s) = Z.of_N n + byte_length s.
Proof.
  induction n as [|n IH] using N.peano_ind; [reflexivity|].
  rewrite N.iter_succ. change (byte_length (String c ?x)) with (1 + byte_length x).
  cbn [byte_length]. rewrite IH. lia.
Qed.

Lemma byte_length_ten_MiB : byte_length ten_MiB_of_x = MAX_LOG_FILE_SIZE.
Proof. unfold ten_MiB_of_x. rewrite byte_length_iter. reflexivity. Qed.

Lemma byte_length_String (c : ascii) (s : string) :
  byte_length (String c s) = 1 + byte_length s.
Proof. reflexivity. Qed.

(** The sample configuration: the log directory of [api/index.js] and the
    two paths of the session-start log at time 1000. *)
Lemma sample_LOGS_DIR : LOGS_DIR IndexJs sample_env = "/tmp/logs".
Proof. reflexivity. Qed.

Lemma sample_paths :
  canonical "/tmp/logs" = true /\
  Path.join "/tmp/logs" (logFileName "SESSION_START" 1000) <> "/tmp/logs" /\
  Path.join "/tmp/logs" (backupName "SESSION_START" 1000) <> "/tmp/logs" /\
  Path.join "/tmp/logs" (logFileName "SESSION_START" 1000) <>
  Path.join "/tmp/logs" (backupName "SESSION_START" 1000).
Proof.
  assert (Hc : canonical "/tmp/logs" = true) by reflexivity.
  split; [exact Hc|].
  rewrite (join_canonical _ _ Hc (logFileName_plain "SESSION_START" 1000 eq_refl)).
  rewrite (join_canonical _ _ Hc (backupName_plain "SESSION_START" 1000 eq_refl)).
  repeat split.
  - intros E. symmetry in E. exact (child_not_parent _ _ E).
  - intros E. symmetry in E. exact (child_not_parent _ _ E).
  - apply children_differ, log_and_backup_differ.
Qed.

Lemma sample_disk_facts (big : string) :
  Fs.nodes (disk_with_log big)
    !! Path.join "/tmp/logs" (logFileName "SESSION_START" 1000)
  = Some (Fs.File big sample_times) /\
  Fs.is_dir (disk_with_log big) "/tmp/logs" = true /\
  Fs.is_dir (disk_with_log big)
    (Path.join "/tmp/logs" (backupName "SESSION_START" 1000)) = false /\
  sound (disk_with_log big) /\ Fs.pending (disk_with_log big) = [].
Proof.
  destruct sample_paths as (_ & H1 & H2 & H3).
  unfold disk_with_log, disk_of, Fs.is_dir. cbn [Fs.nodes Fs.pending].
  split; [apply lookup_insert_eq|].
  split; [rewrite lookup_insert_ne by exact H1;
          now rewrite lookup_singleton_eq|].
  split; [rewrite lookup_insert_ne by exact H3;
          rewrite lookup_singleton_ne by congruence; reflexivity|].
  split; [intros op p; reflexivity | reflexivity].
Qed.

Lemma rotation_above_threshold_witness :
  exists disk' st,
    logToFile IndexJs sample_env 1000 "SESSION_START" (Json.str "x")
      disk_above_threshold = (Fs.Ok true, disk') /\
    Fs.statSync (Path.join "/tmp/logs" (logFileName "SESSION_START" 1000))
      (Fs.flush 1000 disk') = (Fs.Ok st, Fs.flush 1000 disk') /\
    Fs.st_size st =
      byte_length (logEntry sample_env 1000 "SESSION_START" (Json.str "x")).
Proof.
  unfold disk_above_threshold.
  assert (Hbig : MAX_LOG_FILE_SIZE < byte_length (String "y" ten_MiB_of_x))
    by (rewrite byte_length_String, byte_length_ten_MiB; lia).
  revert Hbig. generalize (String "y" ten_MiB_of_x). intros big Hbig.
  destruct (sample_disk_facts big) as (H1 & H2 & H3 & H4 & H5).
  destruct (rotation_above_threshold IndexJs sample_env 1000 "SESSION_START"
              (Json.str "x") (disk_with_log big) big sample_times
              eq_refl eq_refl H1 Hbig H2 H3 H4 H5)
    as (disk' & Hrun & _ & _ & st & Hst & Hsz).
  exists disk', st. split; [exact Hrun|]. split; [exact Hst | exact Hsz].
Defined.

(** C7, as worded, fails at the threshold itself: a log file of exactly
    10485760 bytes is not rotated, and the entry is appended to it. *)
Lemma rotation_at_threshold_fails : ~ claim_rotation_at_or_above_threshold.
Proof.
  intros H.
  pose proof byte_length_ten_MiB as Hbig.
  revert Hbig. generalize ten_MiB_of_x. intros big Hbig.
  destruct (sample_disk_facts big) as (H1 & H2 & H3 & H4 & H5).
  assert (Hle : MAX_LOG_FILE_SIZE <= byte_length big) by lia.
  assert (Hge : byte_length big <= MAX_LOG_FILE_SIZE) by lia.
  destruct (H sample_env 1000 "SESSION_START" (Json.str "x")
              (disk_with_log big) big sample_times
              eq_refl eq_refl H1 Hle H2 H3 H4 H5)
    as (disk' & st & Hrun & Hst & Hsz).
  rewrite (no_rotation_up_to_threshold sample_env 1000 "SESSION_START"
             (Json.str "x") (disk_with_log big) big sample_times
             eq_refl eq_refl H1 Hge H4) in Hrun.
  apply (f_equal snd) in Hrun. cbv beta in Hrun. cbn [snd] in Hrun.
  subst disk'.
  unfold Fs.statSync in Hst.
  change (Fs.fault _ Fs.OpStat _) with false in Hst.
  cbn [Fs.nodes Fs.with_nodes] in Hst.
  rewrite lookup_insert_eq in Hst.
  apply (f_equal (fun r => match fst r with
                           | Fs.Ok a => Fs.st_size a
                           | Fs.Throw _ => 0
                           end)) in Hst.
  cbv beta in Hst. cbn [fst Fs.stat_of Fs.st_size] in Hst.
  rewrite <- Hst, byte_length_app, Hbig in Hsz.
  unfold MAX_LOG_FILE_SIZE in Hsz. lia.
Qed.

(** ** The log routes *)

Lemma In_insert_desc (x y : LogInfo) (l : list LogInfo) :
  In x (insert_desc y l) <-> x = y \/ In x l.
Proof.
  induction l as [|z l IH]; simpl; [intuition|].
  destruct (l_lastModified z <? l_lastModified y); simpl; [intuition|].
  rewrite IH. intuition.
Qed.

Lemma In_sort_desc (x : LogInfo) (l : list LogInfo) :
  In x (sort_desc l) <-> In x l.
Proof.
  unfold sort_desc.
  assert (H : forall acc, In x (fold_left (fun a y => insert_desc y a) l acc)
                          <-> In x l \/ In x acc).
  { induction l as [|y l IH]; intros acc; simpl; [intuition|].
    rewrite IH, In_insert_desc. intuition. }
  rewrite H. simpl. intuition.
Qed.

Lemma mapM_log_info_names v env (l : list string) disk infos disk' :
  mapM (log_info v env) l disk = (Fs.Ok infos, disk') ->
  List.map l_name infos = l.
Proof.
  revert disk infos disk'.
  induction l as [|x l IH]; intros disk infos disk'; cbn [mapM].
  - unfold Fs.ret. intros [= <- _]. reflexivity.
  - unfold Fs.bind at 1. unfold log_info at 1. unfold Fs.bind at 1.
    destruct (Fs.statSync (Path.join (LOGS_DIR v env) x) disk)
      as [[st|err] disk1]; [|discriminate].
    unfold Fs.ret at 1. unfold Fs.bind at 1.
    destruct (mapM (log_info v env) l disk1) as [[ys|err] disk2] eqn:E;
      [|discriminate].
    unfold Fs.ret. intros [= <- _]. cbn. f_equal. exact (IH _ _ _ E).
Qed.






(** *** C10 *)



Example list_after_rotation :
  exists r,
    listLogs IndexJs sample_env disk_with_backup = (Fs.Ok r, disk_with_backup) /\
    payload r =
    PLogs [{| l_name := "SESSION_START_1970-01-01.log"; l_sizeBytes := 9;
              l_lastModified := 0; l_created := 0 |}] 9.
Proof. eexists. split; vm_compute; reflexivity. Qed.

(** *** C8 *)

Lemma inside_startsWith (root p : string) :
  inside root p = true -> startsWith p root = true.
Proof.
  unfold inside, startsWith. rewrite orb_true_iff. intros [H | H].
  - apply String.eqb_eq in H. subst p.
    rewrite <- (string_app_nil_r root) at 2. apply prefix_app.
  - eapply prefix_trans; [apply (prefix_app root "/") | exact H].
Qed.

Lemma normalize_nonempty (p : string) : Path.normalize p <> "".
Proof.
  unfold Path.normalize.
  destruct (String.eqb p ""); [discriminate|].
  destruct (String.eqb_spec (Path.normalizeString p (negb (Path.isAbsolute p))) "")
    as [E|E].
  - destruct (Path.isAbsolute p); [discriminate|].
    destruct (endsWith p "/"); discriminate.
  - destruct (Path.isAbsolute p); [discriminate|].
    destruct (endsWith p "/"); [|exact E].
    intros H. apply string_app_eq_nil in H. discriminate H.
Qed.

Lemma LOGS_DIR_nonempty (v : Variant) (env : Env) : LOGS_DIR v env <> "".
Proof.
  assert (Hd : forall a, Path.join a "logs" <> "").
  { intros a. unfold Path.join.
    destruct (String.eqb a ""); cbn [String.eqb]; apply normalize_nonempty. }
  unfold LOGS_DIR.
  destruct (env_LOGS_DIR env) as [d|]; [|destruct v; apply Hd].
  destruct (String.eqb_spec d ""); [destruct v; apply Hd | assumption].
Qed.

Lemma fold_norm_empty (a : bool) (l1 l2 st : list string) :
  fold_left (Path.norm_step a) (l1 ++ "" :: l2) st =
  fold_left (Path.norm_step a) (l1 ++ l2) st.
Proof. now rewrite !fold_left_app. Qed.

(** A doubled separator does not show in a joined path: a name that is
    an absolute path lands below the directory it is joined to. *)
Lemma join_leading_slash (L rest : string) :
  L <> "" -> rest <> "" ->
  Path.join L (String "/" rest) = Path.join L rest.
Proof.
  intros HL Hrest. unfold Path.join.
  destruct (String.eqb_spec L "") as [|_]; [contradiction|].
  destruct (String.eqb_spec rest "") as [|_]; [contradiction|].
  change (String.eqb (String "/" rest) "") with false. cbv iota.
  unfold Path.normalize.
  assert (Hne : forall x, String.eqb (L ++ x) "" = false).
  { intros x. destruct L; [contradiction | reflexivity]. }
  assert (Habs : forall x, Path.isAbsolute (L ++ x) = Path.isAbsolute L).
  { intros x. destruct L as [|c L]; [contradiction|].
    rewrite app_String. reflexivity. }
  rewrite !Hne, !Habs.
  assert (Hend : endsWith (L ++ "/" ++ String "/" rest) "/" =
                 endsWith (L ++ "/" ++ rest) "/").
  { change (L ++ "/" ++ String "/" rest) with (L ++ "//" ++ rest).
    rewrite <- !string_app_assoc, !(endsWith_slash_app _ _ Hrest).
    reflexivity. }
  assert (Hns : forall a,
             Path.normalizeString (L ++ "/" ++ String "/" rest) a =
             Path.normalizeString (L ++ "/" ++ rest) a).
  { intros a. unfold Path.normalizeString.
    change (L ++ "/" ++ String "/" rest)
      with (L ++ String "/" ("" ++ String "/" rest)).
    change (L ++ "/" ++ rest) with (L ++ String "/" rest).
    rewrite !split_on_app. cbn [split_on app].
    now rewrite fold_norm_empty. }
  now rewrite Hend, Hns.
Qed.

(** What [readLog] reads: nothing, or the joined path and then only past
    the guard. *)
Lemma readLog_reads
    (v : Variant) (env : Env) (disk : Fs.t) (logFile decoded : string) :
  Uri.decodeURIComponent logFile = Some decoded ->
  exists r disk',
    readLog v env logFile disk = (Fs.Ok r, disk') /\
    (Fs.reads disk' = Fs.reads disk \/
     (Fs.reads disk' =
        (Fs.reads disk ++ [Path.join (LOGS_DIR v env) decoded])%list /\
      startsWith (Path.join (LOGS_DIR v env) decoded)
        (Path.resolve (cwd env) (LOGS_DIR v env)) = true)).
Proof.
  intros Hd.
  set (root := Path.resolve (cwd env) (LOGS_DIR v env)).
  set (logPath := Path.join (LOGS_DIR v env) decoded).
  assert (Hunfold :
    readLog v env logFile disk =
    Fs.try_catch
      (if negb (startsWith logPath root)
       then Fs.ret (respond_error 403 "Acceso denegado")
       else
         (let* fs0 := Fs.get in
          if negb (Fs.existsSync logPath fs0) || negb (endsWith logFile ".log")
          then Fs.ret (respond_error 404 "Archivo de log no encontrado")
          else
            let* content := Fs.readFileSync logPath in
            let* st := Fs.statSync logPath in
            let* st' := Fs.statSync logPath in
            Fs.ret (respond_ok
                      (PLogContent decoded
                         (List.filter
                            (fun line => negb (String.eqb (trim line) ""))
                            (split_on "010"%char (trim content)))
                         (Fs.st_size st) (Fs.st_mtime st')))))
      (fun _ => Fs.ret (respond_error 500 "Error leyendo el archivo de log"))
      disk).
  { unfold readLog, Fs.try_catch, decode. unfold Fs.bind at 1.
    rewrite Hd. reflexivity. }
  rewrite Hunfold. clear Hunfold.
  destruct (startsWith logPath root) eqn:Hg; cbn [negb].
  - unfold Fs.try_catch, Fs.bind, Fs.get.
    destruct (negb (Fs.existsSync logPath disk) ||
              negb (endsWith logFile ".log")).
    + unfold Fs.ret. eexists _, _. split; [reflexivity | now left].
    + assert (Hrd : forall x d1, Fs.readFileSync logPath disk = (x, d1) ->
                (exists c, x = Fs.Ok c /\
                           Fs.reads d1 = (Fs.reads disk ++ [logPath])%list) \/
                (exists err, x = Fs.Throw err /\ d1 = disk)).
      { unfold Fs.readFileSync. intros x d1.
        destruct (Fs.fault disk Fs.OpRead logPath);
          [intros [= <- <-]; right; eauto|].
        destruct (Fs.nodes disk !! logPath) as [[c tm|sz tm]|];
          intros [= <- <-]; [left|right|right]; eauto. }
      assert (Hst : forall d0 x d1, Fs.statSync logPath d0 = (x, d1) -> d1 = d0).
      { unfold Fs.statSync. intros d0 x d1.
        destruct (Fs.fault d0 Fs.OpStat logPath); [now intros [= _ <-]|].
        destruct (Fs.nodes d0 !! logPath); now intros [= _ <-]. }
      destruct (Fs.readFileSync logPath disk) as [x d1] eqn:E1.
      destruct (Hrd _ _ eq_refl) as [(c & -> & Hreads) | (err & -> & ->)].
      * destruct (Fs.statSync logPath d1) as [x2 d2] eqn:E2.
        apply Hst in E2. subst d2.
        destruct x2 as [st|err].
        -- destruct (Fs.statSync logPath d1) as [x3 d3] eqn:E3.
           apply Hst in E3. subst d3.
           destruct x3 as [st'|err]; unfold Fs.ret;
             eexists _, _; (split; [reflexivity | right; auto]).
        -- unfold Fs.ret. eexists _, _. split; [reflexivity | right; auto].
      * unfold Fs.ret. eexists _, _. split; [reflexivity | now left].
  - unfold Fs.try_catch, Fs.ret. eexists _, _. split; [reflexivity | now left].
Qed.

(** C8, as amended.  For a log-read request whose file name decodes, the
    path looked up being the file name joined to the log directory: when
    that path is outside the log root, as for ["../../etc/passwd"], the
    answer is 403 and no file is read; when it is the log root or lies
    below it and no such file exists, the answer is 404 and no file is
    read; and the one file a request can read is that path, inside the log
    root.  A name that is an absolute path is no escape: it is joined below
    the log directory exactly as the same name without its leading slash.
    All of this leaves aside the paths outside the log root whose text
    begins with the text of the root's path ([prefix_sibling]). *)
Theorem read_denies_escapes_and_misses
    (v : Variant) (env : Env) (disk : Fs.t) (logFile decoded : string) :
  Uri.decodeURIComponent logFile = Some decoded ->
  (inside (Path.resolve (cwd env) (LOGS_DIR v env))
     (Path.join (LOGS_DIR v env) decoded) = false ->
   prefix_sibling (Path.resolve (cwd env) (LOGS_DIR v env))
     (Path.join (LOGS_DIR v env) decoded) = false ->
   readLog v env logFile disk =
   (Fs.Ok (respond_error 403 "Acceso denegado"), disk)) /\
  (inside (Path.resolve (cwd env) (LOGS_DIR v env))
     (Path.join (LOGS_DIR v env) decoded) = true ->
   Fs.existsSync (Path.join (LOGS_DIR v env) decoded) disk = false ->
   readLog v env logFile disk =
   (Fs.Ok (respond_error 404 "Archivo de log no encontrado"), disk)) /\
  (prefix_sibling (Path.resolve (cwd env) (LOGS_DIR v env))
     (Path.join (LOGS_DIR v env) decoded) = false ->
   exists r disk',
     readLog v env logFile disk = (Fs.Ok r, disk') /\
     (Fs.reads disk' = Fs.reads disk \/
      (Fs.reads disk' =
         (Fs.reads disk ++ [Path.join (LOGS_DIR v env) decoded])%list /\
       inside (Path.resolve (cwd env) (LOGS_DIR v env))
         (Path.join (LOGS_DIR v env) decoded) = true))) /\
  (forall rest,
     rest <> "" -> decoded = String "/" rest ->
     Path.join (LOGS_DIR v env) decoded = Path.join (LOGS_DIR v env) rest).
Proof.
  intros Hd.
  set (root := Path.resolve (cwd env) (LOGS_DIR v env)).
  set (logPath := Path.join (LOGS_DIR v env) decoded).
  assert (Hunfold :
    readLog v env logFile disk =
    Fs.try_catch
      (if negb (startsWith logPath root)
       then Fs.ret (respond_error 403 "Acceso denegado")
       else
         (let* fs0 := Fs.get in
          if negb (Fs.existsSync logPath fs0) || negb (endsWith logFile ".log")
          then Fs.ret (respond_error 404 "Archivo de log no encontrado")
          else
            let* content := Fs.readFileSync logPath in
            let* st := Fs.statSync logPath in
            let* st' := Fs.statSync logPath in
            Fs.ret (respond_ok
                      (PLogContent decoded
                         (List.filter
                            (fun line => negb (String.eqb (trim line) ""))
                            (split_on "010"%char (trim content)))
                         (Fs.st_size st) (Fs.st_mtime st')))))
      (fun _ => Fs.ret (respond_error 500 "Error leyendo el archivo de log"))
      disk).
  { unfold readLog, Fs.try_catch, decode. unfold Fs.bind at 1.
    rewrite Hd. reflexivity. }
  split; [|split; [|split]].
  - intros Hout Hsib. rewrite Hunfold. unfold prefix_sibling in Hsib.
    fold root logPath in Hsib. rewrite Hout, andb_true_r in Hsib.
    rewrite Hsib. reflexivity.
  - intros Hin Hex. rewrite Hunfold. rewrite (inside_startsWith _ _ Hin).
    unfold Fs.try_catch, Fs.bind, Fs.get. cbn [negb]. now rewrite Hex.
  - intros Hsib.
    destruct (readLog_reads v env disk logFile decoded Hd)
      as (r & disk' & Hrun & Hreads).
    exists r, disk'. split; [exact Hrun|].
    destruct Hreads as [Hsame | [Hnew Hg]]; [now left | right].
    split; [exact Hnew|].
    change (startsWith logPath root = true) in Hg.
    unfold prefix_sibling in Hsib. rewrite Hg in Hsib. cbn [andb] in Hsib.
    now apply negb_false_iff in Hsib.
  - intros rest Hrest ->.
    apply join_leading_slash; [apply LOGS_DIR_nonempty | exact Hrest].
Qed.

Lemma read_denies_escapes_and_misses_witness :
  readLog IndexJs sample_env "..%2F..%2Fetc%2Fpasswd" sample_disk =
  (Fs.Ok (respond_error 403 "Acceso denegado"), sample_disk) /\
  readLog IndexJs sample_env "missing.log" sample_disk =
  (Fs.Ok (respond_error 404 "Archivo de log no encontrado"), sample_disk) /\
  (exists r disk',
     readLog IndexJs sample_env "a.log" disk_with_records = (Fs.Ok r, disk') /\
     (Fs.reads disk' = Fs.reads disk_with_records \/
      (Fs.reads disk' =
         (Fs.reads disk_with_records ++
          [Path.join (LOGS_DIR IndexJs sample_env) "a.log"])%list /\
       inside (Path.resolve (cwd sample_env) (LOGS_DIR IndexJs sample_env))
         (Path.join (LOGS_DIR IndexJs sample_env) "a.log") = true))) /\
  Path.join (LOGS_DIR IndexJs sample_env) "/etc/passwd"
  = Path.join (LOGS_DIR IndexJs sample_env) "etc/passwd".
Proof.
  split; [|split; [|split]].
  - apply (read_denies_escapes_and_misses IndexJs sample_env sample_disk
             "..%2F..%2Fetc%2Fpasswd" "../../etc/passwd").
    + vm_compute. reflexivity.
    + vm_compute. reflexivity.
    + vm_compute. reflexivity.
  - apply (read_denies_escapes_and_misses IndexJs sample_env sample_disk
             "missing.log" "missing.log").
    + vm_compute. reflexivity.
    + vm_compute. reflexivity.
    + vm_compute. reflexivity.
  - apply (read_denies_escapes_and_misses IndexJs sample_env
             disk_with_records "a.log" "a.log").
    + vm_compute. reflexivity.
    + vm_compute. reflexivity.
  - apply (read_denies_escapes_and_misses IndexJs sample_env sample_disk
             "%2Fetc%2Fpasswd" "/etc/passwd").
    + vm_compute. reflexivity.
    + discriminate.
    + reflexivity.
Defined.

(** C8, as worded, fails: the absolute name ["/etc/passwd"] is looked for
    below the log directory and answered 404. *)
Lemma absolute_name_denied_fails : ~ claim_absolute_name_denied.
Proof.
  intros H.
  destruct (H IndexJs sample_env sample_disk "/etc/passwd" eq_refl eq_refl)
    as (r & disk' & Hr & Hs).
  vm_compute in Hr. injection Hr as <- _. discriminate Hs.
Qed.

(** The guard compares texts: a directory next to the log directory whose
    name starts with the name of the log directory passes it, and a file
    in it is served. *)
Lemma sibling_directory_is_served :
  inside (Path.resolve (cwd sample_env) (LOGS_DIR IndexJs sample_env))
    (Path.join (LOGS_DIR IndexJs sample_env) "../logs-old/a.log") = false /\
  exists r disk',
    readLog IndexJs sample_env "..%2Flogs-old%2Fa.log" disk_with_sibling
    = (Fs.Ok r, disk') /\
    status r = 200 /\
    payload r = PLogContent "../logs-old/a.log" ["secret"] 6 0 /\
    Fs.reads disk' = ["/tmp/logs-old/a.log"].
Proof.
  split; [vm_compute; reflexivity|].
  eexists. eexists. split; [vm_compute; reflexivity|].
  repeat split.
Qed.

(** ** Eviction *)

Lemma isValid_get (id : string) (w : World) :
  isValid id w = false <-> smap_get id (sessions (stats w)) = None.
Proof.
  unfold isValid, Map_has, Map_get.
  destruct (smap_get id (sessions (stats w))); split; congruence.
Qed.

Lemma fold_evict (l : list (Z * string)) (w : World) :
  counters (stats (fold_left (fun acc tm => evict (snd tm) acc) l w))
  = counters (stats w) /\
  serverStartTime (stats (fold_left (fun acc tm => evict (snd tm) acc) l w))
  = serverStartTime (stats w) /\
  lastUpdated (stats (fold_left (fun acc tm => evict (snd tm) acc) l w))
  = lastUpdated (stats w) /\
  timers (fold_left (fun acc tm => evict (snd tm) acc) l w) = timers w /\
  fs (fold_left (fun acc tm => evict (snd tm) acc) l w) = fs w /\
  (forall id,
     smap_get id (sessions (stats w)) = None ->
     smap_get id
       (sessions (stats (fold_left (fun acc tm => evict (snd tm) acc) l w)))
     = None) /\
  (forall due id,
     In (due, id) l ->
     smap_get id
       (sessions (stats (fold_left (fun acc tm => evict (snd tm) acc) l w)))
     = None) /\
  (forall id,
     (forall due, ~ In (due, id) l) ->
     smap_get id
       (sessions (stats (fold_left (fun acc tm => evict (snd tm) acc) l w)))
     = smap_get id (sessions (stats w))).
Proof.
  revert w. induction l as [|[d k] l IH]; intros w; cbn [fold_left].
  - repeat split; auto. intros due id [].
  - destruct (IH (evict k w)) as (H1 & H2 & H3 & H4 & H5 & H6 & H7 & H8).
    cbn [snd] in *.
    split; [exact H1|]. split; [exact H2|]. split; [exact H3|].
    split; [exact H4|]. split; [exact H5|].
    assert (Hdel : forall id, smap_get id (sessions (stats w)) = None ->
                              smap_get id (sessions (stats (evict k w))) = None).
    { intros id Hn. unfold evict. cbn.
      destruct (String.eqb_spec id k) as [->|Hne].
      - apply smap_get_delete_eq.
      - now rewrite smap_get_delete_ne. }
    split; [|split].
    + intros id Hn. apply H6, Hdel, Hn.
    + intros due id [[= -> ->] | Hin].
      * apply H6. unfold evict. cbn. apply smap_get_delete_eq.
      * eapply H7, Hin.
    + intros id Hnot. rewrite H8.
      * unfold evict. cbn. apply smap_get_delete_ne.
        intros ->. apply (Hnot d). now left.
      * intros due Hin. apply (Hnot due). now right.
Qed.

(** Running the due timers changes no counter of the process. *)
Lemma settle_keeps_counters (t : Z) (w : World) :
  counters (stats (settle t w)) = counters (stats w) /\
  serverStartTime (stats (settle t w)) = serverStartTime (stats w) /\
  lastUpdated (stats (settle t w)) = lastUpdated (stats w).
Proof.
  unfold settle, run_timers. cbn [stats with_fs].
  destruct (fold_evict (List.filter (fun tm => fst tm <=? t) (timers w))
              {| stats := stats w; fs := fs w;
                 timers := List.filter (fun tm => negb (fst tm <=? t))
                             (timers w) |})
    as (H1 & H2 & H3 & _).
  auto.
Qed.

Lemma settle_preserves_pending (limit : Z) (id : string) (t : Z) (w : World) :
  eviction_pending limit id w -> eviction_pending limit id (settle t w).
Proof.
  unfold eviction_pending, settle, run_timers. cbn [stats timers with_fs].
  set (due := List.filter (fun tm => fst tm <=? t) (timers w)).
  set (rest := List.filter (fun tm => negb (fst tm <=? t)) (timers w)).
  destruct (fold_evict due {| stats := stats w; fs := fs w; timers := rest |})
    as (_ & _ & _ & Ht & _ & Hnone & Hfired & _).
  cbn [stats timers] in *.
  intros [Hn | (d & Hd & Hin)].
  - left. now apply Hnone.
  - destruct (Z.leb_spec d t) as [Hle | Hgt].
    + left. apply (Hfired d). unfold due. apply filter_In. split; [exact Hin|].
      cbn. now apply Z.leb_le.
    + right. exists d. split; [exact Hd|]. rewrite Ht. unfold rest.
      apply filter_In. split; [exact Hin|]. cbn.
      apply negb_true_iff, Z.leb_gt. lia.
Qed.

Lemma settle_evicts_when_due (limit : Z) (id : string) (t : Z) (w : World) :
  eviction_pending limit id w -> limit <= t ->
  isValid id (settle t w) = false.
Proof.
  unfold eviction_pending, settle, run_timers. rewrite isValid_get.
  cbn [stats timers with_fs].
  set (due := List.filter (fun tm => fst tm <=? t) (timers w)).
  set (rest := List.filter (fun tm => negb (fst tm <=? t)) (timers w)).
  destruct (fold_evict due {| stats := stats w; fs := fs w; timers := rest |})
    as (_ & _ & _ & _ & _ & Hnone & Hfired & _).
  cbn [stats timers] in *.
  intros [Hn | (d & Hd & Hin)] Ht.
  - now apply Hnone.
  - apply (Hfired d). unfold due. apply filter_In. split; [exact Hin|].
    cbn. apply Z.leb_le. lia.
Qed.

Lemma route_preserves_pending (limit : Z) (id : string) k v env now b w :
  eviction_pending limit id w ->
  eviction_pending limit id (snd (route k v env now b w)).
Proof.
  intros Hp.
  destruct k; cbn [route];
    unfold recordDetection, recordInteraction, endSession;
    (destruct (validateSession v b w) eqn:Hv; [exact Hp|]);
    destruct (validateSession_pass _ _ _ Hv) as (key & s0 & Hk & Hg);
    rewrite Hk; cbn [Map_get key_text]; rewrite Hg; cbn [snd];
    try destruct v;
    (destruct Hp as [Hn | (d & Hd & Hin)];
     [left; cbn;
      rewrite smap_get_set_ne by (intros ->; congruence); exact Hn
     |right; exists d; split; [exact Hd|]; cbn;
      try (apply in_or_app; left); exact Hin]).
Qed.

Lemma step_preserves_pending (limit : Z) (id : string) v env ev w :
  (forall c, snd ev = ReqStart c -> newSessionId (fst ev) c <> id) ->
  eviction_pending limit id w ->
  eviction_pending limit id (snd (step v env ev w)).
Proof.
  intros Hfresh Hp. unfold step.
  pose proof (settle_preserves_pending limit id (fst ev) w Hp) as Hp1.
  set (w1 := settle (fst ev) w) in *. clearbody w1. clear Hp.
  destruct ev as [t [c|b|b|b| | |f]]; cbn [fst snd handle] in *.
  - specialize (Hfresh c eq_refl). unfold startSession. cbn [snd].
    destruct Hp1 as [Hn | (d & Hd & Hin)].
    + left. cbn. rewrite smap_get_set_ne by congruence. exact Hn.
    + right. exists d. split; [exact Hd | exact Hin].
  - now apply (route_preserves_pending limit id Detection).
  - now apply (route_preserves_pending limit id Interaction).
  - now apply (route_preserves_pending limit id End).
  - exact Hp1.
  - unfold on_fs. destruct (listLogs v env (fs w1)) as [[r|e] f]; exact Hp1.
  - unfold on_fs. destruct (readLog v env f (fs w1)) as [[r|e] f']; exact Hp1.
Qed.

Lemma run_preserves_pending (limit : Z) (id : string) v env evs w :
  never_reissued id evs ->
  eviction_pending limit id w ->
  eviction_pending limit id (run v env evs w).
Proof.
  revert w. induction evs as [|ev evs IH]; intros w Hfresh Hp; [exact Hp|].
  cbn [run fold_left]. apply IH.
  - intros t c Hin. apply Hfresh. now right.
  - apply step_preserves_pending; [|exact Hp].
    intros c Hc. destruct ev as [t r]. cbn in *. subst r.
    apply Hfresh. now left.
Qed.

Lemma endSession_schedules (env : Env) (T : Z) (b : Body) (w : World) :
  status (fst (endSession ServerJs env T b w)) = 200 ->
  eviction_pending (T + EVICTION_DELAY) (key_text (b_sessionId b))
    (snd (endSession ServerJs env T b w)).
Proof.
  unfold endSession.
  destruct (validateSession ServerJs b w) as [r|] eqn:Hv.
  - unfold validateSession in Hv.
    destruct (negb (ToBoolean (b_sessionId b)));
      [injection Hv as <-; discriminate|].
    destruct (negb (Map_has (b_sessionId b) (sessions (stats w))));
      [injection Hv as <-; discriminate | discriminate].
  - destruct (validateSession_pass _ _ _ Hv) as (key & s0 & Hk & Hg).
    rewrite Hk. cbn [Map_get key_text]. rewrite Hg. cbn [snd fst]. intros _.
    right. exists (T + EVICTION_DELAY). split; [lia|].
    cbn. apply in_or_app. right. now left.
Qed.

(** [api/index.js] sets no timer, and nothing else deletes a session. *)
Lemma smap_set_keeps (id k : string) (s : Session) (m : SessionMap) :
  smap_get id m <> None -> smap_get id (smap_set k s m) <> None.
Proof.
  intros H. destruct (String.eqb_spec id k) as [->|Hne].
  - now rewrite smap_get_set_eq.
  - now rewrite smap_get_set_ne.
Qed.

Lemma settle_without_timers (t : Z) (w : World) :
  timers w = [] ->
  timers (settle t w) = [] /\ stats (settle t w) = stats w.
Proof.
  unfold settle, run_timers. intros ->. cbn. auto.
Qed.

Lemma index_step_keeps_sessions (id : string) env ev w :
  timers w = [] ->
  smap_get id (sessions (stats w)) <> None ->
  timers (snd (step IndexJs env ev w)) = [] /\
  smap_get id (sessions (stats (snd (step IndexJs env ev w)))) <> None.
Proof.
  intros Ht Hs. unfold step.
  destruct (settle_without_timers (fst ev) w Ht) as [Ht1 Hs1].
  set (w1 := settle (fst ev) w) in *. clearbody w1.
  rewrite <- Hs1 in Hs. clear Hs1 Ht.
  destruct ev as [t [c|b|b|b| | |f]]; cbn [fst snd handle].
  - unfold startSession. cbn. split; [exact Ht1 | now apply smap_set_keeps].
  - unfold recordDetection.
    destruct (validateSession IndexJs b w1); [now split|].
    destruct (Map_get (b_sessionId b) (sessions (stats w1))); [|now split].
    cbn. split; [exact Ht1 | now apply smap_set_keeps].
  - unfold recordInteraction.
    destruct (validateSession IndexJs b w1); [now split|].
    destruct (Map_get (b_sessionId b) (sessions (stats w1))); [|now split].
    cbn. split; [exact Ht1 | now apply smap_set_keeps].
  - unfold endSession.
    destruct (validateSession IndexJs b w1); [now split|].
    destruct (Map_get (b_sessionId b) (sessions (stats w1))); [|now split].
    cbn. split; [exact Ht1 | now apply smap_set_keeps].
  - now split.
  - unfold on_fs. destruct (listLogs IndexJs env (fs w1)) as [[r|e] f0];
      now split.
  - unfold on_fs. destruct (readLog IndexJs env f (fs w1)) as [[r|e] f0];
      now split.
Qed.

Lemma index_never_evicts (id : string) env evs (t : Z) (w : World) :
  timers w = [] ->
  isValid id w = true ->
  isValid id (settle t (run IndexJs env evs w)) = true.
Proof.
  intros Ht Hv.
  assert (Hs : smap_get id (sessions (stats w)) <> None).
  { intros Hn. apply isValid_get in Hn. congruence. }
  clear Hv.
  assert (Hrun : timers (run IndexJs env evs w) = [] /\
                 smap_get id (sessions (stats (run IndexJs env evs w))) <> None).
  { revert w Ht Hs. induction evs as [|ev evs IH]; intros w Ht Hs;
      [now split|].
    cbn [run fold_left].
    destruct (index_step_keeps_sessions id env ev w Ht Hs) as [Ht1 Hs1].
    now apply IH. }
  destruct Hrun as [Ht' Hs'].
  destruct (settle_without_timers t _ Ht') as [_ Hst].
  unfold isValid, Map_has, Map_get. rewrite Hst.
  destruct (smap_get id (sessions (stats (run IndexJs env evs w))));
    [reflexivity | contradiction].
Qed.

(** *** C4 *)

(** C4, as amended.  In [api/server.js], ending a session at time [T] sets
    a timer of 60 seconds: whatever requests follow, as long as none opens
    a session under the same identifier, the session cannot be looked up
    at any time from [T] + 60 s on.  Running the timers leaves every
    counter of the global statistics as it is; [totalSessions] is not
    decremented.  [api/index.js] sets no timer: there a session that can be
    looked up, closed or not, can be looked up at every later time. *)
Theorem eviction_after_retention_delay (env : Env) :
  (forall T b w evs t,
     status (fst (endSession ServerJs env T b w)) = 200 ->
     never_reissued (key_text (b_sessionId b)) evs ->
     T + 60000 <= t ->
     isValid (key_text (b_sessionId b))
       (settle t (run ServerJs env evs (snd (endSession ServerJs env T b w))))
     = false) /\
  (forall t w,
     counters (stats (settle t w)) = counters (stats w) /\
     totalSessions (stats (settle t w)) = totalSessions (stats w)) /\
  (forall id evs t w,
     timers w = [] ->
     isValid id w = true ->
     isValid id (settle t (run IndexJs env evs w)) = true).
Proof.
  split; [|split].
  - intros T b w evs t H200 Hfresh Ht.
    apply (settle_evicts_when_due (T + EVICTION_DELAY)); [|exact Ht].
    apply run_preserves_pending; [exact Hfresh|].
    now apply endSession_schedules.
  - intros t w. destruct (settle_keeps_counters t w) as (Hc & _).
    split; [exact Hc|]. unfold counters in Hc. congruence.
  - intros id evs t w. apply index_never_evicts.
Qed.

Lemma eviction_after_retention_delay_witness :
  isValid sample_id
    (settle 72000
       (run ServerJs sample_env
          [(20000, ReqInteraction
                     (interaction_body (JStr sample_id) (JStr "slider")
                        (JNum 3)));
           (30000, ReqStats)]
          (snd (endSession ServerJs sample_env 12000
                  (body_for (JStr sample_id)) (world_open ServerJs)))))
  = false.
Proof.
  destruct (eviction_after_retention_delay sample_env) as (H & _).
  apply (H 12000 (body_for (JStr sample_id)) (world_open ServerJs)).
  - vm_compute. reflexivity.
  - intros t c [E | [E | []]]; discriminate E.
  - lia.
Defined.

(** C4, as worded, fails for [api/index.js]: a session closed at 12 s can
    still be looked up at 72 s. *)
Lemma closed_session_is_evicted_fails : ~ claim_closed_session_is_evicted.
Proof.
  intros H.
  specialize (H IndexJs sample_env 12000 (body_for (JStr sample_id))
                (world_open IndexJs)).
  assert (H200 : status (fst (endSession IndexJs sample_env 12000
                                (body_for (JStr sample_id))
                                (world_open IndexJs))) = 200)
    by (vm_compute; reflexivity).
  specialize (H H200 72000).
  assert (Ht : 12000 + EVICTION_DELAY <= 72000) by (vm_compute; discriminate).
  specialize (H Ht). vm_compute in H. discriminate H.
Qed.


(** ** The draft and the variant: requests that name no session *)

Lemma draft_route_without_id (k : SessionRoute) (env : Env) (now : Z)
    (b : Body) (w : Draft.World) :
  ToBoolean (b_sessionId b) = false ->
  Draft.route k env now b w = (Draft.bad_request, w).
Proof.
  intros Hf.
  destruct k; cbn [Draft.route];
    unfold Draft.recordDetection, Draft.recordInteraction, Draft.endSession;
    rewrite Hf; reflexivity.
Qed.

Lemma draft_route_unknown_id (k : SessionRoute) (env : Env) (now : Z)
    (b : Body) (w : Draft.World) :
  ToBoolean (b_sessionId b) = true ->
  Draft.find_session (b_sessionId b) (Draft.sessions (Draft.stats w)) = None ->
  Draft.status (fst (Draft.route k env now b w)) = 200 /\
  Draft.success (fst (Draft.route k env now b w)) = true /\
  Draft.stats (snd (Draft.route k env now b w)) = Draft.stats w /\
  exists eventType data,
    Draft.fs (snd (Draft.route k env now b w))
    = snd (Draft.logToFile env now eventType data (Draft.fs w)).
Proof.
  intros Ht Hn.
  destruct k; cbn [Draft.route];
    unfold Draft.recordDetection, Draft.recordInteraction, Draft.endSession;
    rewrite Ht, Hn; cbn [negb fst snd Draft.status Draft.success Draft.ok
                           Draft.log Draft.stats Draft.fs];
    (repeat split; eexists _, _; reflexivity).
Qed.

Lemma lite_guard_rejects (State Session : Type)
    (sessions : State -> list (string * Session))
    (handler : Body -> State -> Response * State) (b : Body) (st : State) :
  ToBoolean (b_sessionId b) = false \/
  Lite.has State Session sessions (b_sessionId b) st = false ->
  Lite.guarded State Session sessions handler b st
  = (respond_error 400 "Sesion invalida", st).
Proof.
  intros H. unfold Lite.guarded, Lite.validateSession.
  destruct H as [-> | ->]; [reflexivity|].
  now rewrite orb_true_r.
Qed.

(** ** The draft: filter lists *)

Lemma draft_update_first_Forall (P : Draft.Session -> Prop) (k : string)
    (f : Draft.Session -> Draft.Session) (l : list Draft.Session) :
  (forall s, P s -> P (f s)) ->
  List.Forall P l -> List.Forall P (Draft.update_first k f l).
Proof.
  intros Hf. induction 1 as [|s l Hs Hl IH]; simpl; [constructor|].
  destruct (String.eqb (Draft.sessionId s) k); constructor; auto.
Qed.

Lemma draft_update_Forall (P : Draft.Session -> Prop) (key : JsVal)
    (f : Draft.Session -> Draft.Session) (l : list Draft.Session) :
  (forall s, P s -> P (f s)) ->
  List.Forall P l -> List.Forall P (Draft.update key f l).
Proof.
  intros Hf Hl. destruct key; simpl; try exact Hl.
  now apply draft_update_first_Forall.
Qed.

Lemma draft_find_update (key : JsVal) (f : Draft.Session -> Draft.Session)
    (l : list Draft.Session) (s : Draft.Session) :
  (forall x, Draft.sessionId (f x) = Draft.sessionId x) ->
  Draft.find_session key l = Some s ->
  Draft.find_session key (Draft.update key f l) = Some (f s).
Proof.
  intros Hid. destruct key as [| | | |k]; simpl; try discriminate.
  induction l as [|x l IH]; simpl; [discriminate|].
  destruct (String.eqb (Draft.sessionId x) k) eqn:E.
  - intros [= ->]. simpl. now rewrite Hid, E.
  - intros H. simpl. rewrite E. now apply IH.
Qed.

Lemma draft_find_In (key : JsVal) (l : list Draft.Session)
    (s : Draft.Session) :
  Draft.find_session key l = Some s -> In s l.
Proof.
  destruct key; simpl; try discriminate.
  intros H. now apply find_some in H.
Qed.

Lemma draft_route_preserves_ok (k : SessionRoute) (env : Env) (now : Z)
    (b : Body) (w : Draft.World) :
  draft_ok w -> draft_ok (snd (Draft.route k env now b w)).
Proof.
  intros Hok. unfold draft_ok in *.
  destruct k; cbn [Draft.route];
    unfold Draft.recordDetection, Draft.recordInteraction, Draft.endSession;
    (destruct (ToBoolean (b_sessionId b)); cbn [negb]; [|exact Hok]);
    (destruct (Draft.find_session (b_sessionId b)
                 (Draft.sessions (Draft.stats w))) as [found|];
     [|exact Hok]);
    cbn [snd Draft.log Draft.stats Draft.sessions];
    (apply draft_update_Forall; [|exact Hok]);
    intros s Hs; cbn [Draft.filters]; try exact Hs.
  destruct (JsVal_eqb (b_widgetName b) (JStr "filterSelect")); cbn [andb];
    [|exact Hs].
  destruct (includes (Draft.filters s) (b_value b)) eqn:Hin; cbn [negb];
    [exact Hs|].
  apply NoDup_snoc; [exact Hs|].
  rewrite <- includes_In. now rewrite Hin.
Qed.

Lemma draft_run_preserves_ok (env : Env) (evs : list (Z * Draft.Request))
    (w : Draft.World) :
  draft_ok w -> draft_ok (Draft.run env evs w).
Proof.
  revert w. induction evs as [|[t r] evs IH]; intros w Hok; [exact Hok|].
  apply IH. destruct r as [c|k b]; cbn [fst snd Draft.handle].
  - unfold draft_ok, Draft.startSession.
    cbn [snd Draft.log Draft.stats Draft.sessions].
    apply Forall_app. split; [exact Hok|].
    repeat constructor.
  - now apply draft_route_preserves_ok.
Qed.

Lemma draft_interaction_filters (env : Env) (now : Z) (b : Body)
    (w : Draft.World) (s : Draft.Session) :
  ToBoolean (b_sessionId b) = true ->
  Draft.find_session (b_sessionId b) (Draft.sessions (Draft.stats w))
  = Some s ->
  exists s',
    Draft.find_session (b_sessionId b)
      (Draft.sessions (Draft.stats (snd (Draft.recordInteraction env now b w))))
    = Some s' /\
    Draft.filters s'
    = if JsVal_eqb (b_widgetName b) (JStr "filterSelect") &&
         negb (includes (Draft.filters s) (b_value b))
      then (Draft.filters s ++ [b_value b])%list
      else Draft.filters s.
Proof.
  intros Ht Hs. unfold Draft.recordInteraction. rewrite Ht, Hs.
  cbn [negb snd Draft.log Draft.stats Draft.sessions].
  eexists. split.
  - apply draft_find_update; [reflexivity | exact Hs].
  - reflexivity.
Qed.

(** *** C2 *)

(** C2, as it is worded, fails on the draft and on the variant.  On the
    draft a request for a session that was never opened is answered 200 with
    [success: true]; on the variant it is answered 400. *)
Lemma unknown_session_is_404_fails :
  ~ claim_draft_unknown_session_is_error /\
  ~ claim_lite_unknown_session_is_404.
Proof.
  split.
  - intros H.
    destruct (H Detection sample_env 5000 (body_for (JStr "nobody"))
                (Draft.initial_world 0 sample_disk)
                eq_refl eq_refl) as [H1 _].
    vm_compute in H1. discriminate.
  - intros H.
    specialize (H (list (string * unit)) unit (fun m => m)
                  (fun _ st => (respond_error 500 "Error interno", st))
                  (body_for (JStr "nobody")) [] eq_refl eq_refl).
    vm_compute in H. discriminate.
Qed.

(** C2, as amended.  For recordDetection, recordInteraction and
    endSession alike.
    In [api/index.js] and [api/server.js] a body without a usable
    [sessionId] (absent, or any other falsy value) is answered 400 and a
    [sessionId] that the store does not hold is answered 404; either answer
    has [success = false] and the process is left exactly as it was:
    sessions, global counters, timers and log files.
    In the cut-down variant the middleware answers both cases with 400 and
    [success = false], whatever the route behind it, and the state is left as
    it was.
    In the older draft a body without a usable [sessionId] is answered 400,
    not a success, and nothing changes; a [sessionId] that the array of
    sessions does not hold is no error there: the answer is 200 with
    [success: true], no session and no global counter changes, and the
    logger is called once. *)
Theorem session_errors_by_server :
  (forall (k : SessionRoute) (v : Variant) (env : Env) (now : Z) (b : Body)
          (w : World),
     (ToBoolean (b_sessionId b) = false ->
      status (fst (route k v env now b w)) = 400 /\
      success (fst (route k v env now b w)) = false /\
      snd (route k v env now b w) = w) /\
     (ToBoolean (b_sessionId b) = true ->
      session_of (b_sessionId b) w = None ->
      status (fst (route k v env now b w)) = 404 /\
      success (fst (route k v env now b w)) = false /\
      snd (route k v env now b w) = w)) /\
  (forall (State Session : Type)
          (sessions : State -> list (string * Session))
          (handler : Body -> State -> Response * State) (b : Body)
          (st : State),
     ToBoolean (b_sessionId b) = false \/
     Lite.has State Session sessions (b_sessionId b) st = false ->
     status (fst (Lite.guarded State Session sessions handler b st)) = 400 /\
     success (fst (Lite.guarded State Session sessions handler b st)) = false /\
     snd (Lite.guarded State Session sessions handler b st) = st) /\
  (forall (k : SessionRoute) (env : Env) (now : Z) (b : Body)
          (w : Draft.World),
     (ToBoolean (b_sessionId b) = false ->
      Draft.status (fst (Draft.route k env now b w)) = 400 /\
      Draft.success (fst (Draft.route k env now b w)) = false /\
      snd (Draft.route k env now b w) = w) /\
     (ToBoolean (b_sessionId b) = true ->
      Draft.find_session (b_sessionId b) (Draft.sessions (Draft.stats w))
      = None ->
      Draft.status (fst (Draft.route k env now b w)) = 200 /\
      Draft.success (fst (Draft.route k env now b w)) = true /\
      Draft.stats (snd (Draft.route k env now b w)) = Draft.stats w /\
      exists eventType data,
        Draft.fs (snd (Draft.route k env now b w))
        = snd (Draft.logToFile env now eventType data (Draft.fs w)))).
Proof.
  split; [|split].
  - apply api_session_errors.
  - intros State Session sessions handler b st H.
    rewrite (lite_guard_rejects State Session sessions handler b st H).
    repeat split.
  - intros k env now b w. split.
    + intros Hf. rewrite (draft_route_without_id k env now b w Hf).
      repeat split.
    + apply draft_route_unknown_id.
Qed.

Lemma session_errors_by_server_witness :
  (status (fst (route Detection IndexJs sample_env 5000 empty_body
                  (world_open IndexJs))) = 400 /\
   success (fst (route Detection IndexJs sample_env 5000 empty_body
                   (world_open IndexJs))) = false /\
   snd (route Detection IndexJs sample_env 5000 empty_body
          (world_open IndexJs)) = world_open IndexJs) /\
  (status (fst (route End ServerJs sample_env 5000 (body_for (JStr "nobody"))
                  (world_open ServerJs))) = 404 /\
   success (fst (route End ServerJs sample_env 5000 (body_for (JStr "nobody"))
                   (world_open ServerJs))) = false /\
   snd (route End ServerJs sample_env 5000 (body_for (JStr "nobody"))
          (world_open ServerJs)) = world_open ServerJs) /\
  (status (fst (Lite.guarded (list (string * unit)) unit (fun m => m)
                  (fun _ st => (respond_error 500 "Error interno", st))
                  (body_for (JStr "nobody")) [(sample_id, tt)])) = 400 /\
   success (fst (Lite.guarded (list (string * unit)) unit (fun m => m)
                   (fun _ st => (respond_error 500 "Error interno", st))
                   (body_for (JStr "nobody")) [(sample_id, tt)])) = false /\
   snd (Lite.guarded (list (string * unit)) unit (fun m => m)
          (fun _ st => (respond_error 500 "Error interno", st))
          (body_for (JStr "nobody")) [(sample_id, tt)]) = [(sample_id, tt)]) /\
  (Draft.status (fst (Draft.route Interaction sample_env 5000 empty_body
                        draft_open)) = 400 /\
   Draft.success (fst (Draft.route Interaction sample_env 5000 empty_body
                         draft_open)) = false /\
   snd (Draft.route Interaction sample_env 5000 empty_body draft_open)
   = draft_open) /\
  (Draft.status (fst (Draft.route Detection sample_env 5000
                        (body_for (JStr "nobody")) draft_open)) = 200 /\
   Draft.success (fst (Draft.route Detection sample_env 5000
                         (body_for (JStr "nobody")) draft_open)) = true /\
   Draft.stats (snd (Draft.route Detection sample_env 5000
                       (body_for (JStr "nobody")) draft_open))
   = Draft.stats draft_open /\
   exists eventType data,
     Draft.fs (snd (Draft.route Detection sample_env 5000
                      (body_for (JStr "nobody")) draft_open))
     = snd (Draft.logToFile sample_env 5000 eventType data
              (Draft.fs draft_open))).
Proof.
  destruct session_errors_by_server as (Hapi & Hlite & Hdraft).
  split; [|split; [|split; [|split]]].
  - apply (Hapi Detection IndexJs sample_env 5000 empty_body
             (world_open IndexJs)).
    reflexivity.
  - apply (Hapi End ServerJs sample_env 5000 (body_for (JStr "nobody"))
             (world_open ServerJs)).
    + reflexivity.
    + vm_compute. reflexivity.
  - apply (Hlite (list (string * unit)) unit (fun m => m)
             (fun _ st => (respond_error 500 "Error interno", st))
             (body_for (JStr "nobody")) [(sample_id, tt)]).
    right. vm_compute. reflexivity.
  - apply (Hdraft Interaction sample_env 5000 empty_body draft_open).
    reflexivity.
  - apply (Hdraft Detection sample_env 5000 (body_for (JStr "nobody"))
             draft_open).
    + reflexivity.
    + vm_compute. reflexivity.
Defined.

(** *** C5 *)

(** C5, as it is worded, fails on the draft: an interaction on
    [filterSelect] with the empty text as [value] appends it. *)
Lemma draft_appends_nonempty_only_fails :
  ~ claim_draft_appends_nonempty_only.
Proof.
  intros H.
  destruct (H sample_env 2000
              (interaction_body (JStr sample_id) (JStr "filterSelect")
                 (JStr ""))
              draft_open
              {| Draft.sessionId := sample_id; Draft.startTime := 1000;
                 Draft.userAgent := Some "curl/8.5";
                 Draft.ip := Some "203.0.113.7";
                 Draft.faceDetections := Draft.zero;
                 Draft.objectDetections := Draft.zero;
                 Draft.interactions := 0; Draft.filters := [];
                 Draft.endTime := None; Draft.duration := None |}
              {| Draft.sessionId := sample_id; Draft.startTime := 1000;
                 Draft.userAgent := Some "curl/8.5";
                 Draft.ip := Some "203.0.113.7";
                 Draft.faceDetections := Draft.zero;
                 Draft.objectDetections := Draft.zero;
                 Draft.interactions := 1; Draft.filters := [JStr ""];
                 Draft.endTime := None; Draft.duration := None |})
    as (_ & Hne & _).
  - vm_compute. reflexivity.
  - vm_compute. reflexivity.
  - reflexivity.
  - discriminate Hne.
Qed.

(** In [api/index.js] and [api/server.js] a [value] that is an array is
    stored again each time it is sent. *)
Lemma repeated_array_is_stored_twice :
  filters_after
    (filters_after [] (Json.str "filterSelect") (Json.Arr [Json.str "blur"]))
    (Json.str "filterSelect") (Json.Arr [Json.str "blur"])
  = [Json.Arr [Json.str "blur"]; Json.Arr [Json.str "blur"]].
Proof. reflexivity. Qed.

(** On primitive values [filters_after] is the step of [recordInteraction]. *)
Lemma filters_after_primitive (b : Body) (s : Session) :
  filters_after (List.map Json.Val (filters s)) (Json.Val (b_widgetName b))
    (Json.Val (b_value b))
  = List.map Json.Val
      (if pushes_filter b s then (filters s ++ [b_value b])%list
       else filters s).
Proof.
  unfold filters_after, pushes_filter, includes_parsed, includes, truthy_parsed.
  assert (E : existsb (fun y => match y with
                                | Json.Val q => JsVal_eqb (b_value b) q
                                | _ => false
                                end) (List.map Json.Val (filters s))
              = existsb (JsVal_eqb (b_value b)) (filters s)).
  { induction (filters s) as [|x l IH]; simpl; [reflexivity|].
    now rewrite IH. }
  rewrite E.
  destruct (_ && _ && _); [|reflexivity].
  now rewrite List.map_app.
Qed.

(** C5, as amended.  For a [value] that is a text, an integer, a
    boolean, [null] or absent.
    In [api/index.js] and [api/server.js], along every sequence of requests
    from process start the filter list of a session never holds the same
    value twice, and a recordInteraction call on a session that is present
    appends [value] to that list exactly when [widgetName] is
    ["filterSelect"], [value] is truthy (for a text: not the empty text) and
    [value] is not in the list yet; otherwise the list stays as it is.
    In the older draft, along every sequence of requests from process start
    the filter list of a session never holds the same value twice either,
    and a recordInteraction call on a session that is present appends
    [value] exactly when [widgetName] is ["filterSelect"] and [value] is not
    in the list yet, the empty text and an absent [value] included;
    otherwise the list stays as it is. *)
Theorem filters_distinct_by_server :
  (forall (v : Variant) (env : Env),
     (forall t0 disk evs key s,
        session_of key (run v env evs (initial_world t0 disk)) = Some s ->
        List.NoDup (filters s)) /\
     (forall now b w s,
        validateSession v b w = None ->
        session_of (b_sessionId b) w = Some s ->
        exists s',
          session_of (b_sessionId b) (snd (recordInteraction v env now b w))
          = Some s' /\
          (b_widgetName b = JStr "filterSelect" /\
           ToBoolean (b_value b) = true /\
           ~ In (b_value b) (filters s) ->
           filters s' = (filters s ++ [b_value b])%list) /\
          (~ (b_widgetName b = JStr "filterSelect" /\
              ToBoolean (b_value b) = true /\
              ~ In (b_value b) (filters s)) ->
           filters s' = filters s)) /\
     (forall x : string, ToBoolean (JStr x) = true <-> x <> "")) /\
  (forall (env : Env),
     (forall t0 disk evs s,
        In s (Draft.sessions
                (Draft.stats
                   (Draft.run env evs (Draft.initial_world t0 disk)))) ->
        List.NoDup (Draft.filters s)) /\
     (forall now b w s,
        ToBoolean (b_sessionId b) = true ->
        Draft.find_session (b_sessionId b) (Draft.sessions (Draft.stats w))
        = Some s ->
        exists s',
          Draft.find_session (b_sessionId b)
            (Draft.sessions
               (Draft.stats (snd (Draft.recordInteraction env now b w))))
          = Some s' /\
          (b_widgetName b = JStr "filterSelect" /\
           ~ In (b_value b) (Draft.filters s) ->
           Draft.filters s' = (Draft.filters s ++ [b_value b])%list) /\
          (~ (b_widgetName b = JStr "filterSelect" /\
              ~ In (b_value b) (Draft.filters s)) ->
           Draft.filters s' = Draft.filters s))).
Proof.
  split.
  - apply api_filters_distinct.
  - intros env. split.
    + intros t0 disk evs s Hin.
      assert (Hok : draft_ok (Draft.run env evs
                                (Draft.initial_world t0 disk))).
      { apply draft_run_preserves_ok. constructor. }
      unfold draft_ok in Hok. rewrite List.Forall_forall in Hok.
      now apply Hok.
    + intros now b w s Ht Hs.
      destruct (draft_interaction_filters env now b w s Ht Hs)
        as (s' & H1 & H2).
      exists s'. split; [exact H1|]. rewrite H2.
      destruct (JsVal_eqb (b_widgetName b) (JStr "filterSelect")) eqn:Ew;
        destruct (includes (Draft.filters s) (b_value b)) eqn:Ei;
        cbn [andb negb]; split; intros H; try reflexivity.
      * destruct H as [_ Hn]. exfalso. apply Hn. now apply includes_In.
      * exfalso. apply H. split; [now apply JsVal_eqb_eq|].
        rewrite <- includes_In. now rewrite Ei.
      * destruct H as [Hw _]. apply JsVal_eqb_eq in Hw. congruence.
      * destruct H as [Hw _]. apply JsVal_eqb_eq in Hw. congruence.
Qed.

Lemma filters_distinct_by_server_witness :
  (List.NoDup (filters (sample_session
                     (run IndexJs sample_env
                        [(2000, ReqInteraction
                                  (interaction_body (JStr sample_id)
                                     (JStr "filterSelect") (JStr "blur")));
                         (3000, ReqInteraction
                                  (interaction_body (JStr sample_id)
                                     (JStr "filterSelect") (JStr "blur")))]
                        (world_open IndexJs)))) /\
   exists s',
     session_of (JStr sample_id)
       (snd (recordInteraction IndexJs sample_env 2000
               (interaction_body (JStr sample_id) (JStr "filterSelect")
                  (JStr "blur"))
               (world_open IndexJs))) = Some s' /\
     filters s' = [JStr "blur"]) /\
  List.NoDup
    (Draft.filters
       {| Draft.sessionId := sample_id; Draft.startTime := 1000;
          Draft.userAgent := Some "curl/8.5";
          Draft.ip := Some "203.0.113.7";
          Draft.faceDetections := Draft.zero;
          Draft.objectDetections := Draft.zero;
          Draft.interactions := 2; Draft.filters := [JStr "blur"];
          Draft.endTime := None; Draft.duration := None |}) /\
  exists s',
    Draft.find_session (JStr sample_id)
      (Draft.sessions
         (Draft.stats
            (snd (Draft.recordInteraction sample_env 2000
                    (interaction_body (JStr sample_id) (JStr "filterSelect")
                       (JStr ""))
                    draft_open)))) = Some s' /\
    Draft.filters s' = [JStr ""].
Proof.
  destruct filters_distinct_by_server as (Hapi & Hdraft).
  destruct (Hapi IndexJs sample_env) as (Hinv & Happ & _).
  destruct (Hdraft sample_env) as (Hdinv & Hdapp).
  split; [split|split].
  - apply (Hinv 0 sample_disk
             [(1000, ReqStart sample_client);
              (2000, ReqInteraction
                       (interaction_body (JStr sample_id)
                          (JStr "filterSelect") (JStr "blur")));
              (3000, ReqInteraction
                       (interaction_body (JStr sample_id)
                          (JStr "filterSelect") (JStr "blur")))]
             (JStr sample_id)).
    vm_compute. reflexivity.
  - destruct (Happ 2000
                (interaction_body (JStr sample_id) (JStr "filterSelect")
                   (JStr "blur"))
                (world_open IndexJs) (sample_session (world_open IndexJs)))
      as (s' & H1 & H2 & _).
    + vm_compute. reflexivity.
    + vm_compute. reflexivity.
    + exists s'. split; [exact H1|]. apply H2.
      split; [reflexivity|]. split; [reflexivity|]. intros [].
  - apply (Hdinv 0 sample_disk
             [(1000, Draft.ReqStart sample_client);
              (2000, Draft.ReqSession Interaction
                       (interaction_body (JStr sample_id)
                          (JStr "filterSelect") (JStr "blur")));
              (3000, Draft.ReqSession Interaction
                       (interaction_body (JStr sample_id)
                          (JStr "filterSelect") (JStr "blur")))]).
    vm_compute. left. reflexivity.
  - destruct (Hdapp 2000
                (interaction_body (JStr sample_id) (JStr "filterSelect")
                   (JStr ""))
                draft_open
                {| Draft.sessionId := sample_id; Draft.startTime := 1000;
                   Draft.userAgent := Some "curl/8.5";
                   Draft.ip := Some "203.0.113.7";
                   Draft.faceDetections := Draft.zero;
                   Draft.objectDetections := Draft.zero;
                   Draft.interactions := 0; Draft.filters := [];
                   Draft.endTime := None; Draft.duration := None |})
      as (s' & H1 & H2 & _).
    + reflexivity.
    + vm_compute. reflexivity.
    + exists s'. split; [exact H1|]. apply H2.
      split; [reflexivity | intros []].
Defined.
(** ** Session identifiers *)

Lemma split_at_first (c : ascii) (a a' b b' : string) :
  has_char c a = false -> has_char c a' = false ->
  a ++ String c b = a' ++ String c b' -> a = a' /\ b = b'.
Proof.
  revert a'. induction a as [|x a IH]; intros [|y a'] Ha Ha' E.
  - injection E as ->. auto.
  - rewrite app_String in E. injection E as -> _.
    cbn [has_char] in Ha'. rewrite Ascii.eqb_refl in Ha'. discriminate.
  - rewrite app_String in E. injection E as -> _.
    cbn [has_char] in Ha. rewrite Ascii.eqb_refl in Ha. discriminate.
  - rewrite !app_String in E. injection E as -> E.
    cbn [has_char] in Ha, Ha'. apply orb_false_iff in Ha as [_ Ha].
    apply orb_false_iff in Ha' as [_ Ha'].
    destruct (IH _ Ha Ha' E) as [-> ->]. auto.
Qed.

Lemma Number_toString_inj (z z' : Z) :
  Number_toString z = Number_toString z' -> z = z'.
Proof.
  intros E. pose proof (parseInt_JNum z) as H1.
  pose proof (parseInt_JNum z') as H2.
  unfold parseInt, ToString in H1, H2. rewrite E in H1. congruence.
Qed.

(** X1.  Two session identifiers are equal only when they were made at the
    same clock reading with the same random suffix: the clock reading and
    the suffix can be read back from the identifier. *)
Theorem newSessionId_injective (t t' : Z) (c c' : Client) :
  newSessionId t c = newSessionId t' c' <->
  t = t' /\ randomSuffix c = randomSuffix c'.
Proof.
  split.
  - unfold newSessionId. intros E.
    apply string_app_inv_head in E.
    change (Number_toString t ++ "_" ++ randomSuffix c)
      with (Number_toString t ++ String "_" (randomSuffix c)) in E.
    change (Number_toString t' ++ "_" ++ randomSuffix c')
      with (Number_toString t' ++ String "_" (randomSuffix c')) in E.
    apply split_at_first in E as [E1 E2].
    + split; [now apply Number_toString_inj | exact E2].
    + apply Number_toString_no_char; [reflexivity | discriminate].
    + apply Number_toString_no_char; [reflexivity | discriminate].
  - intros [-> E]. unfold newSessionId. now rewrite E.
Qed.

(** ** Opening a session *)

Lemma or_else_nonempty (o : option string) (d : string) :
  d <> "" -> or_else o d <> "".
Proof.
  intros Hd. unfold or_else. destruct o as [x|]; [|exact Hd].
  destruct (String.eqb_spec x ""); [exact Hd | assumption].
Qed.

Lemma smap_set_fresh (k : string) (s : Session) (m : SessionMap) :
  smap_get k m = None -> smap_set k s m = (m ++ [(k, s)])%list.
Proof.
  induction m as [|[k' s'] m IH]; cbn [smap_get smap_set]; [reflexivity|].
  destruct (String.eqb k' k); [discriminate|].
  intros H. cbn [app]. now rewrite (IH H).
Qed.

Lemma smap_set_length_present (k : string) (s s0 : Session) (m : SessionMap) :
  smap_get k m = Some s0 ->
  List.length (smap_set k s m) = List.length m.
Proof.
  induction m as [|[k' s'] m IH]; cbn [smap_get smap_set]; [discriminate|].
  destruct (String.eqb k' k); [reflexivity|].
  intros H. cbn [List.length]. now rewrite (IH H).
Qed.

(** X2.  session/start always answers 200 with the new identifier.  After
    it that identifier resolves to a session with all counters at zero, no
    filter, no [endTime], and a user agent and an address that are not
    empty; every other identifier resolves as before; [totalSessions] has
    grown by one and the other global counters are as before.  When the
    identifier was already in the store (same clock reading, same random
    suffix), the earlier session is replaced in place: the store does not
    grow although [totalSessions] does. *)
Theorem startSession_opens_zeroed_session
    (v : Variant) (env : Env) (now : Z) (c : Client) (w : World) :
  let id := newSessionId now c in
  let w' := snd (startSession v env now c w) in
  fst (startSession v env now c w) = respond_ok (PSessionStart id) /\
  (exists s,
     session_of (JStr id) w' = Some s /\
     sessionId s = id /\ startTime s = now /\
     faceDetections s = Num 0 /\ objectDetections s = Num 0 /\
     interactions s = 0 /\ filters s = [] /\
     endTime s = None /\ duration s = None /\
     userAgent s <> "" /\ ip s <> "") /\
  (forall k, k <> id ->
     smap_get k (sessions (stats w')) = smap_get k (sessions (stats w))) /\
  counters (stats w') =
    (totalSessions (stats w) + 1, totalDetections (stats w),
     totalFaceDetections (stats w), totalInteractions (stats w)) /\
  (smap_get id (sessions (stats w)) = None ->
   List.length (sessions (stats w')) = S (List.length (sessions (stats w)))) /\
  (smap_get id (sessions (stats w)) <> None ->
   List.length (sessions (stats w')) = List.length (sessions (stats w))).
Proof.
  intros id w'. unfold w', startSession. cbn [fst snd]. fold id.
  split; [reflexivity|]. split; [|split; [|split; [|split]]].
  - eexists. split; [apply smap_get_set_eq|].
    cbn. repeat split.
    + apply or_else_nonempty. discriminate.
    + destruct v; repeat apply or_else_nonempty; discriminate.
  - intros k Hk. cbn. now apply smap_get_set_ne.
  - reflexivity.
  - intros Hn. cbn. rewrite (smap_set_fresh _ _ _ Hn), length_app. cbn. lia.
  - intros Hs. cbn.
    destruct (smap_get id (sessions (stats w))) as [s0|] eqn:E;
      [|contradiction].
    eapply smap_set_length_present, E.
Qed.

Lemma startSession_opens_zeroed_session_witness :
  fst (startSession IndexJs sample_env 1000 sample_client
         (initial_world 0 sample_disk))
  = respond_ok (PSessionStart (newSessionId 1000 sample_client)).
Proof.
  destruct (startSession_opens_zeroed_session IndexJs sample_env 1000
              sample_client (initial_world 0 sample_disk)) as [H _].
  exact H.
Defined.

(** ** Counting along a run *)

Lemma route_counters (k : SessionRoute) v env now b w :
  totalSessions (stats (snd (route k v env now b w))) = totalSessions (stats w).
Proof.
  destruct k; cbn [route];
    unfold recordDetection, recordInteraction, endSession;
    (destruct (validateSession v b w); [reflexivity|]);
    (destruct (Map_get (b_sessionId b) (sessions (stats w))); [|reflexivity]);
    try destruct v; reflexivity.
Qed.

Lemma step_totalSessions v env ev w :
  totalSessions (stats (snd (step v env ev w))) =
  totalSessions (stats w) + count_starts [ev].
Proof.
  unfold step.
  destruct (settle_keeps_counters (fst ev) w) as (Hc & _).
  assert (Hs : totalSessions (stats (settle (fst ev) w)) = totalSessions (stats w))
    by (unfold counters in Hc; congruence).
  rewrite <- Hs. generalize (settle (fst ev) w). intros w1.
  destruct ev as [t [c|b|b|b| | |f]]; cbn [fst snd handle].
  - unfold startSession. cbn. unfold count_starts. cbn. lia.
  - rewrite (route_counters Detection). unfold count_starts. cbn. lia.
  - rewrite (route_counters Interaction). unfold count_starts. cbn. lia.
  - rewrite (route_counters End). unfold count_starts. cbn. lia.
  - unfold count_starts. cbn. lia.
  - unfold on_fs, count_starts.
    destruct (listLogs v env (fs w1)) as [[r|e] f0]; cbn; lia.
  - unfold on_fs, count_starts.
    destruct (readLog v env f (fs w1)) as [[r|e] f0]; cbn; lia.
Qed.

(** X3.  Along every sequence of requests, in either source,
    [totalSessions] grows by exactly the number of session/start requests
    handled: it counts the sessions ever opened, and neither closing nor
    evicting a session lowers it. *)
Theorem totalSessions_counts_starts
    (v : Variant) (env : Env) (evs : list (Z * Request)) (w : World) :
  totalSessions (stats (run v env evs w)) =
  totalSessions (stats w) + count_starts evs.
Proof.
  revert w. induction evs as [|ev evs IH]; intros w.
  - unfold count_starts. cbn. lia.
  - cbn [run fold_left]. fold (run v env evs (snd (step v env ev w))).
    rewrite IH, step_totalSessions.
    unfold count_starts, started_ids. cbn [flat_map].
    rewrite !length_app. cbn [List.length]. lia.
Qed.

(** ** Sums of counters *)

Lemma add_comm (a b : JsNum) : add a b = add b a.
Proof. destruct a, b; cbn; try reflexivity. f_equal. lia. Qed.

Lemma add_assoc (a b c : JsNum) : add a (add b c) = add (add a b) c.
Proof. destruct a, b, c; cbn; try reflexivity. f_equal. lia. Qed.

Lemma add_zero_r (a : JsNum) : add a (Num 0) = a.
Proof. destruct a; cbn; [f_equal; lia | reflexivity]. Qed.

Lemma sum_num_cons (f : Session -> JsNum) (k : string) (s : Session)
    (m : SessionMap) :
  sum_num (List.map f (Map_values ((k, s) :: m))) =
  add (f s) (sum_num (List.map f (Map_values m))).
Proof. reflexivity. Qed.

Lemma sum_Z_cons (f : Session -> Z) (k : string) (s : Session)
    (m : SessionMap) :
  sum_Z (List.map f (Map_values ((k, s) :: m))) =
  f s + sum_Z (List.map f (Map_values m)).
Proof. reflexivity. Qed.

Lemma sum_num_set (f : Session -> JsNum) (k : string) (s s' : Session)
    (d : JsNum) (m : SessionMap) :
  smap_get k m = Some s ->
  f s' = add (f s) d ->
  sum_num (List.map f (Map_values (smap_set k s' m))) =
  add (sum_num (List.map f (Map_values m))) d.
Proof.
  intros Hg Hf. induction m as [|[k' s0] m IH]; [discriminate|].
  cbn [smap_get smap_set] in *.
  destruct (String.eqb k' k).
  - injection Hg as ->. rewrite !sum_num_cons, Hf.
    rewrite <- !add_assoc. f_equal. apply add_comm.
  - rewrite !sum_num_cons, (IH Hg). apply add_assoc.
Qed.

Lemma sum_Z_set (f : Session -> Z) (k : string) (s s' : Session)
    (d : Z) (m : SessionMap) :
  smap_get k m = Some s ->
  f s' = f s + d ->
  sum_Z (List.map f (Map_values (smap_set k s' m))) =
  sum_Z (List.map f (Map_values m)) + d.
Proof.
  intros Hg Hf. induction m as [|[k' s0] m IH]; [discriminate|].
  cbn [smap_get smap_set] in *.
  destruct (String.eqb k' k).
  - injection Hg as ->. rewrite !sum_Z_cons. lia.
  - rewrite !sum_Z_cons, (IH Hg). lia.
Qed.

Lemma sum_num_snoc (f : Session -> JsNum) (k : string) (s : Session)
    (m : SessionMap) :
  sum_num (List.map f (Map_values (m ++ [(k, s)])%list)) =
  add (sum_num (List.map f (Map_values m))) (f s).
Proof.
  induction m as [|[k' s0] m IH].
  - cbn. rewrite add_zero_r. destruct (f s); reflexivity.
  - cbn [app]. rewrite !sum_num_cons, IH. apply add_assoc.
Qed.

Lemma sum_Z_snoc (f : Session -> Z) (k : string) (s : Session)
    (m : SessionMap) :
  sum_Z (List.map f (Map_values (m ++ [(k, s)])%list)) =
  sum_Z (List.map f (Map_values m)) + f s.
Proof.
  induction m as [|[k' s0] m IH].
  - cbn. lia.
  - cbn [app]. rewrite !sum_Z_cons, IH. lia.
Qed.

Lemma route_preserves_totals (k : SessionRoute) v env now b w :
  totals_match (stats w) ->
  totals_match (stats (snd (route k v env now b w))).
Proof.
  intros (Hf & Ht & Hi & Hn).
  destruct k; cbn [route];
    unfold recordDetection, recordInteraction, endSession;
    (destruct (validateSession v b w) eqn:Hv; [now repeat split|]);
    destruct (validateSession_pass _ _ _ Hv) as (key & s & Hk & Hg);
    rewrite Hk; cbn [Map_get key_text]; rewrite Hg; cbn [snd].
  - unfold totals_match.
    cbn [stats log with_fs with_stats totalFaceDetections totalDetections
         totalInteractions totalSessions sessions].
    split; [|split; [|split]].
    + rewrite Hf. symmetry. eapply sum_num_set; [exact Hg | reflexivity].
    + rewrite Ht. symmetry. eapply sum_num_set; [exact Hg|].
      unfold session_total. cbn.
      rewrite <- !add_assoc. f_equal. rewrite !add_assoc. f_equal.
      apply add_comm.
    + rewrite Hi. symmetry.
      rewrite (sum_Z_set interactions _ _ _ 0 _ Hg); [lia | cbn; lia].
    + rewrite Hn. f_equal. symmetry. eapply smap_set_length_present, Hg.
  - unfold totals_match.
    cbn [stats log with_fs with_stats totalFaceDetections totalDetections
         totalInteractions totalSessions sessions].
    split; [|split; [|split]].
    + rewrite Hf. symmetry.
      rewrite (sum_num_set faceDetections _ _ _ (Num 0) _ Hg);
        [apply add_zero_r | cbn; now rewrite add_zero_r].
    + rewrite Ht. symmetry.
      rewrite (sum_num_set session_total _ _ _ (Num 0) _ Hg);
        [apply add_zero_r | unfold session_total; cbn; now rewrite add_zero_r].
    + rewrite Hi. symmetry. eapply sum_Z_set; [exact Hg | reflexivity].
    + rewrite Hn. f_equal. symmetry. eapply smap_set_length_present, Hg.
  - assert (Hgoal : totals_match
      {| totalSessions := totalSessions (stats w);
         totalDetections := totalDetections (stats w);
         totalFaceDetections := totalFaceDetections (stats w);
         totalInteractions := totalInteractions (stats w);
         sessions :=
           smap_set key
             {| sessionId := sessionId s; startTime := startTime s;
                userAgent := userAgent s; ip := ip s;
                faceDetections := faceDetections s;
                objectDetections := objectDetections s;
                interactions := interactions s; filters := filters s;
                lastActivity := now; endTime := Some now;
                duration := Some (round_div (now - startTime s) 1000) |}
             (sessions (stats w));
         serverStartTime := serverStartTime (stats w);
         lastUpdated := now |}).
    { unfold totals_match.
      cbn [totalFaceDetections totalDetections totalInteractions
           totalSessions sessions].
      split; [|split; [|split]].
      + rewrite Hf. symmetry.
        rewrite (sum_num_set faceDetections _ _ _ (Num 0) _ Hg);
          [apply add_zero_r | cbn; now rewrite add_zero_r].
      + rewrite Ht. symmetry.
        rewrite (sum_num_set session_total _ _ _ (Num 0) _ Hg);
          [apply add_zero_r
          | unfold session_total; cbn; now rewrite add_zero_r].
      + rewrite Hi. symmetry.
        rewrite (sum_Z_set interactions _ _ _ 0 _ Hg); [lia | cbn; lia].
      + rewrite Hn. f_equal. symmetry. eapply smap_set_length_present, Hg. }
    destruct v; exact Hgoal.
Qed.

Lemma startSession_preserves_totals v env now c w :
  smap_get (newSessionId now c) (sessions (stats w)) = None ->
  totals_match (stats w) ->
  totals_match (stats (snd (startSession v env now c w))).
Proof.
  intros Hfresh (Hf & Ht & Hi & Hn).
  unfold startSession, totals_match.
  cbn [snd stats log with_fs with_stats totalFaceDetections totalDetections
       totalInteractions totalSessions sessions].
  rewrite (smap_set_fresh _ _ _ Hfresh).
  rewrite !sum_num_snoc, sum_Z_snoc, length_app.
  unfold session_total. cbn [faceDetections objectDetections interactions add].
  rewrite !add_zero_r. cbn [List.length].
  repeat split; [exact Hf | exact Ht | lia | lia].
Qed.

Lemma route_keys (k : SessionRoute) v env now b w (id : string) :
  smap_get id (sessions (stats (snd (route k v env now b w)))) <> None ->
  smap_get id (sessions (stats w)) <> None.
Proof.
  destruct k; cbn [route];
    unfold recordDetection, recordInteraction, endSession;
    (destruct (validateSession v b w) eqn:Hv; [auto|]);
    destruct (validateSession_pass _ _ _ Hv) as (key & s & Hk & Hg);
    rewrite Hk; cbn [Map_get key_text]; rewrite Hg;
    try destruct v; cbn;
    (destruct (String.eqb_spec id key) as [->|Hne];
     [intros _; congruence | now rewrite smap_get_set_ne]).
Qed.

Lemma index_route_timers (k : SessionRoute) env now b w :
  timers (snd (route k IndexJs env now b w)) = timers w.
Proof.
  destruct k; cbn [route];
    unfold recordDetection, recordInteraction, endSession;
    (destruct (validateSession IndexJs b w); [reflexivity|]);
    (destruct (Map_get (b_sessionId b) (sessions (stats w)));
     reflexivity).
Qed.

Lemma on_fs_keeps (m : Fs.M Response) (w : World) :
  stats (snd (on_fs m w)) = stats w /\ timers (snd (on_fs m w)) = timers w.
Proof. unfold on_fs. destruct (m (fs w)) as [[r|e] f0]; now split. Qed.

Lemma index_run_totals env evs w (seen : list string) :
  timers w = [] ->
  totals_match (stats w) ->
  (forall k, smap_get k (sessions (stats w)) <> None -> In k seen) ->
  List.NoDup (seen ++ started_ids evs) ->
  totals_match (stats (run IndexJs env evs w)).
Proof.
  revert w seen.
  induction evs as [|ev evs IH]; intros w seen Ht Hm Hkeys Hnd; [exact Hm|].
  cbn [run fold_left]. fold (run IndexJs env evs (snd (step IndexJs env ev w))).
  unfold step.
  destruct (settle_without_timers (fst ev) w Ht) as [Ht1 Hs1].
  set (w1 := settle (fst ev) w) in *. clearbody w1.
  rewrite <- Hs1 in Hm, Hkeys. clear Hs1 Ht w.
  destruct ev as [t r].
  assert (Hother : started_ids ((t, r) :: evs) = started_ids evs ->
                   timers (snd (handle IndexJs env t r w1)) = [] ->
                   totals_match (stats (snd (handle IndexJs env t r w1))) ->
                   (forall k, smap_get k (sessions (stats
                                 (snd (handle IndexJs env t r w1)))) <> None ->
                              smap_get k (sessions (stats w1)) <> None) ->
                   totals_match
                     (stats (run IndexJs env evs
                               (snd (handle IndexJs env t r w1))))).
  { intros E Ht' Hm' Hk'. rewrite E in Hnd.
    apply (IH _ seen Ht' Hm'); [|exact Hnd].
    intros k Hk. apply Hkeys, Hk', Hk. }
  cbn [fst snd].
  destruct r as [c|b|b|b| | |f]; cbn [handle].
  - clear Hother.
    assert (Hid : ~ In (newSessionId t c) seen).
    { cbn in Hnd. apply NoDup_remove_2 in Hnd.
      intros Hin. apply Hnd. apply in_or_app. now left. }
    assert (Hfresh : smap_get (newSessionId t c) (sessions (stats w1)) = None).
    { destruct (smap_get (newSessionId t c) (sessions (stats w1))) eqn:E;
        [|reflexivity].
      exfalso. apply Hid, Hkeys. congruence. }
    apply (IH _ (seen ++ [newSessionId t c])%list).
    + exact Ht1.
    + now apply startSession_preserves_totals.
    + intros k. unfold startSession. cbn.
      destruct (String.eqb_spec k (newSessionId t c)) as [->|Hne].
      * intros _. apply in_or_app. right. now left.
      * rewrite smap_get_set_ne by exact Hne. intros Hk.
        apply in_or_app. left. now apply Hkeys.
    + cbn in Hnd. now rewrite <- List.app_assoc.
  - apply Hother;
      [reflexivity
      | exact (eq_trans (index_route_timers Detection env t b w1) Ht1)
      | now apply (route_preserves_totals Detection)
      | apply (route_keys Detection)].
  - apply Hother;
      [reflexivity
      | exact (eq_trans (index_route_timers Interaction env t b w1) Ht1)
      | now apply (route_preserves_totals Interaction)
      | apply (route_keys Interaction)].
  - apply Hother;
      [reflexivity
      | exact (eq_trans (index_route_timers End env t b w1) Ht1)
      | now apply (route_preserves_totals End)
      | apply (route_keys End)].
  - apply Hother; [reflexivity | exact Ht1 | exact Hm | auto].
  - destruct (on_fs_keeps (listLogs IndexJs env) w1) as [Hs Ht].
    apply Hother; cbn [handle];
      [reflexivity | congruence | now rewrite Hs
      | intros k; now rewrite Hs].
  - destruct (on_fs_keeps (readLog IndexJs env f) w1) as [Hs Ht].
    apply Hother; cbn [handle];
      [reflexivity | congruence | now rewrite Hs
      | intros k; now rewrite Hs].
Qed.

(** ** Counters in the exact range *)

Lemma bounded_add (B1 B2 : Z) (a b : JsNum) :
  bounded B1 a -> bounded B2 b -> bounded (B1 + B2) (add a b).
Proof. destruct a, b; cbn; try tauto. lia. Qed.

Lemma bounded_mono (B B' : Z) (n : JsNum) :
  B <= B' -> bounded B n -> bounded B' n.
Proof. destruct n; cbn; [lia | tauto]. Qed.

Lemma bounded_is_Num (B : Z) (n : JsNum) : bounded B n -> is_Num n.
Proof. now destruct n. Qed.

Lemma within_numeric (B : Z) (st : Stats) : within B st -> all_numeric st.
Proof.
  intros (Hf & Ht & Hs). split; [now apply (bounded_is_Num B)|].
  split; [now apply (bounded_is_Num (2 * B))|].
  eapply List.Forall_impl; [|exact Hs].
  intros e [H1 H2]. split; now apply (bounded_is_Num B).
Qed.

Lemma within_mono (B B' : Z) (st : Stats) :
  B <= B' -> within B st -> within B' st.
Proof.
  intros Hle (Hf & Ht & Hs). split; [now apply (bounded_mono B)|].
  split; [apply (bounded_mono (2 * B)); [lia | exact Ht]|].
  eapply List.Forall_impl; [|exact Hs].
  intros e [H1 H2]. split; now apply (bounded_mono B).
Qed.

(** In [api/index.js] the number added for a small count is small, and 0
    for a count that [parseInt] does not read. *)
Lemma index_delta_bounded (c : JsVal) :
  small_count c -> bounded COUNT_LIMIT (detection_delta IndexJs c).
Proof.
  intros [_ Hc]. unfold detection_delta.
  destruct (parseInt (default_to (JNum 0) c)) as [n|] eqn:Hp; cbn.
  - now apply Hc.
  - unfold COUNT_LIMIT. lia.
Qed.

Lemma index_route_within (k : SessionRoute) env now b w (B : Z) :
  (k = Detection ->
   small_count (b_faceCount b) /\ small_count (b_objectCount b)) ->
  within B (stats w) ->
  within (B + COUNT_LIMIT) (stats (snd (route k IndexJs env now b w))).
Proof.
  intros Hsmall Hw.
  assert (HL : 0 <= COUNT_LIMIT) by (unfold COUNT_LIMIT; lia).
  pose proof (within_mono B (B + COUNT_LIMIT) _ ltac:(lia) Hw) as Hw'.
  destruct Hw as (Hf & Ht & Hs). destruct Hw' as (Hf' & Ht' & Hs').
  destruct k; cbn [route];
    unfold recordDetection, recordInteraction, endSession;
    (destruct (validateSession IndexJs b w) eqn:Hv; [now repeat split|]);
    destruct (validateSession_pass _ _ _ Hv) as (key & s & Hk & Hg);
    rewrite Hk; cbn [Map_get key_text]; rewrite Hg; cbn [snd];
    pose proof (proj1 (List.Forall_forall _ _) Hs _ (smap_get_In _ _ _ Hg))
      as [Hsf Hso]; cbn [snd] in Hsf, Hso;
    pose proof (proj1 (List.Forall_forall _ _) Hs' _ (smap_get_In _ _ _ Hg))
      as [Hsf' Hso']; cbn [snd] in Hsf', Hso';
    unfold within;
    cbn [stats log with_fs with_stats totalFaceDetections totalDetections
         sessions].
  - destruct (Hsmall eq_refl) as [Hfc Hoc].
    pose proof (index_delta_bounded _ Hfc) as Hdf.
    pose proof (index_delta_bounded _ Hoc) as Hdo.
    split; [|split].
    + now apply bounded_add.
    + replace (2 * (B + COUNT_LIMIT)) with (2 * B + (COUNT_LIMIT + COUNT_LIMIT))
        by lia.
      apply bounded_add; [exact Ht | now apply bounded_add].
    + apply Forall_smap_set; [|exact Hs'].
      cbn [snd faceDetections objectDetections].
      split; now apply bounded_add.
  - split; [exact Hf'|]. split; [exact Ht'|].
    apply Forall_smap_set; [|exact Hs']. cbn. now split.
  - split; [exact Hf'|]. split; [exact Ht'|].
    apply Forall_smap_set; [|exact Hs']. cbn. now split.
Qed.

Lemma settle_within (t : Z) (w : World) (B : Z) :
  within B (stats w) -> within B (stats (settle t w)).
Proof.
  intros (Hf & Ht & Hs).
  destruct (settle_keeps_counters t w) as (Hc & _).
  assert (Hd : totalDetections (stats (settle t w)) = totalDetections (stats w))
    by (unfold counters in Hc; congruence).
  assert (Hfd : totalFaceDetections (stats (settle t w)) =
                totalFaceDetections (stats w))
    by (unfold counters in Hc; congruence).
  clear Hc.
  unfold within, settle in *. cbn [stats with_fs] in *.
  rewrite Hd, Hfd. split; [exact Hf|]. split; [exact Ht|].
  unfold run_timers.
  generalize (List.filter (fun tm => fst tm <=? t) (timers w)).
  generalize (List.filter (fun tm => negb (fst tm <=? t)) (timers w)).
  intros rest due.
  change (sessions (stats w))
    with (sessions (stats {| stats := stats w; fs := fs w; timers := rest |}))
    in Hs.
  revert Hs. generalize {| stats := stats w; fs := fs w; timers := rest |}.
  induction due as [|tm due IH]; intros w0 Hs; cbn [fold_left]; [exact Hs|].
  apply IH. unfold evict. cbn. now apply Forall_smap_delete.
Qed.

Lemma index_step_within env ev w (B : Z) :
  0 <= B ->
  small_request (snd ev) ->
  within B (stats w) ->
  within (B + COUNT_LIMIT) (stats (snd (step IndexJs env ev w))).
Proof.
  intros HB Hsmall Hw. unfold step.
  assert (HL : 0 <= COUNT_LIMIT) by (unfold COUNT_LIMIT; lia).
  pose proof (settle_within (fst ev) w B Hw) as H1.
  generalize dependent (settle (fst ev) w). intros w1 H1.
  destruct ev as [t [c|b|b|b| | |f]]; cbn [fst snd handle small_request] in *.
  - apply (within_mono B); [lia|].
    destruct H1 as (Hf & Ht & Hs). unfold startSession, within.
    cbn [snd stats log with_fs with_stats totalFaceDetections totalDetections
         sessions].
    split; [exact Hf|]. split; [exact Ht|].
    apply Forall_smap_set; [|exact Hs]. cbn. lia.
  - apply (index_route_within Detection); [intros _; exact Hsmall | exact H1].
  - apply (index_route_within Interaction); [discriminate | exact H1].
  - apply (index_route_within End); [discriminate | exact H1].
  - apply (within_mono B); [lia | exact H1].
  - rewrite (proj1 (on_fs_keeps _ _)). apply (within_mono B); [lia | exact H1].
  - rewrite (proj1 (on_fs_keeps _ _)). apply (within_mono B); [lia | exact H1].
Qed.

Lemma index_run_within env (evs : list (Z * Request)) (w : World) (B : Z) :
  0 <= B ->
  List.Forall (fun ev => small_request (snd ev)) evs ->
  within B (stats w) ->
  within (B + Z.of_nat (List.length evs) * COUNT_LIMIT)
    (stats (run IndexJs env evs w)).
Proof.
  assert (HL : 0 <= COUNT_LIMIT) by (unfold COUNT_LIMIT; lia).
  revert w B. induction evs as [|ev evs IH]; intros w B HB Hall Hw.
  - cbn [List.length run fold_left]. now replace (B + Z.of_nat 0 * COUNT_LIMIT) with B by lia.
  - apply List.Forall_cons_iff in Hall as [Hev Hall].
    cbn [run fold_left List.length].
    replace (B + Z.of_nat (S (List.length evs)) * COUNT_LIMIT)
      with ((B + COUNT_LIMIT) + Z.of_nat (List.length evs) * COUNT_LIMIT)
      by lia.
    apply IH; [lia | exact Hall |]. now apply index_step_within.
Qed.

Lemma initial_within t0 disk : within 0 (stats (initial_world t0 disk)).
Proof. repeat split; cbn; try lia. constructor. Qed.

(** X4.  In [api/index.js], from process start, as long as no two
    session/start requests produce the same identifier and the numbers
    stay in the range where JavaScript adds exactly (every count is small:
    what [parseInt] reads from it is at most 2^30 in magnitude, and a count
    sent as text goes on with an ASCII character after its leading ASCII
    white space, or holds nothing else; and there are at most 2^22
    requests), the global counters
    are the sums over the stored sessions: [totalFaceDetections] of their
    [faceDetections], [totalDetections] of their
    [faceDetections + objectDetections], [totalInteractions] of their
    [interactions]; [totalSessions] is the number of stored sessions; and
    every detection counter is an integer of magnitude at most 2^52
    ([totalDetections]: 2^53), which JavaScript holds exactly. *)
Theorem index_totals_are_sums
    (env : Env) (t0 : Z) (disk : Fs.t) (evs : list (Z * Request)) :
  List.NoDup (started_ids evs) ->
  List.Forall (fun ev => small_request (snd ev)) evs ->
  Z.of_nat (List.length evs) <= 2 ^ 22 ->
  totals_match (stats (run IndexJs env evs (initial_world t0 disk))) /\
  within (2 ^ 52) (stats (run IndexJs env evs (initial_world t0 disk))).
Proof.
  intros Hnd Hsmall Hlen. split.
  - apply (index_run_totals env evs _ []).
    + reflexivity.
    + repeat split.
    + intros k Hk. now cbn in Hk.
    + exact Hnd.
  - apply (within_mono (0 + Z.of_nat (List.length evs) * COUNT_LIMIT)).
    + unfold COUNT_LIMIT.
      replace (2 ^ 52) with (2 ^ 22 * 2 ^ 30) by reflexivity.
      apply Z.mul_le_mono_nonneg_r; lia.
    + apply index_run_within; [lia | exact Hsmall | apply initial_within].
Qed.

Lemma small_count_JNum (n : Z) : Z.abs n <= COUNT_LIMIT -> small_count (JNum n).
Proof.
  intros Hn. split; [reflexivity|].
  intros m Hm. cbn [default_to] in Hm. rewrite parseInt_JNum in Hm.
  now injection Hm as <-.
Qed.

Lemma index_totals_are_sums_witness :
  totals_match
    (stats (run IndexJs sample_env
              [(1000, ReqStart sample_client);
               (1001, ReqStart sample_client);
               (2000, ReqDetection
                        (detection_body (JStr sample_id) (JNum 2) (JStr "3")));
               (3000, ReqInteraction
                        (interaction_body (JStr "session_1001_k3x9q0abc")
                           (JStr "filterSelect") (JStr "blur")));
               (4000, ReqEnd (body_for (JStr sample_id)))]
              (initial_world 0 sample_disk))) /\
  within (2 ^ 52)
    (stats (run IndexJs sample_env
              [(1000, ReqStart sample_client);
               (1001, ReqStart sample_client);
               (2000, ReqDetection
                        (detection_body (JStr sample_id) (JNum 2) (JStr "3")));
               (3000, ReqInteraction
                        (interaction_body (JStr "session_1001_k3x9q0abc")
                           (JStr "filterSelect") (JStr "blur")));
               (4000, ReqEnd (body_for (JStr sample_id)))]
              (initial_world 0 sample_disk))).
Proof.
  apply index_totals_are_sums.
  - vm_compute. repeat constructor; cbn; intuition discriminate.
  - repeat apply List.Forall_cons; try apply List.Forall_nil;
      cbn [snd small_request detection_body b_faceCount b_objectCount];
      try exact I.
    split.
    + apply small_count_JNum. vm_compute. discriminate.
    + split; [reflexivity|].
      intros n Hn. vm_compute in Hn. injection Hn as <-.
      vm_compute. discriminate.
  - vm_compute. discriminate.
Defined.

(** X5.  In [api/index.js], as long as every count is small (what
    [parseInt] reads from it is at most 2^30 in magnitude, and a count sent
    as text goes on with an ASCII character after its leading ASCII white
    space, or holds nothing else), no detection counter is ever [NaN], also
    when a count is one that [parseInt] does not read, which is counted as
    0: after n requests from process start, [totalFaceDetections] and the
    [faceDetections] and [objectDetections] of every stored session are
    integers of magnitude at most n * 2^30, and [totalDetections] one of at
    most twice that. *)
Theorem index_counters_stay_numeric
    (env : Env) (t0 : Z) (disk : Fs.t) (evs : list (Z * Request)) :
  List.Forall (fun ev => small_request (snd ev)) evs ->
  all_numeric (stats (run IndexJs env evs (initial_world t0 disk))) /\
  within (Z.of_nat (List.length evs) * COUNT_LIMIT)
    (stats (run IndexJs env evs (initial_world t0 disk))).
Proof.
  intros Hsmall.
  assert (Hw : within (0 + Z.of_nat (List.length evs) * COUNT_LIMIT)
                 (stats (run IndexJs env evs (initial_world t0 disk))))
    by (apply index_run_within; [lia | exact Hsmall | apply initial_within]).
  rewrite Z.add_0_l in Hw. split; [|exact Hw].
  now apply (within_numeric _ _ Hw).
Qed.

Lemma index_counters_stay_numeric_witness :
  all_numeric
    (stats (run IndexJs sample_env
              [(1000, ReqStart sample_client);
               (2000, ReqDetection
                        (detection_body (JStr sample_id) (JStr "many")
                           (JNum (-4))))]
              (initial_world 0 sample_disk))).
Proof.
  apply (index_counters_stay_numeric sample_env 0 sample_disk
           [(1000, ReqStart sample_client);
            (2000, ReqDetection
                     (detection_body (JStr sample_id) (JStr "many")
                        (JNum (-4))))]).
  repeat apply List.Forall_cons; try apply List.Forall_nil;
    cbn [snd small_request detection_body b_faceCount b_objectCount];
    try exact I.
  split.
  - split; [reflexivity|].
    intros n Hn. vm_compute in Hn. discriminate Hn.
  - apply small_count_JNum. vm_compute. discriminate.
Defined.

(** Once [NaN], a global detection counter stays [NaN]. *)
Lemma NaN_is_sticky (v : Variant) (env : Env) (evs : list (Z * Request))
    (w : World) :
  (totalFaceDetections (stats w) = NaN ->
   totalFaceDetections (stats (run v env evs w)) = NaN) /\
  (totalDetections (stats w) = NaN ->
   totalDetections (stats (run v env evs w)) = NaN).
Proof.
  revert w. induction evs as [|ev evs IH]; intros w; [now split|].
  cbn [run fold_left].
  assert (Hstep :
    (totalFaceDetections (stats w) = NaN ->
     totalFaceDetections (stats (snd (step v env ev w))) = NaN) /\
    (totalDetections (stats w) = NaN ->
     totalDetections (stats (snd (step v env ev w))) = NaN)).
  { unfold step.
    destruct (settle_keeps_counters (fst ev) w) as (Hc & _).
    assert (Hd : totalDetections (stats (settle (fst ev) w)) =
                 totalDetections (stats w))
      by (unfold counters in Hc; congruence).
    assert (Hfd : totalFaceDetections (stats (settle (fst ev) w)) =
                  totalFaceDetections (stats w))
      by (unfold counters in Hc; congruence).
    rewrite <- Hd, <- Hfd. clear Hc Hd Hfd.
    generalize (settle (fst ev) w). intros w1.
    destruct ev as [t [c|b|b|b| | |f]]; cbn [fst snd handle].
    - now split.
    - unfold recordDetection.
      destruct (validateSession v b w1); [now split|].
      destruct (Map_get (b_sessionId b) (sessions (stats w1))); [|now split].
      cbn. split; intros ->; reflexivity.
    - unfold recordInteraction.
      destruct (validateSession v b w1); [now split|].
      destruct (Map_get (b_sessionId b) (sessions (stats w1))); now split.
    - unfold endSession.
      destruct (validateSession v b w1); [now split|].
      destruct (Map_get (b_sessionId b) (sessions (stats w1))); [|now split].
      destruct v; now split.
    - now split.
    - now rewrite (proj1 (on_fs_keeps _ _)).
    - now rewrite (proj1 (on_fs_keeps _ _)). }
  destruct Hstep as [H1 H2].
  destruct (IH (snd (step v env ev w))) as [H3 H4].
  split; auto.
Qed.

(** X6.  In [api/server.js] one detection report whose [faceCount]
    [parseInt] cannot read, sent for a session that is present, sets that
    session's [faceDetections] and the global [totalFaceDetections] and
    [totalDetections] to [NaN]; the two global counters are then [NaN]
    after every later sequence of requests. *)
Theorem server_counters_are_poisoned_by_NaN
    (env : Env) (now : Z) (b : Body) (w : World) (s : Session)
    (evs : list (Z * Request)) :
  validateSession ServerJs b w = None ->
  session_of (b_sessionId b) w = Some s ->
  parseInt (default_to (JNum 0) (b_faceCount b)) = NaN ->
  let w' := snd (recordDetection ServerJs env now b w) in
  status (fst (recordDetection ServerJs env now b w)) = 200 /\
  (exists s', session_of (b_sessionId b) w' = Some s' /\
              faceDetections s' = NaN) /\
  totalFaceDetections (stats (run ServerJs env evs w')) = NaN /\
  totalDetections (stats (run ServerJs env evs w')) = NaN.
Proof.
  intros Hv Hs Hn w'.
  destruct (recordDetection_effect ServerJs env now b w s Hv Hs)
    as (H200 & (s' & H1 & H2 & _) & H4 & H5 & _).
  assert (Hd : detection_delta ServerJs (b_faceCount b) = NaN) by exact Hn.
  rewrite Hd in *.
  split; [exact H200|]. split.
  - exists s'. split; [exact H1|]. rewrite H2. now destruct (faceDetections s).
  - destruct (NaN_is_sticky ServerJs env evs w') as [Hf Ht].
    split; [apply Hf | apply Ht].
    + unfold w'. rewrite H4. now destruct (totalFaceDetections (stats w)).
    + unfold w'. rewrite H5. now destruct (totalDetections (stats w)).
Qed.

Lemma server_counters_are_poisoned_by_NaN_witness :
  totalDetections
    (stats (run ServerJs sample_env
              [(3000, ReqDetection
                        (detection_body (JStr sample_id) (JNum 4) (JNum 1)))]
              (snd (recordDetection ServerJs sample_env 2000
                      (detection_body (JStr sample_id) (JStr "many") (JNum 1))
                      (world_open ServerJs))))) = NaN.
Proof.
  destruct (server_counters_are_poisoned_by_NaN sample_env 2000
              (detection_body (JStr sample_id) (JStr "many") (JNum 1))
              (world_open ServerJs) (sample_session (world_open ServerJs))
              [(3000, ReqDetection
                        (detection_body (JStr sample_id) (JNum 4) (JNum 1)))])
    as (_ & _ & _ & H).
  - vm_compute. reflexivity.
  - vm_compute. reflexivity.
  - vm_compute. reflexivity.
  - exact H.
Defined.

(** ** Closing a session *)

(** [Math.round (a / b)] is within half a unit of [a / b], halves going up. *)
Lemma round_div_bounds (a b : Z) :
  0 < b ->
  2 * b * round_div a b - b <= 2 * a < 2 * b * round_div a b + b.
Proof.
  intros Hb. unfold round_div.
  pose proof (Z.div_mod (2 * a + b) (2 * b)) as Hdm.
  pose proof (Z.mod_pos_bound (2 * a + b) (2 * b)) as Hm.
  lia.
Qed.

(** X7.  session/end on a session that is present, closed before or not,
    answers 200, sets [endTime] to the time of the call and [duration] to
    the elapsed time in whole seconds, rounded to the nearest second
    (within half a second of the elapsed milliseconds, not negative when
    the clock did not go back).  It leaves the session's counters and
    filters and every global counter as they were. *)
Theorem endSession_sets_rounded_duration
    (v : Variant) (env : Env) (now : Z) (b : Body) (w : World) (s : Session) :
  validateSession v b w = None ->
  session_of (b_sessionId b) w = Some s ->
  let w' := snd (endSession v env now b w) in
  status (fst (endSession v env now b w)) = 200 /\
  (exists s' d,
     session_of (b_sessionId b) w' = Some s' /\
     endTime s' = Some now /\ duration s' = Some d /\
     1000 * d - 500 <= now - startTime s < 1000 * d + 500 /\
     (startTime s <= now -> 0 <= d) /\
     startTime s' = startTime s /\
     faceDetections s' = faceDetections s /\
     objectDetections s' = objectDetections s /\
     interactions s' = interactions s /\
     filters s' = filters s) /\
  counters (stats w') = counters (stats w).
Proof.
  intros Hv Hs w'. unfold w'. open_route Hv Hs.
  pose proof (round_div_bounds (now - startTime s) 1000 ltac:(lia)) as Hb.
  assert (Hpos : startTime s <= now -> 0 <= round_div (now - startTime s) 1000).
  { intros Hle. unfold round_div. apply Z.div_pos; lia. }
  destruct v; cbn [fst snd status respond_ok];
    (split; [reflexivity|]); (split; [|reflexivity]);
    eexists; exists (round_div (now - startTime s) 1000);
    (split; [cbn; apply smap_get_set_eq|]); cbn;
    repeat split; auto; lia.
Qed.

Lemma endSession_sets_rounded_duration_witness :
  exists s',
    session_of (JStr sample_id)
      (snd (endSession ServerJs sample_env 12499 (body_for (JStr sample_id))
              (world_closed ServerJs))) = Some s' /\
    endTime s' = Some 12499 /\ duration s' = Some 11.
Proof.
  destruct (endSession_sets_rounded_duration ServerJs sample_env 12499
              (body_for (JStr sample_id)) (world_closed ServerJs)
              (sample_session (world_closed ServerJs)))
    as (_ & (s' & d & H1 & H2 & H3 & H4 & _) & _).
  - vm_compute. reflexivity.
  - vm_compute. reflexivity.
  - exists s'. split; [exact H1|]. split; [exact H2|].
    rewrite H3. f_equal.
    change (startTime (sample_session (world_closed ServerJs))) with 1000 in H4.
    lia.
Defined.

(** ** Retention before eviction *)

Lemma settle_keeps_until_due (limit : Z) (id : string) (t : Z) (w : World) :
  t < limit ->
  smap_get id (sessions (stats w)) <> None ->
  (forall due, In (due, id) (timers w) -> limit <= due) ->
  smap_get id (sessions (stats (settle t w))) <> None /\
  (forall due, In (due, id) (timers (settle t w)) -> limit <= due).
Proof.
  intros Ht Hs Htm. unfold settle, run_timers. cbn [stats timers with_fs].
  set (due := List.filter (fun tm => fst tm <=? t) (timers w)).
  set (rest := List.filter (fun tm => negb (fst tm <=? t)) (timers w)).
  destruct (fold_evict due {| stats := stats w; fs := fs w; timers := rest |})
    as (_ & _ & _ & Htimers & _ & _ & _ & Hsame).
  cbn [stats timers] in *. split.
  - rewrite Hsame; [exact Hs|].
    intros d Hin. unfold due in Hin. apply filter_In in Hin as [Hin Hle].
    cbn in Hle. apply Z.leb_le in Hle. specialize (Htm _ Hin). lia.
  - rewrite Htimers. intros d Hin. unfold rest in Hin.
    apply filter_In in Hin as [Hin _]. now apply Htm.
Qed.

Lemma server_route_keeps_until_due (limit : Z) (id : string)
    (k : SessionRoute) env now b w :
  limit <= now + EVICTION_DELAY ->
  smap_get id (sessions (stats w)) <> None ->
  (forall due, In (due, id) (timers w) -> limit <= due) ->
  smap_get id (sessions (stats (snd (route k ServerJs env now b w)))) <> None /\
  (forall due, In (due, id) (timers (snd (route k ServerJs env now b w))) ->
               limit <= due).
Proof.
  intros Hl Hs Htm.
  destruct k; cbn [route];
    unfold recordDetection, recordInteraction, endSession;
    (destruct (validateSession ServerJs b w) eqn:Hv; [now split|]);
    destruct (validateSession_pass _ _ _ Hv) as (key & s & Hk & Hg);
    rewrite Hk; cbn [Map_get key_text]; rewrite Hg; cbn [snd];
    (split; [cbn; now apply smap_set_keeps|]); cbn.
  - exact Htm.
  - exact Htm.
  - intros d Hin. apply in_app_or in Hin as [Hin | [[= <- _] | []]];
      [now apply Htm | exact Hl].
Qed.

(** X8.  In [api/server.js] a closed session is kept for the whole
    retention delay: when no eviction timer was pending for it, it is ended
    at time [T], and the requests that follow arrive at times from [T] up
    to, but not including, [T] + 60 s, the session can still be looked up
    at every time before [T] + 60 s. *)
Theorem closed_session_kept_until_delay
    (env : Env) (T : Z) (b : Body) (w : World)
    (evs : list (Z * Request)) (t : Z) :
  status (fst (endSession ServerJs env T b w)) = 200 ->
  (forall due, ~ In (due, key_text (b_sessionId b)) (timers w)) ->
  (forall ev, In ev evs -> T <= fst ev < T + 60000) ->
  t < T + 60000 ->
  isValid (key_text (b_sessionId b))
    (settle t (run ServerJs env evs (snd (endSession ServerJs env T b w))))
  = true.
Proof.
  intros H200 Hnone Hevs Ht.
  set (id := key_text (b_sessionId b)).
  set (limit := T + 60000).
  assert (Hinit :
    smap_get id (sessions (stats (snd (endSession ServerJs env T b w)))) <> None /\
    (forall due, In (due, id) (timers (snd (endSession ServerJs env T b w))) ->
                 limit <= due)).
  { revert H200. unfold endSession.
    destruct (validateSession ServerJs b w) as [r|] eqn:Hv.
    - unfold validateSession in Hv.
      destruct (negb (ToBoolean (b_sessionId b)));
        [injection Hv as <-; discriminate|].
      destruct (negb (Map_has (b_sessionId b) (sessions (stats w))));
        [injection Hv as <-; discriminate | discriminate].
    - destruct (validateSession_pass _ _ _ Hv) as (key & s & Hk & Hg).
      unfold id in *. rewrite Hk in *. cbn [Map_get key_text] in *.
      rewrite Hg. cbn [snd fst]. intros _. split.
      + cbn. now rewrite smap_get_set_eq.
      + cbn. intros d Hin.
        apply in_app_or in Hin as [Hin | [[= <-] | []]];
          [now apply Hnone in Hin | unfold limit, EVICTION_DELAY; lia]. }
  generalize dependent (snd (endSession ServerJs env T b w)). intros w1 Hinit.
  clear H200 Hnone.
  assert (Hrun :
    smap_get id (sessions (stats (run ServerJs env evs w1))) <> None /\
    (forall due, In (due, id) (timers (run ServerJs env evs w1)) ->
                 limit <= due)).
  { revert w1 Hinit. induction evs as [|ev evs IH]; intros w1 Hinit;
      [exact Hinit|].
    cbn [run fold_left]. apply IH.
    - intros ev' Hin. apply Hevs. now right.
    - assert (Hev : T <= fst ev < T + 60000) by (apply Hevs; now left).
      destruct Hinit as [Hs Htm]. unfold step.
      destruct (settle_keeps_until_due limit id (fst ev) w1 ltac:(unfold limit; lia)
                  Hs Htm) as [Hs1 Htm1].
      generalize dependent (settle (fst ev) w1). intros w2 Hs1 Htm1.
      destruct ev as [t' [c|b'|b'|b'| | |f]]; cbn [fst snd handle] in *.
      + unfold startSession. cbn. split; [now apply smap_set_keeps | exact Htm1].
      + apply (server_route_keeps_until_due limit id Detection); auto.
        unfold limit, EVICTION_DELAY. lia.
      + apply (server_route_keeps_until_due limit id Interaction); auto.
        unfold limit, EVICTION_DELAY. lia.
      + apply (server_route_keeps_until_due limit id End); auto.
        unfold limit, EVICTION_DELAY. lia.
      + now split.
      + destruct (on_fs_keeps (listLogs ServerJs env) w2) as [-> ->].
        now split.
      + destruct (on_fs_keeps (readLog ServerJs env f) w2) as [-> ->].
        now split. }
  destruct Hrun as [Hs Htm].
  destruct (settle_keeps_until_due limit id t _ Ht Hs Htm) as [Hfin _].
  unfold isValid, Map_has, Map_get.
  destruct (smap_get id (sessions (stats (settle t (run ServerJs env evs w1)))));
    [reflexivity | contradiction].
Qed.

Lemma closed_session_kept_until_delay_witness :
  isValid sample_id
    (settle 71999
       (run ServerJs sample_env
          [(20000, ReqEnd (body_for (JStr sample_id))); (30000, ReqStats)]
          (snd (endSession ServerJs sample_env 12000
                  (body_for (JStr sample_id)) (world_open ServerJs)))))
  = true.
Proof.
  apply (closed_session_kept_until_delay sample_env 12000
           (body_for (JStr sample_id)) (world_open ServerJs)).
  - vm_compute. reflexivity.
  - intros due Hin. vm_compute in Hin. exact Hin.
  - intros ev [<- | [<- | []]]; cbn; lia.
  - lia.
Defined.

(** ** Log records are lines *)

Lemma Json_induction (P : Json.t -> Prop) :
  (forall v, P (Json.Val v)) ->
  (forall items, List.Forall P items -> P (Json.Arr items)) ->
  (forall fields, List.Forall (fun kv => P (snd kv)) fields ->
                  P (Json.Obj fields)) ->
  forall j, P j.
Proof.
  intros HV HA HO. fix IH 1. intros [v | items | fields].
  - apply HV.
  - apply HA. induction items as [|i items IHi]; constructor;
      [apply IH | exact IHi].
  - apply HO. induction fields as [|[k j] fields IHf]; constructor;
      [apply IH | exact IHf].
Qed.

Lemma escape_char_one_line (c : ascii) :
  has_char "010" (Json.escape_char c) = false.
Proof. destruct c as [[] [] [] [] [] [] [] []]; vm_compute; reflexivity. Qed.

Lemma escape_one_line (s : string) : has_char "010" (Json.escape s) = false.
Proof.
  induction s as [|c s IH]; [reflexivity|].
  cbn [Json.escape]. rewrite has_char_app, escape_char_one_line, IH.
  reflexivity.
Qed.

Lemma quote_one_line (s : string) : has_char "010" (Json.quote s) = false.
Proof.
  unfold Json.quote. cbn [has_char].
  rewrite has_char_app, escape_one_line. reflexivity.
Qed.

Lemma concat_sep_no_char (c : ascii) (sep : string) (l : list string) :
  has_char c sep = false ->
  List.Forall (fun x => has_char c x = false) l ->
  has_char c (String.concat sep l) = false.
Proof.
  intros Hsep Hl. induction Hl as [|x l Hx Hl IH]; [reflexivity|].
  destruct l as [|y l]; [exact Hx|].
  change (String.concat sep (x :: y :: l))
    with (x ++ sep ++ String.concat sep (y :: l)).
  now rewrite !has_char_app, Hx, Hsep, IH.
Qed.

Lemma ToString_one_line (v : JsVal) : has_char "010" (ToString v) = false
  \/ exists s, v = JStr s.
Proof.
  destruct v; try (left; reflexivity); try (right; eexists; reflexivity).
  all: left; cbn [ToString].
  all: try (destruct b; reflexivity).
  all: try (apply Number_toString_no_char; [reflexivity | discriminate]).
Qed.

Lemma has_char_lead (c d : ascii) (r : string) :
  has_char c (String d "" ++ r) = Ascii.eqb c d || has_char c r.
Proof. reflexivity. Qed.

Lemma stringify_one_line (j : Json.t) :
  forall text, Json.stringify j = Some text -> has_char "010" text = false.
Proof.
  induction j as [v | items IH | fields IH] using Json_induction;
    intros text Htext.
  - destruct v as [| |b|z|s]; cbn in Htext; try discriminate;
      injection Htext as <-.
    + reflexivity.
    + destruct b; reflexivity.
    + apply Number_toString_no_char; [reflexivity | discriminate].
    + apply quote_one_line.
  - cbn [Json.stringify] in Htext. injection Htext as <-.
    rewrite has_char_lead, has_char_app.
    rewrite concat_sep_no_char; [reflexivity | reflexivity |].
    induction IH as [|i items Hi _ IHitems]; constructor; [|exact IHitems].
    destruct (Json.stringify i) as [x|]; [now apply Hi | reflexivity].
  - cbn [Json.stringify] in Htext. injection Htext as <-.
    rewrite has_char_lead, has_char_app.
    rewrite concat_sep_no_char; [reflexivity | reflexivity |].
    induction IH as [|[k i] fields Hi _ IHfields]; cbn [flat_map];
      [constructor|].
    cbn [snd fst] in *. destruct (Json.stringify i) as [x|]; [|exact IHfields].
    constructor; [|exact IHfields].
    rewrite !has_char_app, quote_one_line, (Hi x eq_refl). reflexivity.
Qed.

Lemma reverse_string_app (a b acc : string) :
  reverse_string (a ++ b) acc = reverse_string b (reverse_string a acc).
Proof.
  revert acc. induction a as [|c a IH]; intros acc; [reflexivity|].
  rewrite app_String. cbn [reverse_string]. apply IH.
Qed.

Lemma reverse_string_acc (a acc : string) :
  reverse_string a acc = reverse_string a "" ++ acc.
Proof.
  revert acc. induction a as [|c a IH]; intros acc; [reflexivity|].
  cbn [reverse_string]. rewrite (IH (String c acc)), (IH (String c "")).
  rewrite string_app_assoc. reflexivity.
Qed.

Lemma reverse_string_involutive (a : string) :
  reverse_string (reverse_string a "") "" = a.
Proof.
  induction a as [|c a IH]; [reflexivity|].
  cbn [reverse_string]. rewrite (reverse_string_acc a (String c "")).
  rewrite reverse_string_app, IH. reflexivity.
Qed.

Lemma stringify_Obj_shape (fields : list (string * Json.t)) :
  exists inner, Json.stringify (Json.Obj fields) = Some ("{" ++ inner ++ "}").
Proof. eexists. reflexivity. Qed.

Lemma endsWith_refl (s : string) : endsWith s s = true.
Proof. destruct s; cbn [endsWith]; now rewrite String.eqb_refl. Qed.

Lemma endsWith_app_r (a s : string) : endsWith (a ++ s) s = true.
Proof.
  induction a as [|c a IH]; [apply endsWith_refl|].
  rewrite app_String. cbn [endsWith]. rewrite IH. apply orb_true_r.
Qed.

Lemma solid_braces (inner : string) :
  has_char "010" inner = false -> solid ("{" ++ inner ++ "}").
Proof.
  intros H. repeat split.
  - rewrite has_char_lead, has_char_app, H. reflexivity.
  - rewrite !reverse_string_app. reflexivity.
Qed.

Lemma logEntry_shape (env : Env) (now : Z) (e : string) (d : Json.t) :
  exists inner,
    logEntry env now e d = ("{" ++ inner ++ "}") ++ String "010" "" /\
    has_char "010" inner = false.
Proof.
  unfold logEntry.
  set (record := Json.Obj _).
  destruct (stringify_Obj_shape
              [("timestamp", Json.str (JsDate.toISOString now));
               ("event", Json.str e); ("data", d);
               ("pid", Json.num (pid env))]) as [inner Hin].
  fold record in Hin.
  pose proof (stringify_one_line record _ Hin) as Hline.
  rewrite Hin. exists inner. split; [reflexivity|].
  rewrite has_char_lead, has_char_app in Hline.
  apply orb_false_iff in Hline as [_ Hline].
  now apply orb_false_iff in Hline as [Hline _].
Qed.

(** X9.  Every record the logger writes is one line: the JSON text of the
    record, which starts with an opening and ends with a closing brace and
    holds no raw line feed whatever the event name and the data contain
    (line feeds inside strings are escaped), followed by a single line
    feed. *)
Theorem logEntry_is_one_line
    (env : Env) (now : Z) (e : string) (d : Json.t) :
  exists body,
    logEntry env now e d = body ++ String "010" "" /\
    solid body /\
    startsWith body "{" = true /\ endsWith body "}" = true.
Proof.
  destruct (logEntry_shape env now e d) as (inner & Hentry & Hinner).
  exists ("{" ++ inner ++ "}"). split; [exact Hentry|].
  split; [now apply solid_braces|]. split.
  - apply (prefix_app "{").
  - rewrite <- string_app_assoc. apply endsWith_app_r.
Qed.

(** ** Reading back what was logged *)
















Lemma flush_nothing_pending (now : Z) (disk : Fs.t) :
  Fs.pending disk = [] -> Fs.nodes (Fs.flush now disk) = Fs.nodes disk /\
                          Fs.fault (Fs.flush now disk) = Fs.fault disk.
Proof. intros H. unfold Fs.flush. rewrite H. now split. Qed.




(** ** Log file names *)

Lemma string_app_inv_tail (a b c : string) : a ++ c = b ++ c -> a = b.
Proof.
  intros H. apply (f_equal (fun s => reverse_string s "")) in H.
  rewrite !reverse_string_app, (reverse_string_acc c (reverse_string a "")),
    (reverse_string_acc c (reverse_string b "")) in H.
  apply string_app_inv_head in H.
  apply (f_equal (fun s => reverse_string s "")) in H.
  now rewrite !reverse_string_involutive in H.
Qed.

Lemma hd_split_app (sep : ascii) (a b : string) :
  has_char sep a = false -> hd "" (split_on sep (a ++ String sep b)) = a.
Proof.
  intros H. now rewrite split_on_app, (split_on_plain _ _ H).
Qed.

Lemma year_text_no_T (y : Z) : has_char "T" (JsDate.year_text y) = false.
Proof.
  unfold JsDate.year_text.
  destruct ((0 <=? y) && (y <=? 9999)); [now apply pad_no_char|].
  destruct (y <? 0); cbn [has_char]; now rewrite pad_no_char.
Qed.

(** The date part of a time stamp depends on the UTC day only. *)
Lemma dateString_of_day (ms : Z) :
  JsDate.dateString ms =
  (let '(y, m, d) := JsDate.civil_from_days (ms / 86400000) in
   JsDate.year_text y ++ "-" ++ JsDate.pad 2 m ++ "-" ++ JsDate.pad 2 d).
Proof.
  unfold JsDate.dateString, JsDate.toISOString.
  destruct (JsDate.civil_from_days (ms / 86400000)) as [[y m] d].
  set (rest := JsDate.pad 2 (ms mod 86400000 / 3600000) ++ _).
  replace (JsDate.year_text y ++ "-" ++ JsDate.pad 2 m ++ "-" ++
           JsDate.pad 2 d ++ "T" ++ rest)
    with ((JsDate.year_text y ++ "-" ++ JsDate.pad 2 m ++ "-" ++
           JsDate.pad 2 d) ++ String "T" rest)
    by (now rewrite !string_app_assoc).
  apply hd_split_app.
  rewrite !has_char_app, year_text_no_T, !pad_no_char by reflexivity.
  reflexivity.
Qed.

(** X12.  The logger keeps one file per event type and UTC day: for two
    times of the same UTC day, two events are written to the same file
    exactly when their event types are equal. *)
Theorem one_log_file_per_type_and_day (e e' : string) (t t' : Z) :
  t / 86400000 = t' / 86400000 ->
  (logFileName e t = logFileName e' t' <-> e = e').
Proof.
  intros Hday.
  assert (Hd : JsDate.dateString t = JsDate.dateString t')
    by now rewrite !dateString_of_day, Hday.
  unfold logFileName. rewrite Hd. split.
  - apply string_app_inv_tail.
  - now intros ->.
Qed.

Lemma one_log_file_per_type_and_day_witness :
  logFileName "DETECTION" 1000 = logFileName "DETECTION" 86399999.
Proof.
  apply (proj2 (one_log_file_per_type_and_day "DETECTION" "DETECTION"
                  1000 86399999 eq_refl)).
  reflexivity.
Defined.

(** ** The logger without its directory *)

(** X13.  When the log directory is not there (and the day's file is not
    either), nothing is written.  [api/index.js] reports the failure:
    [logToFile] returns [false].  [api/server.js] returns [true], the
    queued write fails later and only its callback sees the error, so the
    record is lost although the call reported success. *)
Theorem log_directory_missing
    (v : Variant) (env : Env) (now : Z) (e : string) (d : Json.t)
    (disk : Fs.t) :
  canonical (LOGS_DIR v env) = true ->
  has_char "/" e = false ->
  Fs.pending disk = [] ->
  Fs.is_dir disk (LOGS_DIR v env) = false ->
  Fs.nodes disk !! Path.join (LOGS_DIR v env) (logFileName e now) = None ->
  exists disk',
    logToFile v env now e d disk
    = (Fs.Ok (reported_without_directory v), disk') /\
    Fs.nodes (Fs.flush now disk') = Fs.nodes disk.
Proof.
  intros HL He Hpend Hdir Hnone.
  pose proof (join_canonical _ _ HL (logFileName_plain e now He)) as Hjoin.
  pose proof (dirname_child _ _ HL (logFileName_plain e now He)) as Hdn.
  rewrite Hjoin in Hnone.
  set (L := LOGS_DIR v env) in *.
  set (lp := L ++ "/" ++ logFileName e now) in *.
  unfold logToFile, logToFile_body, Fs.try_catch, Fs.bind, Fs.get,
    Fs.existsSync, Fs.appendFileSync.
  cbv zeta. fold L. rewrite Hjoin. fold lp. rewrite Hnone. cbn [Fs.ret].
  destruct v; cbn [reported_without_directory].
  - assert (Happ : exists err, Fs.append_now now lp (logEntry env now e d) disk
                               = (Fs.Throw err, disk)).
    { unfold Fs.append_now. destruct (Fs.fault disk Fs.OpAppend lp);
        [now eexists|].
      rewrite Hnone, Hdn, Hdir. now eexists. }
    destruct Happ as [err ->]. eexists. split; [reflexivity|].
    now apply flush_nothing_pending.
  - unfold Fs.appendFile. eexists. split; [reflexivity|].
    unfold Fs.flush. cbn [Fs.pending Fs.nodes Fs.fault Fs.reads].
    rewrite Hpend. cbn [app fold_left fst snd].
    unfold Fs.append_now. cbn [Fs.fault Fs.nodes].
    destruct (Fs.fault disk Fs.OpAppend lp); [reflexivity|].
    rewrite Hnone. unfold Fs.is_dir in *. cbn [Fs.nodes].
    rewrite Hdn. destruct (Fs.nodes disk !! L) as [[|]|];
      try discriminate; reflexivity.
Qed.

Lemma log_directory_missing_witness :
  exists disk',
    logToFile ServerJs sample_env 1000 "SESSION_START" (Json.num 7)
      (disk_of ∅)
    = (Fs.Ok (reported_without_directory ServerJs), disk') /\
    Fs.nodes (Fs.flush 1000 disk') = Fs.nodes (disk_of ∅).
Proof.
  apply (log_directory_missing ServerJs sample_env 1000 "SESSION_START"
           (Json.num 7) (disk_of ∅)); reflexivity.
Defined.

(** ** Routes that only read *)

Lemma mapM_log_info_disk v env (l : list string) (disk : Fs.t) :
  snd (mapM (log_info v env) l disk) = disk.
Proof.
  induction l as [|x l IH]; [reflexivity|].
  cbn [mapM]. unfold Fs.bind at 1. unfold log_info at 1.
  unfold Fs.bind at 1. unfold Fs.statSync.
  destruct (Fs.fault disk Fs.OpStat _); [reflexivity|].
  destruct (Fs.nodes disk !! _); [|reflexivity].
  cbn [Fs.ret]. unfold Fs.bind.
  destruct (mapM (log_info v env) l disk) as [[ys|err] disk1] eqn:Hm;
    cbn [snd] in IH; subst disk1; reflexivity.
Qed.

Lemma listLogs_disk v env (disk : Fs.t) : snd (listLogs v env disk) = disk.
Proof.
  unfold listLogs, Fs.try_catch, Fs.bind, Fs.get.
  destruct (negb (Fs.existsSync (LOGS_DIR v env) disk)); [reflexivity|].
  unfold Fs.readdirSync.
  destruct (Fs.fault disk Fs.OpReaddir _); [reflexivity|].
  destruct (Fs.nodes disk !! _) as [[|]|]; try reflexivity.
  set (names := List.filter _ _).
  pose proof (mapM_log_info_disk v env names disk) as Hm.
  destruct (mapM (log_info v env) names disk) as [[ys|err] disk1];
    cbn [snd] in Hm; subst disk1; reflexivity.
Qed.

Lemma readLog_disk v env (f : string) (disk : Fs.t) :
  Fs.nodes (snd (readLog v env f disk)) = Fs.nodes disk /\
  Fs.pending (snd (readLog v env f disk)) = Fs.pending disk /\
  Fs.fault (snd (readLog v env f disk)) = Fs.fault disk.
Proof.
  unfold readLog, Fs.try_catch, Fs.bind, decode.
  destruct (Uri.decodeURIComponent f) as [name|]; [|(repeat split; reflexivity)].
  cbn [Fs.ret].
  destruct (negb (startsWith _ _)); [(repeat split; reflexivity)|].
  unfold Fs.get.
  destruct (negb (Fs.existsSync _ disk) || negb (endsWith f ".log"));
    [(repeat split; reflexivity)|].
  unfold Fs.readFileSync.
  destruct (Fs.fault disk Fs.OpRead _); [(repeat split; reflexivity)|].
  destruct (Fs.nodes disk !! _) as [[content tm|]|] eqn:Hn;
    [|(repeat split; reflexivity)|(repeat split; reflexivity)].
  unfold Fs.statSync. cbn [Fs.fault Fs.nodes].
  destruct (Fs.fault disk Fs.OpStat _) eqn:Hf; [(repeat split; reflexivity)|].
  rewrite Hn. cbn [Fs.fault Fs.nodes]. rewrite Hf, Hn.
  repeat split; reflexivity.
Qed.

(** X14.  The three GET routes (statistics, list of logs, content of a
    log) only read: whatever they answer, failures included, the sessions,
    the counters, the pending eviction timers, the files and the queued
    writes are the same after the request as before. *)
Theorem get_routes_only_read
    (v : Variant) (env : Env) (now : Z) (r : Request) (w : World) :
  is_get r = true ->
  let w' := snd (handle v env now r w) in
  stats w' = stats w /\ timers w' = timers w /\
  Fs.nodes (fs w') = Fs.nodes (fs w) /\
  Fs.pending (fs w') = Fs.pending (fs w).
Proof.
  intros Hget w'. unfold w'. clear w'.
  destruct r; try discriminate; cbn [handle].
  - unfold getStats. cbn [snd]. now repeat split.
  - destruct (on_fs_keeps (listLogs v env) w) as [-> ->].
    unfold on_fs.
    pose proof (listLogs_disk v env (fs w)) as Hd.
    destruct (listLogs v env (fs w)) as [[a|err] disk1];
      cbn [snd] in Hd; subst disk1; cbn; now repeat split.
  - destruct (on_fs_keeps (readLog v env logFile) w) as [-> ->].
    unfold on_fs.
    destruct (readLog_disk v env logFile (fs w)) as (H1 & H2 & _).
    destruct (readLog v env logFile (fs w)) as [[a|err] disk1];
      cbn [snd] in *; cbn; now repeat split.
Qed.

Lemma get_routes_only_read_witness :
  let w' := snd (handle IndexJs sample_env 13000 (ReqLogRead "a.log")
                   (world_closed IndexJs)) in
  stats w' = stats (world_closed IndexJs) /\
  timers w' = timers (world_closed IndexJs) /\
  Fs.nodes (fs w') = Fs.nodes (fs (world_closed IndexJs)) /\
  Fs.pending (fs w') = Fs.pending (fs (world_closed IndexJs)).
Proof.
  apply (get_routes_only_read IndexJs sample_env 13000 (ReqLogRead "a.log")
           (world_closed IndexJs)).
  reflexivity.
Defined.

(** ** Directory listings *)

Lemma prefix_split (p k : string) :
  String.prefix p k = true ->
  k = p ++ String.substring (String.length p)
             (String.length k - String.length p) k.
Proof.
  revert k. induction p as [|a p IH]; intros k H.
  - cbn [String.length]. rewrite Nat.sub_0_r. cbn [String.substring].
    clear. induction k as [|c k IHk]; [reflexivity|].
    cbn [String.length String.substring]. change ("" ++ ?x) with x in *.
    now rewrite <- IHk.
  - destruct k as [|b k]; [discriminate|]. cbn [String.prefix] in H.
    destruct (ascii_dec a b) as [->|]; [|discriminate].
    rewrite app_String. cbn [String.length String.substring Nat.sub].
    f_equal. now apply IH.
Qed.

Lemma substring_app_tail (p rest : string) :
  String.substring (String.length p)
    (String.length (p ++ rest) - String.length p) (p ++ rest) = rest.
Proof.
  induction p as [|a p IH].
  - change ("" ++ rest) with rest. cbn [String.length].
    rewrite Nat.sub_0_r.
    induction rest as [|c r IHr]; [reflexivity|].
    cbn [String.length String.substring]. now rewrite IHr.
  - rewrite app_String. cbn [String.length String.substring Nat.sub].
    exact IH.
Qed.

Lemma canonical_not_root (L : string) : canonical L = true -> L <> "/".
Proof. intros H ->. discriminate. Qed.

Lemma child_name_Some (L k name : string) :
  canonical L = true ->
  Fs.child_name L k = Some name <->
  k = L ++ "/" ++ name /\ name <> "" /\ has_char "/" name = false.
Proof.
  intros HL. unfold Fs.child_name.
  destruct (String.eqb_spec L "/") as [->|_]; [discriminate|].
  unfold startsWith. split.
  - destruct (String.prefix (L ++ "/") k) eqn:Hp; [|discriminate].
    pose proof (prefix_split _ _ Hp) as Hk.
    set (n := String.substring _ _ k) in *.
    destruct (String.eqb_spec n "") as [|Hne]; [discriminate|].
    destruct (has_char "/" n) eqn:Hc; [discriminate|].
    cbn [orb]. intros [= <-].
    rewrite Hk at 1. now rewrite string_app_assoc.
  - intros (-> & Hne & Hc).
    rewrite <- string_app_assoc, prefix_app, substring_app_tail.
    destruct (String.eqb_spec name "") as [|_]; [contradiction|].
    now rewrite Hc.
Qed.

Lemma In_omap {A B} (f : A -> option B) (l : list A) (y : B) :
  In y (omap f l) <-> exists x, In x l /\ f x = Some y.
Proof.
  induction l as [|a l IH]; cbn [omap list_omap In].
  - split; [intros [] | intros (x & [] & _)].
  - fold (omap f l). destruct (f a) as [b|] eqn:Hfa; cbn [In]; rewrite ?IH.
    + split.
      * intros [<- | (x & Hx & Hf)]; [exists a | exists x]; auto.
      * intros (x & [<- | Hx] & Hf); [left; congruence | right; eauto].
    + split.
      * intros (x & Hx & Hf). eauto.
      * intros (x & [<- | Hx] & Hf); [congruence | eauto].
Qed.

Lemma NoDup_omap_fst {A B} (g : string -> option B) (l : list (string * A)) :
  (forall k k' z, g k = Some z -> g k' = Some z -> k = k') ->
  List.NoDup (List.map fst l) ->
  List.NoDup (omap (fun kn => g (fst kn)) l).
Proof.
  intros Hinj. induction l as [|[k a] l IH]; cbn [List.map fst omap list_omap];
    intros Hnd; [constructor|].
  fold (omap (fun kn : string * A => g (fst kn)) l).
  apply List.NoDup_cons_iff in Hnd as [Hk Hnd].
  destruct (g k) as [z|] eqn:Hg; [|now apply IH].
  constructor; [|now apply IH].
  intros Hin. apply In_omap in Hin as ([k' a'] & Hin & Hg').
  cbn [fst] in Hg'. rewrite (Hinj _ _ _ Hg Hg') in Hk.
  apply Hk. now apply (in_map fst) in Hin.
Qed.

Lemma In_map_to_list (m : gmap string Fs.Node) (k : string) (n : Fs.Node) :
  In (k, n) (map_to_list m) <-> m !! k = Some n.
Proof. rewrite <- elem_of_map_to_list. symmetry. apply list_elem_of_In. Qed.

Lemma NoDup_keys (m : gmap string Fs.Node) :
  List.NoDup (List.map fst (map_to_list m)).
Proof. apply NoDup_ListNoDup, NoDup_fst_map_to_list. Qed.

(** What [readdirSync] returns: the names of the entries directly below
    the directory, each once. *)
Lemma readdirSync_names (L : string) (disk : Fs.t) (names : list string)
    (disk' : Fs.t) :
  canonical L = true ->
  Fs.readdirSync L disk = (Fs.Ok names, disk') ->
  disk' = disk /\
  List.NoDup names /\
  forall name,
    In name names <->
    name <> "" /\ has_char "/" name = false /\
    Fs.nodes disk !! (L ++ "/" ++ name) <> None.
Proof.
  intros HL. unfold Fs.readdirSync.
  destruct (Fs.fault disk Fs.OpReaddir L); [discriminate|].
  destruct (Fs.nodes disk !! L) as [[|]|]; try discriminate.
  intros [= <- <-]. split; [reflexivity|]. split.
  - apply NoDup_omap_fst; [|apply NoDup_keys].
    intros k k' z Hk Hk'.
    apply (child_name_Some _ _ _ HL) in Hk as (-> & _).
    apply (child_name_Some _ _ _ HL) in Hk' as (-> & _). reflexivity.
  - intros name. rewrite In_omap. split.
    + intros ([k n] & Hin & Hc). cbn [fst] in Hc.
      apply (child_name_Some _ _ _ HL) in Hc as (-> & Hne & Hs).
      apply In_map_to_list in Hin. repeat split; auto. congruence.
    + intros (Hne & Hs & Hn).
      destruct (Fs.nodes disk !! (L ++ "/" ++ name)) as [n|] eqn:Hl;
        [|contradiction].
      exists (L ++ "/" ++ name, n). split; [now apply In_map_to_list|].
      cbn [fst]. now apply child_name_Some.
Qed.

(** ** The list of logs *)

Lemma insert_desc_sorted (x : LogInfo) (l : list LogInfo) :
  sorted_desc l -> sorted_desc (insert_desc x l).
Proof.
  induction l as [|y r IH]; cbn [insert_desc sorted_desc].
  - intros _. split; [intros y []|exact I].
  - intros [Hy Hr].
    destruct (Z.ltb_spec (l_lastModified y) (l_lastModified x)) as [Hlt|Hge];
      cbn [sorted_desc].
    + split; [|now split].
      intros z [<- | Hz]; [lia | specialize (Hy z Hz); lia].
    + split; [|now apply IH].
      intros z Hz. apply In_insert_desc in Hz as [-> | Hz]; [lia | now apply Hy].
Qed.

Lemma sort_desc_sorted (l : list LogInfo) : sorted_desc (sort_desc l).
Proof.
  unfold sort_desc. assert (H : sorted_desc []) by exact I.
  revert H. generalize (@nil LogInfo) as acc.
  induction l as [|x l IH]; intros acc H; [exact H|].
  cbn [fold_left]. now apply IH, insert_desc_sorted.
Qed.

Lemma insert_desc_perm (x : LogInfo) (l : list LogInfo) :
  Permutation (insert_desc x l) (x :: l).
Proof.
  induction l as [|y r IH]; cbn [insert_desc]; [reflexivity|].
  destruct (l_lastModified y <? l_lastModified x); [reflexivity|].
  rewrite IH. apply perm_swap.
Qed.

Lemma sort_desc_perm (l : list LogInfo) : Permutation (sort_desc l) l.
Proof.
  unfold sort_desc.
  enough (H : forall acc, Permutation (fold_left (fun a x => insert_desc x a) l acc)
                            (l ++ acc)%list)
    by (rewrite H; now rewrite List.app_nil_r).
  induction l as [|x l IH]; intros acc; [reflexivity|].
  cbn [fold_left]. rewrite IH, insert_desc_perm.
  symmetry. apply Permutation_middle.
Qed.

Lemma fold_sizes (l : list LogInfo) (acc : Z) :
  fold_left (fun sum i => sum + l_sizeBytes i) l acc =
  acc + sum_Z (List.map l_sizeBytes l).
Proof.
  revert acc. induction l as [|x l IH]; intros acc.
  - cbn. lia.
  - cbn [fold_left List.map]. rewrite IH.
    change (sum_Z (l_sizeBytes x :: List.map l_sizeBytes l))
      with (l_sizeBytes x + sum_Z (List.map l_sizeBytes l)).
    lia.
Qed.

Lemma log_name_plain (name : string) :
  endsWith name ".log" = true -> has_char "/" name = false ->
  plain name = true.
Proof.
  intros He Hs. unfold plain. rewrite Hs.
  destruct (String.eqb_spec name "") as [->|_]; [discriminate|].
  destruct (String.eqb_spec name ".") as [->|_]; [discriminate|].
  destruct (String.eqb_spec name "..") as [->|_]; [discriminate|].
  reflexivity.
Qed.

Lemma mapM_log_info_nodes v env (l : list string) disk infos disk' :
  mapM (log_info v env) l disk = (Fs.Ok infos, disk') ->
  List.Forall2
    (fun name info =>
       exists node,
         Fs.nodes disk !! Path.join (LOGS_DIR v env) name = Some node /\
         info = info_of name node) l infos.
Proof.
  revert infos. induction l as [|x l IH]; intros infos.
  - cbn. intros [= <- _]. constructor.
  - cbn [mapM]. unfold Fs.bind at 1. unfold log_info at 1.
    unfold Fs.bind at 1. unfold Fs.statSync.
    destruct (Fs.fault disk Fs.OpStat _); [discriminate|].
    destruct (Fs.nodes disk !! Path.join (LOGS_DIR v env) x) as [n|] eqn:Hn;
      [|discriminate].
    cbn [Fs.ret]. unfold Fs.bind.
    pose proof (mapM_log_info_disk v env l disk) as Hd.
    destruct (mapM (log_info v env) l disk) as [[ys|err] disk1] eqn:Hm;
      [|discriminate].
    cbn [snd] in Hd. subst disk1. intros [= <- <-].
    constructor; [exists n; split; [exact Hn | reflexivity] | now apply IH].
Qed.

Lemma mapM_log_info_sound v env (l : list string) disk :
  sound disk ->
  (forall name, In name l ->
     Fs.nodes disk !! Path.join (LOGS_DIR v env) name <> None) ->
  exists infos, mapM (log_info v env) l disk = (Fs.Ok infos, disk).
Proof.
  intros Hs. induction l as [|x l IH]; intros Hall.
  - now exists [].
  - destruct IH as [infos Hm]; [intros name Hin; apply Hall; now right|].
    cbn [mapM]. unfold Fs.bind at 1. unfold log_info at 1.
    unfold Fs.bind at 1. unfold Fs.statSync. rewrite (Hs Fs.OpStat).
    destruct (Fs.nodes disk !! Path.join (LOGS_DIR v env) x) as [n|] eqn:Hn;
      [|exfalso; apply (Hall x); [now left | exact Hn]].
    cbn [Fs.ret]. unfold Fs.bind. rewrite Hm. eexists. reflexivity.
Qed.

Lemma listLogs_inv v env disk r disk' logs total :
  canonical (LOGS_DIR v env) = true ->
  listLogs v env disk = (Fs.Ok r, disk') ->
  payload r = PLogs logs total ->
  logs = [] /\ total = 0 \/
  exists names infos,
    Fs.readdirSync (LOGS_DIR v env) disk = (Fs.Ok names, disk) /\
    mapM (log_info v env)
      (List.filter (fun file => endsWith file ".log") names) disk
    = (Fs.Ok infos, disk) /\
    logs = sort_desc infos /\
    total = sum_Z (List.map l_sizeBytes logs).
Proof.
  intros HL. unfold listLogs, Fs.try_catch, Fs.bind, Fs.get.
  destruct (negb (Fs.existsSync (LOGS_DIR v env) disk)).
  - cbn [Fs.ret]. intros [= <- _] [= <- <-]. now left.
  - destruct (Fs.readdirSync (LOGS_DIR v env) disk) as [[names|err] disk1] eqn:Hr;
      [|cbn [Fs.ret]; intros [= <- _]; discriminate].
    destruct (readdirSync_names _ _ _ _ HL Hr) as (-> & _).
    set (files := List.filter _ names).
    pose proof (mapM_log_info_disk v env files disk) as Hd.
    destruct (mapM (log_info v env) files disk) as [[infos|err] disk1] eqn:Hm;
      cbn [snd] in Hd; subst disk1;
      [|cbn [Fs.ret]; intros [= <- _]; discriminate].
    cbn [Fs.ret]. intros [= <- _] [= <- <-]. right.
    exists names, infos.
    split; [reflexivity|]. split; [exact Hm|]. split; [reflexivity|].
    rewrite fold_sizes. lia.
Qed.

(** X15.  Whenever [GET /api/logs] lists files, the list is ordered by
    modification time, newest first; it names each file once; every entry
    is a name ending in [.log] of an entry of the log directory, with the
    size and the times of that entry; and [totalSize] is the sum of the
    listed sizes. *)
Theorem listLogs_is_sorted_and_summed
    (v : Variant) (env : Env) (disk : Fs.t) (r : Response) (disk' : Fs.t)
    (logs : list LogInfo) (total : Z) :
  canonical (LOGS_DIR v env) = true ->
  listLogs v env disk = (Fs.Ok r, disk') ->
  payload r = PLogs logs total ->
  sorted_desc logs /\
  total = sum_Z (List.map l_sizeBytes logs) /\
  List.NoDup (List.map l_name logs) /\
  forall info, In info logs ->
    endsWith (l_name info) ".log" = true /\
    exists node,
      Fs.nodes disk !! (LOGS_DIR v env ++ "/" ++ l_name info) = Some node /\
      info = info_of (l_name info) node.
Proof.
  intros HL Hrun Hpay.
  destruct (listLogs_inv _ _ _ _ _ _ _ HL Hrun Hpay)
    as [[-> ->] | (names & infos & Hr & Hm & -> & ->)].
  - split; [exact I|]. split; [reflexivity|]. split; [constructor|].
    intros info [].
  - destruct (readdirSync_names _ _ _ _ HL Hr) as (_ & Hnd & Hnames).
    pose proof (mapM_log_info_names _ _ _ _ _ _ Hm) as Hmap.
    pose proof (mapM_log_info_nodes _ _ _ _ _ _ Hm) as Hall.
    split; [apply sort_desc_sorted|]. split; [reflexivity|]. split.
    + apply (Permutation_NoDup
               (l := List.map l_name infos)).
      * apply Permutation_map. symmetry. apply sort_desc_perm.
      * rewrite Hmap. now apply List.NoDup_filter.
    + intros info Hin. apply (proj1 (In_sort_desc _ _)) in Hin.
      assert (Hname : In (l_name info)
                        (List.filter (fun f => endsWith f ".log") names)).
      { rewrite <- Hmap. now apply in_map. }
      apply filter_In in Hname as [Hname Hlog].
      apply Hnames in Hname as (_ & Hslash & _).
      split; [exact Hlog|].
      clear Hmap Hm Hpay Hrun. revert Hin.
      induction Hall as [|name i l l2 (node & Hnode & Hi) _ IH];
        [intros [] | intros [Heq | Hin]; [|now apply IH]].
      rewrite Hi in Heq. subst info. cbn [l_name info_of] in *.
      rewrite (join_canonical _ _ HL (log_name_plain _ Hlog Hslash)) in Hnode.
      now exists node.
Qed.

Lemma listLogs_is_sorted_and_summed_witness :
  exists logs total,
    payload (respond_ok (PLogs logs total)) = PLogs logs total /\
    List.map l_name logs =
      ["SESSION_START_1970-01-02.log"; "DETECTION_1970-01-01.log"] /\
    sorted_desc logs /\ total = sum_Z (List.map l_sizeBytes logs).
Proof.
  eexists. eexists. split; [reflexivity|]. split; [|
    destruct (listLogs_is_sorted_and_summed IndexJs sample_env
                disk_with_two_logs _ _ _ _
                ltac:(reflexivity)
                ltac:(vm_compute; reflexivity)
                ltac:(reflexivity)) as (H1 & H2 & _); split; [exact H1 | exact H2]].
  reflexivity.
Defined.

(** X16.  On a file system without outside faults, with the log directory
    present and in normal form, [GET /api/logs] answers 200, leaves the
    disk as it is and lists every entry directly below the log directory
    whose name ends in [.log], with its size and times. *)
Theorem listLogs_lists_every_log
    (v : Variant) (env : Env) (disk : Fs.t) :
  sound disk ->
  canonical (LOGS_DIR v env) = true ->
  Fs.is_dir disk (LOGS_DIR v env) = true ->
  exists logs total,
    listLogs v env disk = (Fs.Ok (respond_ok (PLogs logs total)), disk) /\
    forall name node,
      endsWith name ".log" = true ->
      has_char "/" name = false ->
      Fs.nodes disk !! (LOGS_DIR v env ++ "/" ++ name) = Some node ->
      In (info_of name node) logs.
Proof.
  intros Hs HL Hdir.
  destruct (is_dir_lookup _ _ Hdir) as (sz & tmd & HLd).
  assert (Hr : exists names,
             Fs.readdirSync (LOGS_DIR v env) disk = (Fs.Ok names, disk)).
  { unfold Fs.readdirSync. rewrite (Hs Fs.OpReaddir), HLd. eexists. reflexivity. }
  destruct Hr as [names Hr].
  destruct (readdirSync_names _ _ _ _ HL Hr) as (_ & _ & Hnames).
  set (files := List.filter (fun f => endsWith f ".log") names).
  destruct (mapM_log_info_sound v env files disk Hs) as [infos Hm].
  { intros name Hin. apply filter_In in Hin as [Hin Hlog].
    apply Hnames in Hin as (_ & Hslash & Hn).
    now rewrite (join_canonical _ _ HL (log_name_plain _ Hlog Hslash)). }
  exists (sort_desc infos).
  exists (fold_left (fun sum l => sum + l_sizeBytes l) (sort_desc infos) 0).
  split.
  - unfold listLogs, Fs.try_catch, Fs.bind, Fs.get, Fs.existsSync.
    rewrite HLd. cbn [negb]. rewrite Hr. fold files. rewrite Hm. reflexivity.
  - intros name node Hlog Hslash Hnode.
    apply In_sort_desc.
    assert (Hin : In name files).
    { apply filter_In. split; [|exact Hlog]. apply Hnames.
      repeat split; auto.
      - intros ->. discriminate.
      - congruence. }
    pose proof (mapM_log_info_nodes _ _ _ _ _ _ Hm) as Hall.
    clear Hm. revert Hin.
    induction Hall as [|x i l l2 (n & Hn & Hi) _ IH];
      [intros [] | intros [Heq | Hin]; [|right; now apply IH]].
    left. subst x. rewrite Hi.
    rewrite (join_canonical _ _ HL (log_name_plain _ Hlog Hslash)) in Hn.
    congruence.
Qed.

Lemma listLogs_lists_every_log_witness :
  exists logs total,
    listLogs IndexJs sample_env disk_with_two_logs
    = (Fs.Ok (respond_ok (PLogs logs total)), disk_with_two_logs) /\
    forall name node,
      endsWith name ".log" = true ->
      has_char "/" name = false ->
      Fs.nodes disk_with_two_logs !! (LOGS_DIR IndexJs sample_env ++ "/" ++ name)
      = Some node ->
      In (info_of name node) logs.
Proof.
  apply (listLogs_lists_every_log IndexJs sample_env disk_with_two_logs).
  - intros op p. reflexivity.
  - reflexivity.
  - vm_compute. reflexivity.
Defined.

(** ** Cleaning up old logs *)

Lemma cleanup_each_invalid (env : Env) (files : list string) (acc : Z)
    (disk : Fs.t) :
  snd (cleanup_each env None files acc disk) = disk.
Proof.
  revert acc. induction files as [|f files IH]; intros acc; [reflexivity|].
  cbn [cleanup_each]. unfold Fs.bind, Fs.statSync.
  destruct (Fs.fault disk Fs.OpStat _); [reflexivity|].
  destruct (Fs.nodes disk !! _); [|reflexivity].
  cbn [older]. apply IH.
Qed.

(** X17.  A [days] parameter that gives no valid cut-off date (a text
    that [parseInt] cannot read, or a number of days that leads outside
    the range of dates) makes the clean-up delete nothing: the disk is
    left as it is.  When the log directory exists the answer is 500 (the
    failure comes from formatting the invalid date at the end); when it
    does not, the answer is 200. *)
Theorem cleanup_without_valid_cutoff
    (env : Env) (now : Z) (days : JsVal) (disk : Fs.t) :
  cutoff now days = None ->
  exists r,
    cleanupLogs env now days disk = (Fs.Ok r, disk) /\
    c_status r =
    (if Fs.existsSync (LOGS_DIR IndexJs env) disk then 500 else 200).
Proof.
  intros Hcut. unfold cleanupLogs, Fs.try_catch, Fs.bind, Fs.get.
  rewrite Hcut.
  destruct (Fs.existsSync (LOGS_DIR IndexJs env) disk); cbn [negb];
    [|eexists; split; reflexivity].
  unfold Fs.readdirSync.
  destruct (Fs.fault disk Fs.OpReaddir _); [eexists; split; reflexivity|].
  destruct (Fs.nodes disk !! _) as [[|]|];
    try (eexists; split; reflexivity).
  set (names := omap _ _).
  pose proof (cleanup_each_invalid env names 0 disk) as Hd.
  destruct (cleanup_each env None names 0 disk) as [[n|err] disk1];
    cbn [snd] in Hd; subst disk1; eexists; split; reflexivity.
Qed.

Lemma cleanup_without_valid_cutoff_witness :
  exists r,
    cleanupLogs sample_env 172800000 (JStr "all") disk_with_two_logs
    = (Fs.Ok r, disk_with_two_logs) /\
    c_status r =
    (if Fs.existsSync (LOGS_DIR IndexJs sample_env) disk_with_two_logs
     then 500 else 200).
Proof.
  apply (cleanup_without_valid_cutoff sample_env 172800000 (JStr "all")
           disk_with_two_logs).
  reflexivity.
Defined.

Lemma unlinkSync_file disk p d tm :
  sound disk -> Fs.nodes disk !! p = Some (Fs.File d tm) ->
  unlinkSync p disk = (Fs.Ok tt, Fs.with_nodes (delete p (Fs.nodes disk)) disk).
Proof.
  intros Hs Hp. unfold unlinkSync. now rewrite (Hs Fs.OpRename), Hp.
Qed.

Lemma statSync_node disk p n :
  sound disk -> Fs.nodes disk !! p = Some n ->
  Fs.statSync p disk = (Fs.Ok (Fs.stat_of n), disk).
Proof.
  intros Hs Hp. unfold Fs.statSync. now rewrite (Hs Fs.OpStat), Hp.
Qed.

Lemma is_child_name (L k name : string) :
  Fs.child_name L k = Some name -> is_child L k = true.
Proof. unfold is_child. now intros ->. Qed.

(** The loop of the clean-up over the entries [kns] of the tree. *)
Lemma cleanup_each_effect (env : Env) (c : Z)
    (kns : list (string * Fs.Node)) :
  canonical (LOGS_DIR IndexJs env) = true ->
  forall (acc : Z) (disk : Fs.t),
    sound disk ->
    List.NoDup (List.map fst kns) ->
    (forall k n, In (k, n) kns -> Fs.nodes disk !! k = Some n) ->
    (forall k n, In (k, n) kns ->
       Fs.child_name (LOGS_DIR IndexJs env) k <> Some "." /\
       Fs.child_name (LOGS_DIR IndexJs env) k <> Some "..") ->
    (forall k sz tm, In (k, Fs.Dir sz tm) kns ->
       is_child (LOGS_DIR IndexJs env) k = true -> c <= Fs.mtime tm) ->
    exists disk',
      cleanup_each env (Some c)
        (omap (fun kn => Fs.child_name (LOGS_DIR IndexJs env) (fst kn)) kns)
        acc disk
      = (Fs.Ok (acc + Z.of_nat
                        (List.length
                           (List.filter (purged (LOGS_DIR IndexJs env) c) kns))),
         disk') /\
      forall p,
        Fs.nodes disk' !! p =
        if existsb (fun kn => String.eqb (fst kn) p &&
                              purged (LOGS_DIR IndexJs env) c kn) kns
        then None else Fs.nodes disk !! p.
Proof.
  intros HL. set (L := LOGS_DIR IndexJs env) in *.
  induction kns as [|[k n] rest IH]; intros acc disk Hs Hnd Hlook Hdots Hdirs.
  - exists disk. split; [|reflexivity].
    cbn [omap list_omap cleanup_each List.filter List.length Fs.ret].
    change (Z.of_nat 0) with 0. now rewrite Z.add_0_r.
  - apply List.NoDup_cons_iff in Hnd as [Hk Hnd]. cbn [List.map fst] in Hk.
    assert (Hn : Fs.nodes disk !! k = Some n) by (apply Hlook; now left).
    assert (Hrest : forall disk1,
              sound disk1 ->
              (forall p, p <> k -> Fs.nodes disk1 !! p = Fs.nodes disk !! p) ->
              forall acc1,
              exists disk',
                cleanup_each env (Some c)
                  (omap (fun kn => Fs.child_name L (fst kn)) rest) acc1 disk1
                = (Fs.Ok (acc1 + Z.of_nat
                                   (List.length (List.filter (purged L c) rest))),
                   disk') /\
                forall p,
                  Fs.nodes disk' !! p =
                  if existsb (fun kn => String.eqb (fst kn) p && purged L c kn)
                       rest
                  then None else Fs.nodes disk1 !! p).
    { intros disk1 Hs1 Hsame acc1. apply IH; auto.
      - intros k' n' Hin. rewrite Hsame; [apply Hlook; now right|].
        intros ->. apply Hk. now apply (in_map fst) in Hin.
      - intros k' n' Hin. apply (Hdots k' n'). now right.
      - intros k' sz tm Hin. apply (Hdirs k' sz tm). now right. }
    cbn [omap list_omap fst].
    fold (omap (fun kn : string * Fs.Node => Fs.child_name L (fst kn)) rest).
    cbn [List.filter existsb fst].
    assert (Hpg : purged L c (k, n) =
                  is_child L k && purgeable c n) by reflexivity.
    rewrite !Hpg. clear Hpg.
    destruct (Fs.child_name L k) as [name|] eqn:Hc.
    + rewrite (is_child_name _ _ _ Hc). cbn [andb].
      pose proof Hc as Hc'.
      apply (child_name_Some _ _ _ HL) in Hc' as (Hkey & Hne & Hslash).
      assert (Hplain : plain name = true).
      { destruct (Hdots k n ltac:(now left)) as [H1 H2].
        unfold plain. rewrite Hslash.
        destruct (String.eqb_spec name "") as [|_]; [contradiction|].
        destruct (String.eqb_spec name ".") as [->|_]; [congruence|].
        destruct (String.eqb_spec name "..") as [->|_]; [congruence|].
        reflexivity. }
      cbn [cleanup_each]. fold L.
      rewrite (join_canonical _ _ HL Hplain), <- Hkey.
      unfold Fs.bind at 1. rewrite (statSync_node _ _ _ Hs Hn).
      assert (Hold : older (Fs.st_mtime (Fs.stat_of n)) (Some c) = purgeable c n).
      { destruct n as [d tm | sz tm]; cbn; [reflexivity|].
        apply Z.ltb_ge. apply (Hdirs k sz tm); [now left|].
        now apply (is_child_name _ _ name). }
      rewrite Hold.
      destruct (purgeable c n) eqn:Hp.
      * destruct n as [d tm | sz tm]; [|discriminate].
        unfold Fs.bind. rewrite (unlinkSync_file _ _ _ _ Hs Hn).
        destruct (Hrest (Fs.with_nodes (delete k (Fs.nodes disk)) disk) Hs
                    ltac:(intros p Hpk; cbn; now rewrite lookup_delete_ne)
                    (acc + 1)) as (disk' & Hrun & Hnodes).
        exists disk'. split.
        { rewrite Hrun. cbn [List.length]. rewrite Nat2Z.inj_succ.
          now replace (acc + 1 + Z.of_nat (List.length (List.filter (purged L c) rest)))
            with (acc + Z.succ (Z.of_nat (List.length (List.filter (purged L c) rest))))
            by lia. }
        intros p. rewrite Hnodes. cbn [Fs.nodes Fs.with_nodes].
        destruct (String.eqb_spec k p) as [<-|Hkp]; cbn [andb orb].
        -- rewrite lookup_delete_eq. now destruct (existsb _ rest).
        -- now rewrite lookup_delete_ne.
      * destruct (Hrest disk Hs ltac:(reflexivity) acc)
          as (disk' & Hrun & Hnodes).
        exists disk'. split; [exact Hrun|].
        intros p. rewrite Hnodes. now rewrite andb_false_r.
    + unfold is_child. rewrite Hc. cbn [andb].
      destruct (Hrest disk Hs ltac:(reflexivity) acc)
        as (disk' & Hrun & Hnodes).
      exists disk'. split; [exact Hrun|].
      intros p. rewrite Hnodes. now rewrite andb_false_r.
Qed.

Lemma existsb_entries (m : gmap string Fs.Node) (f : string * Fs.Node -> bool)
    (p : string) :
  existsb (fun kn => String.eqb (fst kn) p && f kn) (map_to_list m) =
  match m !! p with
  | Some n => f (p, n)
  | None => false
  end.
Proof.
  apply eq_true_iff_eq. rewrite existsb_exists. split.
  - intros ([k n] & Hin & Hb). apply andb_true_iff in Hb as [Hk Hf].
    cbn [fst] in Hk. apply String.eqb_eq in Hk as ->.
    apply In_map_to_list in Hin. now rewrite Hin.
  - destruct (m !! p) as [n|] eqn:Hp; [|discriminate].
    intros Hf. exists (p, n). split; [now apply In_map_to_list|].
    cbn [fst]. now rewrite String.eqb_refl.
Qed.

(** X18.  With a valid cut-off date, on a file system without outside
    faults whose log directory is present, in normal form, and holds no
    sub-directory older than the cut-off, the clean-up answers 200 and
    removes exactly the regular files directly below the log directory
    that were last modified before the cut-off: every such file is gone,
    whatever its name (backups and files that are no logs included),
    every other path keeps its node, and [deleted] is the number of files
    removed. *)
Theorem cleanup_removes_exactly_the_old_files
    (env : Env) (now : Z) (days : JsVal) (disk : Fs.t) (c : Z) :
  sound disk ->
  canonical (LOGS_DIR IndexJs env) = true ->
  Fs.is_dir disk (LOGS_DIR IndexJs env) = true ->
  cutoff now days = Some c ->
  Fs.nodes disk !! (LOGS_DIR IndexJs env ++ "/.") = None ->
  Fs.nodes disk !! (LOGS_DIR IndexJs env ++ "/..") = None ->
  (forall k sz tm,
     Fs.nodes disk !! k = Some (Fs.Dir sz tm) ->
     is_child (LOGS_DIR IndexJs env) k = true -> c <= Fs.mtime tm) ->
  exists disk',
    cleanupLogs env now days disk =
    (Fs.Ok {| c_status := 200; c_success := true;
              c_deleted :=
                Some (Z.of_nat
                        (List.length
                           (List.filter (purged (LOGS_DIR IndexJs env) c)
                              (map_to_list (Fs.nodes disk)))));
              c_cutoffDate := Some (JsDate.toISOString c) |},
     disk') /\
    forall p,
      Fs.nodes disk' !! p =
      match Fs.nodes disk !! p with
      | Some n => if purged (LOGS_DIR IndexJs env) c (p, n) then None else Some n
      | None => None
      end.
Proof.
  intros Hs HL Hdir Hcut Hdot Hdotdot Hdirs.
  destruct (is_dir_lookup _ _ Hdir) as (sz & tmd & HLd).
  destruct (cleanup_each_effect env c (map_to_list (Fs.nodes disk)) HL 0 disk Hs)
    as (disk' & Hrun & Hnodes).
  - apply NoDup_keys.
  - intros k n. apply In_map_to_list.
  - intros k n Hin. apply In_map_to_list in Hin.
    split; intros Hc; apply (child_name_Some _ _ _ HL) in Hc as (-> & _).
    + change (Fs.nodes disk !! (LOGS_DIR IndexJs env ++ "/.") = Some n) in Hin.
      congruence.
    + change (Fs.nodes disk !! (LOGS_DIR IndexJs env ++ "/..") = Some n) in Hin.
      congruence.
  - intros k sz' tm Hin. apply In_map_to_list in Hin.
    now apply (Hdirs k sz' tm).
  - exists disk'. split.
    + unfold cleanupLogs, Fs.try_catch, Fs.bind, Fs.get, Fs.existsSync.
      rewrite Hcut, HLd. cbn [negb].
      unfold Fs.readdirSync. rewrite (Hs Fs.OpReaddir), HLd, Hrun.
      reflexivity.
    + intros p. rewrite Hnodes, existsb_entries.
      now destruct (Fs.nodes disk !! p).
Qed.

Lemma cleanup_removes_exactly_the_old_files_witness :
  exists disk',
    cleanupLogs sample_env 172800000 (JStr "1") disk_with_two_logs =
    (Fs.Ok {| c_status := 200; c_success := true;
              c_deleted :=
                Some (Z.of_nat
                        (List.length
                           (List.filter
                              (purged (LOGS_DIR IndexJs sample_env) 86400000)
                              (map_to_list (Fs.nodes disk_with_two_logs)))));
              c_cutoffDate := Some (JsDate.toISOString 86400000) |},
     disk') /\
    forall p,
      Fs.nodes disk' !! p =
      match Fs.nodes disk_with_two_logs !! p with
      | Some n =>
          if purged (LOGS_DIR IndexJs sample_env) 86400000 (p, n)
          then None else Some n
      | None => None
      end.
Proof.
  apply (cleanup_removes_exactly_the_old_files sample_env 172800000
           (JStr "1") disk_with_two_logs 86400000).
  - intros op p. reflexivity.
  - reflexivity.
  - vm_compute. reflexivity.
  - reflexivity.
  - vm_compute. reflexivity.
  - vm_compute. reflexivity.
  - intros k sz tm Hk Hc.
    unfold disk_with_two_logs, disk_of in Hk. cbn [Fs.nodes] in Hk.
    repeat (apply lookup_insert_Some in Hk as [[_ Hk] | [_ Hk]];
            [discriminate Hk|]).
    apply lookup_singleton_Some in Hk as [<- _].
    vm_compute in Hc. discriminate Hc.
Defined.

(** ** The statistics snapshot *)

Lemma smap_set_length_le (k : string) (s : Session) (m : SessionMap) :
  (List.length (smap_set k s m) <= S (List.length m))%nat.
Proof.
  induction m as [|[k' s'] m IH]; cbn [smap_set List.length]; [lia|].
  destruct (String.eqb k' k); cbn [List.length]; lia.
Qed.

Lemma smap_delete_length_le (k : string) (m : SessionMap) :
  (List.length (smap_delete k m) <= List.length m)%nat.
Proof. unfold smap_delete. apply List.filter_length_le. Qed.

Lemma fold_evict_length (l : list (Z * string)) (w : World) :
  (List.length
     (sessions (stats (fold_left (fun acc tm => evict (snd tm) acc) l w)))
   <= List.length (sessions (stats w)))%nat.
Proof.
  revert w. induction l as [|tm l IH]; intros w; [cbn; lia|].
  cbn [fold_left]. etransitivity; [apply IH|].
  unfold evict. cbn. apply smap_delete_length_le.
Qed.

Lemma route_length (k : SessionRoute) v env now b w :
  List.length (sessions (stats (snd (route k v env now b w)))) =
  List.length (sessions (stats w)).
Proof.
  destruct k; cbn [route];
    unfold recordDetection, recordInteraction, endSession;
    (destruct (validateSession v b w) eqn:Hv; [reflexivity|]);
    destruct (validateSession_pass _ _ _ Hv) as (key & s & Hk & Hg);
    rewrite Hk; cbn [Map_get key_text]; rewrite Hg;
    try destruct v; cbn; apply (smap_set_length_present _ _ s), Hg.
Qed.

Lemma step_stored_le_total v env ev w :
  Z.of_nat (List.length (sessions (stats w))) <= totalSessions (stats w) ->
  Z.of_nat (List.length (sessions (stats (snd (step v env ev w)))))
  <= totalSessions (stats (snd (step v env ev w))).
Proof.
  intros H. unfold step.
  assert (H1 : Z.of_nat (List.length (sessions (stats (settle (fst ev) w))))
               <= totalSessions (stats (settle (fst ev) w))).
  { destruct (settle_keeps_counters (fst ev) w) as (Hc & _).
    assert (Hs : totalSessions (stats (settle (fst ev) w))
                 = totalSessions (stats w))
      by (unfold counters in Hc; congruence).
    rewrite Hs. unfold settle, run_timers. cbn [stats with_fs].
    pose proof (fold_evict_length
                  (List.filter (fun tm => fst tm <=? fst ev) (timers w))
                  {| stats := stats w; fs := fs w;
                     timers := List.filter (fun tm => negb (fst tm <=? fst ev))
                                 (timers w) |}) as Hl.
    cbn [stats] in Hl. lia. }
  generalize dependent (settle (fst ev) w). intros w1 H1.
  destruct ev as [t [c|b|b|b| | |f]]; cbn [fst snd handle].
  - unfold startSession. cbn.
    match goal with
    | |- context [smap_set ?k ?s ?m] =>
        pose proof (smap_set_length_le k s m) as Hl
    end.
    lia.
  - rewrite (route_length Detection), (route_counters Detection). exact H1.
  - rewrite (route_length Interaction), (route_counters Interaction). exact H1.
  - rewrite (route_length End), (route_counters End). exact H1.
  - exact H1.
  - destruct (on_fs_keeps (listLogs v env) w1) as [-> _]. exact H1.
  - destruct (on_fs_keeps (readLog v env f) w1) as [-> _]. exact H1.
Qed.

(** X19.  The snapshot of [GET /api/stats] is consistent in every run
    from process start: the answer is 200, [activeSessions] is the length
    of the list of active sessions sent along and never exceeds
    [totalSessions], every listed session is a stored one without
    [endTime], and [avgDetectionsPerSession] is 0 when no session was ever
    started (there is no division by zero) and otherwise, for a
    [totalDetections] that is an integer of magnitude at most 2^51 (where
    the division and the rounding of JavaScript are exact), the integer
    nearest to [totalDetections / totalSessions], halves going up. *)
Theorem stats_snapshot_is_consistent
    (v : Variant) (env : Env) (t0 : Z) (disk : Fs.t)
    (evs : list (Z * Request)) (now : Z) :
  let w := run v env evs (initial_world t0 disk) in
  exists snap,
    fst (getStats now w) = respond_ok (PStats snap) /\
    s_activeSessions snap = Z.of_nat (List.length (s_active snap)) /\
    0 <= s_activeSessions snap <= s_totalSessions snap /\
    (forall a, In a (s_active snap) ->
       exists k s, In (k, s) (sessions (stats w)) /\ endTime s = None /\
                   a = active_info now s) /\
    (s_totalSessions snap = 0 -> s_avgDetectionsPerSession snap = Num 0) /\
    (forall d, s_totalDetections snap = Num d -> Z.abs d <= 2 ^ 51 ->
       0 < s_totalSessions snap ->
       exists q,
         s_avgDetectionsPerSession snap = Num q /\
         2 * s_totalSessions snap * q - s_totalSessions snap <= 2 * d
         < 2 * s_totalSessions snap * q + s_totalSessions snap).
Proof.
  intros w.
  assert (Hle : Z.of_nat (List.length (sessions (stats w)))
                <= totalSessions (stats w)).
  { unfold w. clear w.
    assert (H0 : Z.of_nat (List.length (sessions (stats (initial_world t0 disk))))
                 <= totalSessions (stats (initial_world t0 disk)))
      by (cbn; lia).
    revert H0. generalize (initial_world t0 disk).
    induction evs as [|ev evs IH]; intros w0 H0; [exact H0|].
    cbn [run fold_left]. apply IH. now apply step_stored_le_total. }
  generalize dependent w. intros w Hle.
  unfold getStats. cbn [fst]. eexists. split; [reflexivity|].
  cbn [s_activeSessions s_active s_totalSessions s_avgDetectionsPerSession
       s_totalDetections].
  set (act := List.filter is_active (Map_values (sessions (stats w)))).
  assert (Hact : (List.length act <= List.length (sessions (stats w)))%nat).
  { unfold act, Map_values.
    etransitivity; [apply List.filter_length_le|]. now rewrite List.length_map. }
  split; [now rewrite List.length_map|]. split; [lia|]. split.
  - intros a Ha. apply in_map_iff in Ha as (s & <- & Hs).
    unfold act in Hs. apply filter_In in Hs as [Hs Hopen].
    unfold Map_values in Hs. apply in_map_iff in Hs as ([k s'] & <- & Hin).
    exists k, s'. cbn [snd] in *. repeat split; auto.
    unfold is_active in Hopen. now destruct (endTime s').
  - split.
    + intros H0. unfold avgDetectionsPerSession. rewrite H0. reflexivity.
    + intros d Hd _ Hpos. unfold avgDetectionsPerSession. rewrite Hd.
      destruct (Z.gtb_spec (totalSessions (stats w)) 0) as [_|]; [|lia].
      eexists. split; [reflexivity|].
      now apply round_div_bounds.
Qed.

Lemma stats_snapshot_is_consistent_witness :
  exists snap,
    fst (getStats 5000
           (run ServerJs sample_env
              [(1000, ReqStart sample_client);
               (1001, ReqStart sample_client);
               (1500, ReqDetection
                        (detection_body (JStr sample_id) (JNum 3) (JNum 2)));
               (2000, ReqEnd (body_for (JStr sample_id)))]
              (initial_world 0 sample_disk)))
    = respond_ok (PStats snap) /\
    0 <= s_activeSessions snap <= s_totalSessions snap /\
    exists q,
      s_avgDetectionsPerSession snap = Num q /\
      2 * s_totalSessions snap * q - s_totalSessions snap <= 2 * 5
      < 2 * s_totalSessions snap * q + s_totalSessions snap.
Proof.
  destruct (stats_snapshot_is_consistent ServerJs sample_env 0 sample_disk
              [(1000, ReqStart sample_client);
               (1001, ReqStart sample_client);
               (1500, ReqDetection
                        (detection_body (JStr sample_id) (JNum 3) (JNum 2)));
               (2000, ReqEnd (body_for (JStr sample_id)))] 5000)
    as (snap & H1 & _ & H2 & _ & _ & Havg).
  exists snap. split; [exact H1|]. split; [exact H2|].
  assert (Hsnap : s_totalDetections snap = Num 5 /\ s_totalSessions snap = 2).
  { vm_compute in H1. injection H1 as <-. split; reflexivity. }
  destruct Hsnap as [Hd Hn].
  apply (Havg 5 Hd).
  - vm_compute. discriminate.
  - rewrite Hn. reflexivity.
Defined.

(** ** Counts sent as text *)

Lemma parse_digits_stop (rest : string) (n : N) :
  continues_number rest = false ->
  parse_digits 10 rest (Some n) = Some n.
Proof.
  destruct rest as [|c rest]; [reflexivity|].
  cbn [continues_number parse_digits].
  now destruct (digit_value 10 c).
Qed.

Lemma strip_hex_prefix_other (c : ascii) (t : string) :
  c <> "0"%char -> strip_hex_prefix (String c t) = (10%N, String c t).
Proof.
  intros Hc. destruct c as [[] [] [] [] [] [] [] []]; try reflexivity.
  congruence.
Qed.

Lemma strip_hex_prefix_zero (t : string) :
  (forall r t', t = String r t' -> r <> "x"%char /\ r <> "X"%char) ->
  strip_hex_prefix (String "0" t) = (10%N, String "0" t).
Proof.
  destruct t as [|r t]; [reflexivity|]. intros H.
  destruct (H r t eq_refl) as [Hx HX].
  destruct r as [[] [] [] [] [] [] [] []]; try reflexivity; congruence.
Qed.

Lemma continues_number_not_x (r : ascii) (t : string) :
  continues_number (String r t) = false ->
  r <> "x"%char /\ r <> "X"%char.
Proof.
  cbn [continues_number]. destruct (digit_value 10 r); [discriminate|].
  intros H. apply orb_false_iff in H as [Hx HX].
  split; now apply Ascii.eqb_neq.
Qed.

Lemma strip_hex_prefix_digits_rest (s rest : string) :
  all_digits s = true -> continues_number rest = false ->
  strip_hex_prefix (s ++ rest) = (10%N, s ++ rest).
Proof.
  intros Hd Hr. destruct s as [|c s].
  - destruct rest as [|r rest]; [reflexivity|].
    change ("" ++ String r rest) with (String r rest).
    apply strip_hex_prefix_other. intros ->. discriminate Hr.
  - rewrite app_String.
    destruct (ascii_dec c "0") as [->|Hc]; [|now apply strip_hex_prefix_other].
    apply strip_hex_prefix_zero. intros r t' Ht.
    destruct s as [|c2 s].
    + change ("" ++ rest) with rest in Ht. subst rest.
      now apply (continues_number_not_x r t').
    + rewrite app_String in Ht. injection Ht as <- _.
      cbn [all_digits] in Hd.
      change (digit_value 10 "0") with (Some 0%N) in Hd. cbv iota in Hd.
      destruct (digit_value 10 c2) as [d|] eqn:Hc2; [|discriminate].
      destruct (digit_not_special _ _ Hc2) as (_ & _ & Hx & HX).
      now split.
Qed.

Lemma parseInt_digits_rest (s rest : string) (k : N) :
  all_digits s = true ->
  parse_digits 10 s None = Some k ->
  continues_number rest = false ->
  parseInt_string (s ++ rest) = Num (Z.of_N k) /\
  parseInt_string (String "-" (s ++ rest)) = Num (- Z.of_N k).
Proof.
  intros Hd Hp Hr.
  assert (Hparse : parse_digits 10 (s ++ rest) None = Some k).
  { rewrite (parse_digits_app _ _ _ Hd), Hp. now apply parse_digits_stop. }
  pose proof (strip_hex_prefix_digits_rest s rest Hd Hr) as Hhex.
  destruct s as [|c s]; [discriminate Hp|].
  pose proof Hd as Hd'. cbn [all_digits] in Hd'.
  destruct (digit_value 10 c) eqn:Hc; [|discriminate].
  destruct (digit_not_special _ _ Hc) as (Hw & Hs & _).
  rewrite app_String in *.
  unfold parseInt_string. split.
  - cbn [skip_white_space]. rewrite Hw, Hs, Hhex, Hparse. f_equal; lia.
  - change (skip_white_space (String "-" (String c (s ++ rest))))
      with (String "-" (String c (s ++ rest))).
    change (strip_sign (String "-" (String c (s ++ rest))))
      with (-1, String c (s ++ rest)).
    cbv iota beta. rewrite Hhex, Hparse. f_equal; lia.
Qed.

(** X20.  A count sent as text is read up to the end of its leading
    integer: when [faceCount] or [objectCount] is the decimal text of an
    integer in the range that JavaScript numbers hold exactly (magnitude
    below 2^53), followed by anything that does not go on with a digit or
    an [x], the number added to the counters is that integer, in both
    sources (so ["3 faces"] counts 3, and ["-2"] counts -2). *)
Theorem detection_reads_leading_integer
    (v : Variant) (n : Z) (rest : string) :
  safe_integer n ->
  continues_number rest = false ->
  detection_delta v (JStr (Number_toString n ++ rest)) = Num n.
Proof.
  intros _ Hr.
  assert (H : parseInt (JStr (Number_toString n ++ rest)) = Num n).
  { unfold parseInt, ToString, Number_toString.
    destruct (N_toString_spec (Z.abs_N n)) as [Hd Hp].
    destruct (parseInt_digits_rest _ rest _ Hd Hp Hr) as [Hpos Hneg].
    destruct (Z.ltb_spec n 0).
    - rewrite app_String. change ("" ++ ?x) with x.
      rewrite Hneg. f_equal. rewrite N2Z.inj_abs_N. lia.
    - rewrite Hpos. f_equal. rewrite N2Z.inj_abs_N. lia. }
  unfold detection_delta, default_to. destruct v; rewrite H; reflexivity.
Qed.

Lemma detection_reads_leading_integer_witness :
  detection_delta IndexJs (JStr (Number_toString 3 ++ " faces")) = Num 3.
Proof.
  apply (detection_reads_leading_integer IndexJs 3 " faces").
  - vm_compute. reflexivity.
  - reflexivity.
Defined.
(** ** Worked examples *)

Example date_ex : JsDate.toISOString 1767225600123 = "2026-01-01T00:00:00.123Z".
Proof. vm_compute. reflexivity. Qed.

Example join_ex1 : Path.join "/tmp/logs" "../../etc/passwd" = "/etc/passwd".
Proof. vm_compute. reflexivity. Qed.

Example join_ex2 : Path.join "/tmp/logs" "/etc/passwd" = "/tmp/logs/etc/passwd".
Proof. vm_compute. reflexivity. Qed.

Example join_ex3 : Path.join "logs" "../../a/" = "../a/".
Proof. vm_compute. reflexivity. Qed.

Example resolve_ex : Path.resolve "/srv/app" "logs/" = "/srv/app/logs".
Proof. vm_compute. reflexivity. Qed.

Example uri_ex1 : Uri.decodeURIComponent "..%2Fa%zz" = None.
Proof. vm_compute. reflexivity. Qed.

Example uri_ex2 : Uri.decodeURIComponent "..%2Fa.log" = Some "../a.log".
Proof. vm_compute. reflexivity. Qed.

Example ends_ex : endsWith "a.log.backup" ".log" = false /\ endsWith "a.log" ".log" = true.
Proof. vm_compute. auto. Qed.

Example parseInt_ex1 : parseInt (JStr "  -42px") = Num (-42).
Proof. reflexivity. Qed.

Example parseInt_ex2 : parseInt (JStr "0x1f") = Num 31.
Proof. reflexivity. Qed.

Example parseInt_ex3 : parseInt (JStr "abc") = NaN.
Proof. reflexivity. Qed.

Example parseInt_ex4 : parseInt (JNum (-5)) = Num (-5).
Proof. reflexivity. Qed.

Example parseInt_ex5 : parseInt JNull = NaN.
Proof. reflexivity. Qed.

Example toString_ex : Number_toString 1767225600000 = "1767225600000".
Proof. reflexivity. Qed.

Example cutoff_default_ex : cutoff 864000000 JUndefined = Some 259200000.
Proof. vm_compute. reflexivity. Qed.

Example cutoff_text_ex : cutoff 864000000 (JStr "abc") = None.
Proof. vm_compute. reflexivity. Qed.

Example cutoff_negative_ex : cutoff 864000000 (JStr "-1") = Some 950400000.
Proof. vm_compute. reflexivity. Qed.

Example cleanup_ex :
  match cleanupLogs sample_env 172800000 (JStr "1") disk_with_two_logs with
  | (Fs.Ok r, d) =>
      (c_status r, c_deleted r, c_cutoffDate r,
       Fs.existsSync "/tmp/logs/DETECTION_1970-01-01.log" d,
       Fs.existsSync "/tmp/logs/SESSION_START_1970-01-02.log" d,
       Fs.existsSync "/tmp/logs/notes.txt" d,
       Fs.existsSync "/tmp/logs" d)
  | (Fs.Throw _, _) => (0, None, None, false, false, false, false)
  end
  = (200, Some 3, Some "1970-01-02T00:00:00.000Z", false, true, false, true).
Proof. vm_compute. reflexivity. Qed.

Example content_lines_ex :
  content_lines
    ("{x}" ++ String "010" (" {a}" ++ String "010" (String "010"
       ("{b}  " ++ String "010" ("{y}" ++ String "010" " ")))))
  = ["{x}"; " {a}"; "{b}  "; "{y}"].
Proof. vm_compute. reflexivity. Qed.

Example draft_adds_text_ex :
  List.map (fun s => (Draft.faceDetections s, Draft.objectDetections s))
    (Draft.sessions
       (Draft.stats
          (snd (Draft.route Detection sample_env 5000
                  (detection_body (JStr sample_id) (JStr "3") (JNum 2))
                  draft_open))))
  = [(Draft.VString "03", Draft.VNumber (Num 2))].
Proof. vm_compute. reflexivity. Qed.

Example draft_logs_unknown_session_ex :
  let w := snd (Draft.route Detection sample_env 5000
                  (body_for (JStr "nobody"))
                  (Draft.initial_world 0 draft_disk)) in
  let line :=
    content_of (Draft.fs w) "/srv/app/logs/DETECTION_RECORD_1970-01-01.log" in
  (startsWith line "[1970-01-01T00:00:05.000Z] {",
   endsWith line ("}" ++ String "010" ""),
   Draft.sessions (Draft.stats w))
  = (true, true, []).
Proof. vm_compute. reflexivity. Qed.

Example lite_rejects_unknown_session_ex :
  Lite.guarded (list (string * unit)) unit (fun m => m)
    (fun _ st => (respond_ok (PSessionStart "reached"), st))
    (body_for (JStr "nobody")) [(sample_id, tt)]
  = (respond_error 400 "Sesion invalida", [(sample_id, tt)]).
Proof. reflexivity. Qed.

Example lite_lets_known_session_through_ex :
  Lite.guarded (list (string * unit)) unit (fun m => m)
    (fun _ st => (respond_ok (PSessionStart "reached"), st))
    (body_for (JStr sample_id)) [(sample_id, tt)]
  = (respond_ok (PSessionStart "reached"), [(sample_id, tt)]).
Proof. reflexivity. Qed.
